(** * pypi-mirror: the index builder and the mirror verifier

    A shallow embedding of [scripts/generate_index.py],
    [scripts/verify_mirror.py] and [scripts/export_from_lock.py], and
    the properties of the three scripts.

    - Strings are [string] over 8-bit characters: the names the scripts
      handle (PEP 503 project names, wheel and sdist file names,
      requirement lines) are ASCII.  Characters above 127 are carried
      through unchanged and are caseless.
    - The artifact directory is the list of entries [iterdir] yields,
      in the order it yields them, each with its name and, for a regular
      file, its bytes; files that exist can be read.
    - The output directory is a finite map from paths below [index_dir]
      to directories and text files; a computation on it may raise, and
      the tree it leaves behind is kept when it does.
    - [hashlib.sha256] is the function of FIPS 180-4 on an object that
      buffers the block in progress. *)

From Stdlib Require Import Ascii Strings.Byte.
From Equations Require Import Equations.
From Equations.Prop Require Import Logic.
From stdpp Require Import gmap strings list fin_maps sorting pretty.

#[local] Set Warnings "-abstract-large-number".

(** ** The Python built-ins the scripts use *)

Module Py.

Definition char_in (lo hi c : ascii) : bool :=
  (N_of_ascii lo <=? N_of_ascii c)%N && (N_of_ascii c <=? N_of_ascii hi)%N.

Definition is_upper (c : ascii) : bool := char_in "A" "Z" c.
Definition is_lower (c : ascii) : bool := char_in "a" "z" c.
Definition is_digit (c : ascii) : bool := char_in "0" "9" c.

(** [str.isspace] on one character: TAB, LF, VT, FF, CR, the four
    separators FS, GS, RS, US, and the space. *)
Definition is_space (c : ascii) : bool :=
  char_in "009" "013" c || char_in "028" "031" c || (c =? " ")%char.

Definition lower_char (c : ascii) : ascii :=
  if is_upper c then ascii_of_N (N_of_ascii c + 32) else c.

(** [s.lower()] *)
Fixpoint lower (s : string) : string :=
  match s with
  | "" => ""
  | String c s' => String (lower_char c) (lower s')
  end.

(** [s.replace(a, b)] for one-character [a] and [b] *)
Fixpoint replace (a b : ascii) (s : string) : string :=
  match s with
  | "" => ""
  | String c s' => String (if (c =? a)%char then b else c) (replace a b s')
  end.

(** [s.startswith(p)] *)
Fixpoint startswith (s p : string) : bool :=
  match p, s with
  | "", _ => true
  | String _ _, "" => false
  | String b p', String c s' => (c =? b)%char && startswith s' p'
  end.

(** [s.endswith(suf)] *)
Fixpoint endswith (s suf : string) : bool :=
  (s =? suf)%string ||
  match s with
  | "" => false
  | String _ s' => endswith s' suf
  end.

(** [s.split(sep)] for a one-character separator: never empty *)
Fixpoint split (sep : ascii) (s : string) : list string :=
  match s with
  | "" => [""]
  | String c s' =>
      if (c =? sep)%char then "" :: split sep s'
      else match split sep s' with
           | h :: t => String c h :: t
           | [] => [String c ""]
           end
  end.

(** [l[0]] on the result of a [split] *)
Definition first (l : list string) : string := hd "" l.

Fixpoint lstrip (s : string) : string :=
  match s with
  | "" => ""
  | String c s' => if is_space c then lstrip s' else s
  end.

Fixpoint rstrip (s : string) : string :=
  match s with
  | "" => ""
  | String c s' =>
      match rstrip s' with
      | "" => if is_space c then "" else String c ""
      | r => String c r
      end
  end.

(** [s.strip()] *)
Definition strip (s : string) : string := rstrip (lstrip s).

(** [sep.join(l)] *)
Fixpoint join (sep : string) (l : list string) : string :=
  match l with
  | [] => ""
  | [x] => x
  | x :: l' => x +:+ sep +:+ join sep l'
  end.

(** [str(n)] for a count *)
Definition str (n : nat) : string := pretty n.

(** [bool(s)]: a string is truthy when it is not empty *)
Definition truthy (s : string) : bool :=
  match s with "" => false | _ => true end.

Definition LF : ascii := "010".

End Py.

(** ** The character class [[-_.]] and [re.sub(r"[-_.]+", "-", name)] *)

Module Re.

Definition is_sep (c : ascii) : bool :=
  (c =? "-")%char || (c =? "_")%char || (c =? ".")%char.

(** [re.sub(r"[-_.]+", "-", s)]: the scan goes from left to right; a
    separator that opens a run emits the replacement, the separators
    that continue the run (the greedy [+]) emit nothing, any other
    character is copied.  [in_run] tells whether the previous character
    belonged to a run. *)
Fixpoint sub_sep_runs (in_run : bool) (s : string) : string :=
  match s with
  | "" => ""
  | String c s' =>
      if is_sep c then
        if in_run then sub_sep_runs true s'
        else String "-" (sub_sep_runs true s')
      else String c (sub_sep_runs false s')
  end.

(** The class [[a-zA-Z0-9_.\-\[\]]] of the verifier's name pattern *)
Definition is_name_char (c : ascii) : bool :=
  Py.is_lower c || Py.is_upper c || Py.is_digit c || is_sep c
  || (c =? "[")%char || (c =? "]")%char.

Fixpoint take_name_chars (s : string) : string :=
  match s with
  | "" => ""
  | String c s' => if is_name_char c then String c (take_name_chars s') else ""
  end.

(** [re.match(r"^([a-zA-Z0-9_.\-\[\]]+)", s)]: group 1 is the longest
    leading run of name characters; no match when it is empty. *)
Definition match_name (s : string) : option string :=
  match take_name_chars s with
  | "" => None
  | g => Some g
  end.

Definition starts_with_digit (s : string) : bool :=
  match s with
  | "" => false
  | String c _ => Py.is_digit c
  end.

(** The lazy group [(.+?)] once it holds at least one character: it
    stops as soon as ["-\d+"] matches at the current position;
    otherwise it takes one more character, which [.] refuses when it is
    a line feed. *)
Fixpoint lazy_group (s : string) : option string :=
  match s with
  | "" => None
  | String c s' =>
      if (c =? "-")%char && starts_with_digit s' then Some ""
      else if (c =? Py.LF)%char then None
      else String c <$> lazy_group s'
  end.

(** [re.match(r"^(.+?)-\d+", s)]: group 1 of the match, if any.  The
    [+] makes the group take one character before it may stop. *)
Definition match_name_version (s : string) : option string :=
  match s with
  | "" => None
  | String c s' =>
      if (c =? Py.LF)%char then None else String c <$> lazy_group s'
  end.

End Re.

(** ** [hashlib.sha256]

    The hash object of the standard library, as FIPS 180-4 defines the
    function: 32-bit words are [N] reduced modulo [2^32]; the object
    holds the chaining value, the bytes of the block that is not yet
    complete, and the number of bytes fed so far. *)

Module Hashlib.

Local Open Scope N_scope.

Definition mask32 : N := 4294967295.
Definition add32 (x y : N) : N := N.land (x + y) mask32.
Definition rotr (n x : N) : N :=
  N.lor (N.shiftr x n) (N.land (N.shiftl x (32 - n)) mask32).
Definition shr (n x : N) : N := N.shiftr x n.
Definition not32 (x : N) : N := N.lxor x mask32.

Definition Ch (x y z : N) : N := N.lxor (N.land x y) (N.land (not32 x) z).
Definition Maj (x y z : N) : N :=
  N.lxor (N.lxor (N.land x y) (N.land x z)) (N.land y z).
Definition Sum0 (x : N) : N := N.lxor (N.lxor (rotr 2 x) (rotr 13 x)) (rotr 22 x).
Definition Sum1 (x : N) : N := N.lxor (N.lxor (rotr 6 x) (rotr 11 x)) (rotr 25 x).
Definition sig0 (x : N) : N := N.lxor (N.lxor (rotr 7 x) (rotr 18 x)) (shr 3 x).
Definition sig1 (x : N) : N := N.lxor (N.lxor (rotr 17 x) (rotr 19 x)) (shr 10 x).

(** The sixty-four round constants and the initial chaining value *)
Definition round_constants : list N :=
  [ 1116352408; 1899447441; 3049323471; 3921009573; 961987163; 1508970993;
    2453635748; 2870763221; 3624381080; 310598401; 607225278; 1426881987;
    1925078388; 2162078206; 2614888103; 3248222580; 3835390401; 4022224774;
    264347078; 604807628; 770255983; 1249150122; 1555081692; 1996064986;
    2554220882; 2821834349; 2952996808; 3210313671; 3336571891; 3584528711;
    113926993; 338241895; 666307205; 773529912; 1294757372; 1396182291;
    1695183700; 1986661051; 2177026350; 2456956037; 2730485921; 2820302411;
    3259730800; 3345764771; 3516065817; 3600352804; 4094571909; 275423344;
    430227734; 506948616; 659060556; 883997877; 958139571; 1322822218;
    1537002063; 1747873779; 1955562222; 2024104815; 2227730452; 2361852424;
    2428436474; 2756734187; 3204031479; 3329325298 ].

Definition initial_value : list N :=
  [ 1779033703; 3144134277; 1013904242; 2773480762;
    1359893119; 2600822924; 528734635; 1541459225 ].

Fixpoint be_words (bs : list byte) : list N :=
  match bs with
  | b0 :: b1 :: b2 :: b3 :: bs' =>
      (((Byte.to_N b0 * 256 + Byte.to_N b1) * 256 + Byte.to_N b2) * 256
       + Byte.to_N b3) :: be_words bs'
  | _ => []
  end.

(** The message schedule: the sixteen words of the block, then
    forty-eight more, each from four earlier ones. *)
Fixpoint schedule (more : nat) (w : list N) : list N :=
  match more with
  | O => w
  | S more' =>
      let t := length w in
      let at_ (k : nat) := nth (t - k)%nat w 0 in
      schedule more'
        (w ++ [add32 (add32 (sig1 (at_ 2%nat)) (at_ 7%nat))
                     (add32 (sig0 (at_ 15%nat)) (at_ 16%nat))])
  end.

Definition round (v : list N) (kw : N * N) : list N :=
  match v with
  | [a; b; c; d; e; f; g; h] =>
      let t1 := add32 (add32 (add32 h (Sum1 e)) (add32 (Ch e f g) kw.1)) kw.2 in
      let t2 := add32 (Sum0 a) (Maj a b c) in
      [add32 t1 t2; a; b; c; add32 d t1; e; f; g]
  | _ => v
  end.

Definition compress (hv : list N) (block : list byte) : list N :=
  let w := schedule 48 (be_words block) in
  zip_with add32 hv (foldl round hv (zip round_constants w)).

Record sha256 := {
  chaining : list N;
  pending : list byte;
  fed : N
}.

(** [hashlib.sha256()] *)
Definition new : sha256 :=
  {| chaining := initial_value; pending := []; fed := 0 |}.

Definition update_byte (h : sha256) (b : byte) : sha256 :=
  let buf := pending h ++ [b] in
  if (length buf =? 64)%nat
  then {| chaining := compress (chaining h) buf; pending := []; fed := fed h + 1 |}
  else {| chaining := chaining h; pending := buf; fed := fed h + 1 |}.

(** [h.update(data)] *)
Definition update (h : sha256) (data : list byte) : sha256 :=
  foldl update_byte h data.

Definition be_bytes (n : nat) (x : N) : list byte :=
  (λ i : nat,
     default Byte.x00
       (Byte.of_N (N.land (N.shiftr x (8 * N.of_nat (n - 1 - i))) 255)))
  <$> seq 0 n.

(** The padding: the bit 1, zeros up to 56 modulo 64, then the length
    of the message in bits on eight bytes. *)
Definition padding (h : sha256) : list byte :=
  Byte.x80 :: replicate ((119 - length (pending h)) mod 64)%nat Byte.x00
  ++ be_bytes 8 (8 * fed h).

Definition hex_digit (d : N) : ascii :=
  if d <? 10 then ascii_of_N (48 + d) else ascii_of_N (87 + d).

Definition hex_word (x : N) : string :=
  foldr (λ (i : nat) s,
           String (hex_digit (N.land (N.shiftr x (4 * N.of_nat (7 - i))) 15)) s)
        "" (seq 0 8).

(** [h.hexdigest()] *)
Definition hexdigest (h : sha256) : string :=
  foldr (λ w s, hex_word w +:+ s) "" (chaining (update h (padding h))).

End Hashlib.

(** ** The file system the scripts see *)

Module Fs.

(** What [iterdir] yields: the name of an entry and, when it is a
    regular file, its content. *)
Inductive kind := Regular (content : list byte) | NotRegular.
Record dirent := { d_name : string; d_kind : kind }.

(** [f.is_file()] *)
Definition is_file (f : dirent) : bool :=
  match d_kind f with Regular _ => true | NotRegular => false end.

Definition content (f : dirent) : list byte :=
  match d_kind f with Regular c => c | NotRegular => [] end.

(** A file opened ["rb"]: the bytes not yet read.  [f.read(n)] returns
    up to [n] of them and advances. *)
Definition read (n : nat) (f : list byte) : list byte * list byte :=
  (take n f, drop n f).

(** The output tree under [index_dir]: paths are the lists of
    components below it, the empty path is [index_dir] itself. *)
Inductive node := Dir | File (text : string).

Inductive exn :=
| FileNotFoundError (path : string)
| FileExistsError (path : string)
| NotADirectoryError (path : string)
| IsADirectoryError (path : string).

Inductive result (A : Type) := Ok (a : A) | Raise (e : exn).
Global Arguments Ok {A} a.
Global Arguments Raise {A} e.

(** A computation on the output tree that may raise: the tree it
    leaves behind is kept when it raises. *)
Definition io (A : Type) : Type :=
  gmap (list string) node → gmap (list string) node * result A.

Global Instance io_ret : MRet io := λ A a t, (t, Ok a).
Global Instance io_bind : MBind io := λ A B k m t,
  match m t with
  | (t', Ok a) => k a t'
  | (t', Raise e) => (t', Raise e)
  end.
Definition raise {A} (e : exn) : io A := λ t, (t, Raise e).

(** [for x in l: body(x)] *)
Fixpoint for_each {A} (l : list A) (body : A → io unit) : io unit :=
  match l with
  | [] => mret ()
  | x :: l' => body x ;; for_each l' body
  end.

Definition show_path (root : string) (p : list string) : string :=
  Py.join "/" (root :: p).

(** [os.mkdir] on each missing directory from [base] down to
    [base ++ comps]: a directory that exists is left alone; a file at
    the target raises [FileExistsError], a file above it
    [NotADirectoryError], both for the target path. *)
Fixpoint mkdir_from (root : string) (base comps : list string) : io unit :=
  λ t,
    let descend (t' : gmap (list string) node) :=
      match comps with
      | [] => (t', Ok ())
      | c :: comps' => mkdir_from root (base ++ [c]) comps' t'
      end in
    match t !! base with
    | Some Dir => descend t
    | Some (File _) =>
        (t, Raise (match comps with
                   | [] => FileExistsError (show_path root base)
                   | _ => NotADirectoryError (show_path root (base ++ comps))
                   end))
    | None => descend (<[base := Dir]> t)
    end.

(** [p.mkdir(parents=True, exist_ok=True)] *)
Definition mkdir_p (root : string) (p : list string) : io unit :=
  mkdir_from root [] p.

Definition parent (p : list string) : list string := removelast p.

(** [p.write_text(text)]: creates the file or replaces its content; the
    directory that holds it has to exist. *)
Definition write_text (root : string) (p : list string) (text : string) : io unit :=
  λ t,
    match t !! parent p with
    | Some Dir =>
        match t !! p with
        | Some Dir => (t, Raise (IsADirectoryError (show_path root p)))
        | _ => (<[p := File text]> t, Ok ())
        end
    | Some (File _) => (t, Raise (NotADirectoryError (show_path root p)))
    | None => (t, Raise (FileNotFoundError (show_path root p)))
    end.

(** [sorted(d.iterdir())]: paths of one directory compare by name *)
Definition name_le (f g : dirent) : Prop := String.le (d_name f) (d_name g).
Global Instance name_le_dec : RelDecision name_le.
Proof. intros f g. unfold name_le. apply _. Defined.

End Fs.

(** ** [scripts/generate_index.py] *)

Module GenerateIndex.
Import Fs.

Definition normalize (name : string) : string :=
  Py.lower (Re.sub_sep_runs false name).

Definition extract_package_name (filename : string) : option string :=
  if Py.endswith filename ".whl" then
    Some (normalize (Py.first (Py.split "-" filename)))
  else if Py.endswith filename ".tar.gz" then
    normalize <$> Re.match_name_version filename
  else if Py.endswith filename ".zip" then
    normalize <$> Re.match_name_version filename
  else None.

Definition chunk_size : nat := 8192.

(** The loop [for chunk in iter(lambda: f.read(8192), b""): h.update(chunk)] *)
Equations? read_chunks (h : Hashlib.sha256) (f : list byte) : Hashlib.sha256
  by wf (length f) lt :=
  read_chunks h f with inspect (read chunk_size f) => {
    | exist _ ([], _) _ := h
    | exist _ (chunk, f') _ := read_chunks (Hashlib.update h chunk) f' }.
Proof.
  assert (chunk_size = S (pred chunk_size)) as Hpos by (by vm_compute).
  unfold read in *. simplify_eq.
  destruct f as [|b0 f]; [by rewrite take_nil in *|].
  rewrite length_drop, Hpos. simpl. lia.
Qed.

Definition sha256_file (content : list byte) : string :=
  Hashlib.hexdigest (read_chunks Hashlib.new content).

(** The double quote and the line feed of the page templates *)
Definition dq : string := String "034" "".
Definition nl : string := String Py.LF "".

(** [package_files[pkg_name].append(item)] on a [defaultdict(list)] *)
Definition dict_append (package_files : gmap string (list (string * string)))
    (pkg_name : string) (item : string * string) :
    gmap string (list (string * string)) :=
  <[pkg_name := default [] (package_files !! pkg_name) ++ [item]]> package_files.

(** One round of the first loop *)
Definition scan_entry (package_files : gmap string (list (string * string)))
    (f : dirent) : gmap string (list (string * string)) :=
  if negb (is_file f) then package_files
  else
    match extract_package_name (d_name f) with
    | Some pkg_name =>
        if Py.truthy pkg_name then
          let sha := sha256_file (content f) in
          dict_append package_files pkg_name (d_name f, sha)
        else package_files
    | None => package_files
    end.

(** [sorted(package_files.keys())] *)
Definition sorted_keys (package_files : gmap string (list (string * string))) :
    list string :=
  merge_sort String.le (map_to_list package_files).*1.

(** [sorted(package_files.items())]: the keys differ, so the pairs
    compare by key *)
Definition item_le (x y : string * list (string * string)) : Prop :=
  String.le x.1 y.1.
Global Instance item_le_dec : RelDecision item_le.
Proof. intros x y. unfold item_le. apply _. Defined.

Definition sorted_items (package_files : gmap string (list (string * string))) :
    list (string * list (string * string)) :=
  merge_sort item_le (map_to_list package_files).

Definition root_link (pkg_name : string) : string :=
  "    <a href=" +:+ dq +:+ pkg_name +:+ "/" +:+ dq +:+ ">" +:+ pkg_name +:+ "</a>".

Definition root_page (root_links : list string) : string :=
  "<!DOCTYPE html>" +:+ nl +:+ "<html><head><title>Simple Index</title>"
  +:+ "<meta name=" +:+ dq +:+ "api-version" +:+ dq +:+ " value=" +:+ dq +:+ "2"
  +:+ dq +:+ "/></head>" +:+ nl
  +:+ "<body>" +:+ nl +:+ Py.join nl root_links +:+ nl +:+ "</body></html>".

Definition file_href (filename sha : string) : string :=
  "../../packages/" +:+ filename +:+ "#sha256=" +:+ sha.

Definition file_link (item : string * string) : string :=
  let '(filename, sha) := item in
  let href := file_href filename sha in
  "    <a href=" +:+ dq +:+ href +:+ dq +:+ ">" +:+ filename +:+ "</a>".

Definition package_page (pkg_name : string) (file_links : list string) : string :=
  "<!DOCTYPE html>" +:+ nl +:+ "<html><head><title>" +:+ pkg_name +:+ "</title>"
  +:+ "<meta name=" +:+ dq +:+ "api-version" +:+ dq +:+ " value=" +:+ dq +:+ "2"
  +:+ dq +:+ "/></head>" +:+ nl
  +:+ "<body>" +:+ nl +:+ Py.join nl file_links +:+ nl +:+ "</body></html>".

(** [packages_dir.iterdir()]: [None] stands for a directory that
    cannot be listed *)
Definition iterdir (packages_path : string) (packages_dir : option (list dirent)) :
    io (list dirent) :=
  match packages_dir with
  | Some entries => mret entries
  | None => raise (FileNotFoundError packages_path)
  end.

(** One round of the second loop, for one [(pkg_name, files)] of
    [sorted(package_files.items())] *)
Definition emit_package (index_path : string) (simple_dir : list string)
    (item : string * list (string * string)) : io unit :=
  let '(pkg_name, files) := item in
  let pkg_dir := simple_dir ++ [pkg_name] in
  mkdir_p index_path pkg_dir;;
  let file_links := file_link <$> files in
  let pkg_html := package_page pkg_name file_links in
  write_text index_path (pkg_dir ++ ["index.html"]) pkg_html.

(** [generate_index(packages_dir, index_dir)].  The two paths are kept
    for the messages of the exceptions; [packages_dir] is what the
    directory holds, in the order [iterdir] yields it, and the state of
    the computation is the tree under [index_dir].  The result is the
    line printed at the end. *)
Definition generate_index (packages_path index_path : string)
    (packages_dir : option (list dirent)) : io string :=
  entries ← iterdir packages_path packages_dir;
  let package_files := foldl scan_entry ∅ (merge_sort name_le entries) in
  let simple_dir := ["simple"] in
  mkdir_p index_path simple_dir;;
  let root_links := root_link <$> sorted_keys package_files in
  let root_html := root_page root_links in
  write_text index_path (simple_dir ++ ["index.html"]) root_html;;
  for_each (sorted_items package_files) (emit_package index_path simple_dir);;
  let total_files := sum_list (length <$> (map_to_list package_files).*2) in
  mret ("Generated index: " +:+ Py.str (size package_files) +:+ " packages, "
        +:+ Py.str total_files +:+ " files").

End GenerateIndex.

(** ** [scripts/verify_mirror.py] *)

Module VerifyMirror.
Import Fs.

Definition normalize (name : string) : string :=
  Py.lower (Re.sub_sep_runs false name).

(** How a run of the script ends: it returns, it leaves through
    [sys.exit], or an exception escapes.  [stdout] holds the printed
    lines. *)
Inductive outcome :=
| Returned (stdout : list string)
| Exited (status : nat) (stdout : list string)
| Raised (e : exn).

(** The set comprehension
    [{f.name.lower() for f in Path(packages_dir).iterdir() if f.is_file()}] *)
Definition available_names (entries : list dirent) : gset string :=
  list_to_set ((λ f, Py.lower (d_name f)) <$> filter (λ f, is_file f = true) entries).

(** The name the loop derives from a stripped line; [None] where the
    loop goes on to the next line. *)
Definition requirement_name (req : string) : option string :=
  if negb (Py.truthy req) || Py.startswith req "#" || Py.startswith req "-" then None
  else
    match Re.match_name req with
    | None => None
    | Some group1 =>
        let raw_name := Py.first (Py.split "[" group1) in
        Some (normalize raw_name)
    end.

(** [any(f.startswith(...) or ... for f in available)] *)
Definition found (available : gset string) (pkg_name : string) : bool :=
  let pkg_underscore := Py.replace "-" "_" pkg_name in
  let pkg_dot := Py.replace "-" "." pkg_name in
  existsb (λ f, Py.startswith f (pkg_name +:+ "-")
                || Py.startswith f (pkg_underscore +:+ "-")
                || Py.startswith f (pkg_dot +:+ "-"))
          (elements available).

(** One round of the loop over the lines, on the pair
    [(missing, checked)] *)
Definition check_line (available : gset string) (st : list string * nat)
    (line : string) : list string * nat :=
  let '(missing, checked) := st in
  let req := Py.strip line in
  match requirement_name req with
  | None => (missing, checked)
  | Some pkg_name =>
      if found available pkg_name then (missing, S checked)
      else (missing ++ [req], S checked)
  end.

(** The report at the end of [verify] *)
Definition report (missing : list string) (checked : nat) : outcome :=
  match missing with
  | [] => Returned ["All " +:+ Py.str checked +:+ " packages present in mirror."]
  | _ =>
      Exited 1
        (("MISSING " +:+ Py.str (length missing) +:+ "/" +:+ Py.str checked
          +:+ " packages:")
         :: ((λ m, "  - " +:+ m) <$> missing))
  end.

(** [verify(requirements_file, packages_dir)]: [read_text] and
    [iterdir] are what the operating system answers for a path, [None]
    when the path does not exist. *)
Definition verify (read_text : string → option string)
    (iterdir : string → option (list dirent))
    (requirements_file packages_dir : string) : outcome :=
  match read_text requirements_file with
  | None => Raised (FileNotFoundError requirements_file)
  | Some text =>
      let reqs := Py.split Py.LF (Py.strip text) in
      match iterdir packages_dir with
      | None => Raised (FileNotFoundError packages_dir)
      | Some entries =>
          let available := available_names entries in
          let '(missing, checked) := foldl (check_line available) ([], 0) reqs in
          report missing checked
      end
  end.

End VerifyMirror.

(** ** The words of the specification

    Definitions that follow the specification's sentences, to be
    compared with the code's. *)

Module Spec.

Fixpoint all_sep (r : string) : bool :=
  match r with
  | "" => true
  | String c r' => Re.is_sep c && all_sep r'
  end.

Definition starts_with_sep (s : string) : bool :=
  match s with
  | "" => false
  | String c _ => Re.is_sep c
  end.

(** "Replaces every maximal run of the characters [-], [_], [.] with
    a single [-]": a run is replaced when it is not empty, holds
    separators only and is not followed by a separator; the rule for
    another character is the only one that can come before it, so the
    run is maximal on both sides. *)
Inductive runs_replaced : string → string → Prop :=
| runs_end : runs_replaced "" ""
| runs_other c s t :
    Re.is_sep c = false → runs_replaced s t →
    runs_replaced (String c s) (String c t)
| runs_run r s t :
    r ≠ "" → all_sep r = true → starts_with_sep s = false →
    runs_replaced s t →
    runs_replaced (r +:+ s) (String "-" t).

(** Two characters that differ at most in case, or in the choice of
    the separator *)
Definition same_char (a b : ascii) : Prop :=
  Py.lower_char a = Py.lower_char b ∨ (Re.is_sep a = true ∧ Re.is_sep b = true).

(** Two names that differ only in case or in the choice of separator
    characters *)
Inductive same_name : string → string → Prop :=
| same_end : same_name "" ""
| same_cons a b s t :
    same_char a b → same_name s t → same_name (String a s) (String b t).

(** The character [c] occurs in [s] *)
Fixpoint contains (c : ascii) (s : string) : bool :=
  match s with
  | "" => false
  | String a s' => (a =? c)%char || contains c s'
  end.

(** "An occurrence of [-] immediately followed by a digit": one that
    comes right after the leading substring [p] of [filename] *)
Definition dash_digit_after (p filename : string) : Prop :=
  ∃ d rest, Py.is_digit d = true ∧ filename = p +:+ String "-" (String d rest).

(** [p] is "the leading substring up to but not including the first
    occurrence of a [-] immediately followed by a digit" *)
Definition up_to_first_dash_digit (p filename : string) : Prop :=
  dash_digit_after p filename
  ∧ ∀ p', dash_digit_after p' filename → String.length p ≤ String.length p'.

(** The same, for the first occurrence that leaves a name: the
    occurrences past the first character *)
Definition up_to_first_dash_digit_past_head (p filename : string) : Prop :=
  p ≠ "" ∧ dash_digit_after p filename
  ∧ ∀ p', p' ≠ "" → dash_digit_after p' filename →
          String.length p ≤ String.length p'.

Fixpoint last_char (s : string) : option ascii :=
  match s with
  | "" => None
  | String c "" => Some c
  | String _ s' => last_char s'
  end.

(** A line with no white space at either end *)
Definition no_outer_space (s : string) : Prop :=
  match s with "" => True | String c _ => Py.is_space c = false end
  ∧ match last_char s with None => True | Some c => Py.is_space c = false end.

(** "Compared case-insensitively, starts with" *)
Definition starts_with_nocase (s p : string) : bool :=
  Py.startswith (Py.lower s) (Py.lower p).

(** A file name "starts with the normalized name followed by [-], or
    with the normalized name's underscore variant followed by [-], or
    with the normalized name's dot variant followed by [-]" *)
Definition provides (n filename : string) : Prop :=
  starts_with_nocase filename (n +:+ "-") = true
  ∨ starts_with_nocase filename (Py.replace "-" "_" n +:+ "-") = true
  ∨ starts_with_nocase filename (Py.replace "-" "." n +:+ "-") = true.

(** The requirement with normalised name [n] is satisfied by the
    directory *)
Definition satisfied (entries : list Fs.dirent) (n : string) : Prop :=
  ∃ f, f ∈ entries ∧ Fs.is_file f = true ∧ provides n (Fs.d_name f).

(** The requirements of a requirements file, in input order: the
    lines, without the white space around them, that yield a name *)
Definition requirements (text : string) : list string :=
  filter (λ r, is_Some (VerifyMirror.requirement_name r))
         (Py.strip <$> Py.split Py.LF (Py.strip text)).

(** A requirement is left unsatisfied when no file is found for its
    name *)
Definition is_unsatisfied (entries : list Fs.dirent) (r : string) : bool :=
  match VerifyMirror.requirement_name r with
  | Some n => negb (VerifyMirror.found (VerifyMirror.available_names entries) n)
  | None => false
  end.

(** The requirements left unsatisfied, in input order *)
Definition unsatisfied (entries : list Fs.dirent) (reqs : list string) :
    list string :=
  filter (λ r, is_unsatisfied entries r = true) reqs.

(** The index builder retains the entry [f] under the package name [n] *)
Definition retained (f : Fs.dirent) (n : string) : Prop :=
  Fs.is_file f = true
  ∧ GenerateIndex.extract_package_name (Fs.d_name f) = Some n
  ∧ n ≠ "".

(** The paths of the index pages below [index_dir] *)
Definition root_page_path : list string := ["simple"; "index.html"].
Definition package_page_path (n : string) : list string :=
  ["simple"; n; "index.html"].

(** The link of an artifact in a package page *)
Definition artifact_link (filename : string) (content : list byte) : string :=
  "    <a href=" +:+ GenerateIndex.dq +:+ "../../packages/" +:+ filename
  +:+ "#sha256=" +:+ Hashlib.hexdigest (Hashlib.update Hashlib.new content)
  +:+ GenerateIndex.dq +:+ ">" +:+ filename +:+ "</a>".

(** The link of a package in the root page: it points at the
    subdirectory of the package *)
Definition package_link (n : string) : string :=
  "    <a href=" +:+ GenerateIndex.dq +:+ n +:+ "/" +:+ GenerateIndex.dq +:+ ">"
  +:+ n +:+ "</a>".

(** [needle] occurs in [hay] *)
Fixpoint occurs_in (needle hay : string) : bool :=
  Py.startswith hay needle
  || match hay with
     | "" => false
     | String _ hay' => occurs_in needle hay'
     end.

(** The index pages a run rewrites: the root page, and the page of
    every package name under which it retains an entry *)
Definition rewrites (packages_dir : option (list Fs.dirent)) (q : list string) : Prop :=
  ∃ entries, packages_dir = Some entries
    ∧ (q = root_page_path
       ∨ ∃ n f, f ∈ entries ∧ retained f n ∧ q = package_page_path n).

End Spec.

(** ** Notions for the proofs *)

Module Aux.
Import Fs.

(** The run of separators at the head of a string, and what follows *)
Fixpoint leading_seps (s : string) : string :=
  match s with
  | "" => ""
  | String c s' => if Re.is_sep c then String c (leading_seps s') else ""
  end.

Fixpoint after_seps (s : string) : string :=
  match s with
  | "" => ""
  | String c s' => if Re.is_sep c then after_seps s' else s
  end.

(** What a step may do to the tree: a directory stays a directory, *)
Definition keeps_dirs (t t' : gmap (list string) node) : Prop :=
  ∀ q, t !! q = Some Dir → t' !! q = Some Dir.

(** and a file stays a file, whatever becomes of its content. *)
Definition keeps_files (t t' : gmap (list string) node) : Prop :=
  ∀ q text, t !! q = Some (File text) → ∃ text', t' !! q = Some (File text').

(** The dictionary the first loop builds *)
Definition collect (entries : list dirent) : gmap string (list (string * string)) :=
  foldl GenerateIndex.scan_entry ∅ (merge_sort name_le entries).

(** The line [generate_index] prints at the end *)
Definition summary (package_files : gmap string (list (string * string))) : string :=
  let total_files := sum_list (length <$> (map_to_list package_files).*2) in
  "Generated index: " +:+ Py.str (size package_files) +:+ " packages, "
  +:+ Py.str total_files +:+ " files".

(** What [generate_index] does once the dictionary is built *)
Definition emit (index_path : string)
    (package_files : gmap string (list (string * string))) : io string :=
  let simple_dir := ["simple"] in
  mkdir_p index_path simple_dir;;
  let root_links := GenerateIndex.root_link <$> GenerateIndex.sorted_keys package_files in
  let root_html := GenerateIndex.root_page root_links in
  write_text index_path (simple_dir ++ ["index.html"]) root_html;;
  for_each (GenerateIndex.sorted_items package_files)
           (GenerateIndex.emit_package index_path simple_dir);;
  let total_files := sum_list (length <$> (map_to_list package_files).*2) in
  mret ("Generated index: " +:+ Py.str (size package_files) +:+ " packages, "
        +:+ Py.str total_files +:+ " files").

End Aux.

(** ** Sample inputs *)

Module Sample.
Import Fs.

Definition file (name : string) (content : list byte) : dirent :=
  {| d_name := name; d_kind := Regular content |}.

(** The bytes of ["abc"] *)
Definition abc : list byte := [Byte.x61; Byte.x62; Byte.x63].

Definition requests_wheel : dirent := file "requests-2.31.0-py3-none-any.whl" abc.
Definition requests_sdist : dirent := file "requests-2.31.0.tar.gz" [Byte.x62].
Definition six_wheel : dirent := file "six-1.16.0-py2.py3-none-any.whl" [].
Definition flask_login_wheel : dirent :=
  file "Flask_Login-0.6.3-py3-none-any.whl" [].
Definition scipy_wheel : dirent := file "scipy-1.0-py3-none-any.whl" [].
Definition nameless_wheel : dirent := file "-1.0-py3-none-any.whl" [].

(** An output tree with the page of a package from an earlier run *)
Definition stale_page : node := File "<html>an earlier run</html>".
Definition earlier_tree : gmap (list string) node :=
  {[ [] := Dir; ["simple"] := Dir; ["simple"; "attrs"] := Dir;
     ["simple"; "attrs"; "index.html"] := stale_page ]}.

(** The tree a first run leaves, from an empty output directory *)
Definition first_run : gmap (list string) node * result string :=
  GenerateIndex.generate_index "packages/all" "index"
    (Some [requests_sdist; requests_wheel]) ∅.

End Sample.

(** ** Shapes of names and digests *)

Module Shape.

(** A name in canonical form: no upper-case letter, no separator other
    than [-], and no [-] next to another.  [after_dash] tells whether
    the previous character was a [-]. *)
Fixpoint canonical_from (after_dash : bool) (s : string) : bool :=
  match s with
  | "" => true
  | String c s' =>
      negb (Py.is_upper c)
      && if Re.is_sep c
         then (c =? "-")%char && negb after_dash && canonical_from true s'
         else canonical_from false s'
  end.

Definition canonical (s : string) : bool := canonical_from false s.

(** A name of ASCII characters: on these [Py.lower] is [str.lower] *)
Fixpoint ascii_only (s : string) : bool :=
  match s with
  | "" => true
  | String c s' => (N_of_ascii c <? 128)%N && ascii_only s'
  end.

(** A lower-case hexadecimal digit *)
Definition is_hex (c : ascii) : bool := Py.is_digit c || Py.char_in "a" "f" c.

Fixpoint all_hex (s : string) : bool :=
  match s with
  | "" => true
  | String c s' => is_hex c && all_hex s'
  end.

End Shape.

(** ** What the first loop retains *)

Module Retain.
Import Fs.

(** The first loop appends the entry [f] to the dictionary *)
Definition is_retained (f : dirent) : bool :=
  is_file f
  && match GenerateIndex.extract_package_name (d_name f) with
     | Some n => Py.truthy n
     | None => false
     end.

Global Instance retained_dec f n : Decision (Spec.retained f n).
Proof. unfold Spec.retained. apply _. Defined.

(** The total the summary line prints *)
Definition total_files (package_files : gmap string (list (string * string))) : nat :=
  sum_list (length <$> (map_to_list package_files).*2).

End Retain.

(** ** The shape of a generated index *)

Module Tree.
Import Fs.

(** What an index tree may hold: [index_dir], [simple], the root page,
    the directory of a package and its page. *)
Inductive allowed : list string → node → Prop :=
| allowed_index_dir : allowed [] Dir
| allowed_simple : allowed ["simple"] Dir
| allowed_root_page text : allowed ["simple"; "index.html"] (File text)
| allowed_package_dir n : n ≠ "index.html" → allowed ["simple"; n] Dir
| allowed_package_page n text : allowed ["simple"; n; "index.html"] (File text).

Definition index_shaped (t : gmap (list string) node) : Prop :=
  ∀ p nd, t !! p = Some nd → allowed p nd.

End Tree.

(** ** The command line of the verifier, and notions about its input *)

Module Cli.
Import Fs.

(** The block under [if __name__ == "__main__":] of
    [verify_mirror.py].  [sys.argv] holds the name of the script first. *)
Definition verify_main (read_text : string → option string)
    (iterdir : string → option (list dirent)) (argv : list string) :
    VerifyMirror.outcome :=
  if length argv <? 3 then
    VerifyMirror.Exited 1
      ["Usage: " +:+ default "" (argv !! 0) +:+ " <requirements.txt> <packages_dir>"]
  else
    VerifyMirror.verify read_text iterdir
      (default "" (argv !! 1)) (default "" (argv !! 2)).

(** The status the interpreter exits with: that of [sys.exit], 1 after
    an exception that nothing catches, 0 otherwise. *)
Definition exit_status (o : VerifyMirror.outcome) : nat :=
  match o with
  | VerifyMirror.Returned _ => 0
  | VerifyMirror.Exited status _ => status
  | VerifyMirror.Raised _ => 1
  end.

End Cli.

Module Mirror.
Import Fs.

(** The lower-cased names of the regular files of a directory *)
Definition lowered_names (entries : list dirent) : list string :=
  (λ f, Py.lower (d_name f)) <$> filter (λ f, is_file f = true) entries.

(** A name written with letters, digits and separators only *)
Fixpoint plain_name (raw : string) : bool :=
  match raw with
  | "" => true
  | String c raw' =>
      (Py.is_lower c || Py.is_upper c || Py.is_digit c || Re.is_sep c)
      && plain_name raw'
  end.

(** What may follow the name in a requirement line: nothing, the [[]
    of the extras, or a character the name pattern refuses *)
Definition ends_name (tail : string) : bool :=
  match tail with
  | "" => true
  | String c _ => (c =? "[")%char || negb (Re.is_name_char c)
  end.

(** A spelling of a name whose separators are all the character [c],
    none next to another.  [after_sep] tells whether the previous
    character was a separator. *)
Fixpoint uniform_from (c : ascii) (after_sep : bool) (p : string) : bool :=
  match p with
  | "" => true
  | String a p' =>
      if Re.is_sep a
      then (a =? c)%char && negb after_sep && uniform_from c true p'
      else uniform_from c false p'
  end.

Definition uniform (c : ascii) (p : string) : bool := uniform_from c false p.

End Mirror.

(** ** [scripts/export_from_lock.py]

    The two TOML documents are taken as [tomllib] returns them, reduced
    to what the script reads: the [[package]] tables of the lock file
    with their keys [name], [version] and [category] ([None] for a key
    that is absent), and the groups of [tool.poetry.group] of the
    project file, each with the names under its [dependencies].  The
    values of the keys are strings. *)

Module ExportFromLock.

Record package := {
  name : option string;
  version : option string;
  category : option string
}.

Inductive exn :=
| FileNotFoundError (path : string)
| TOMLDecodeError (path : string)
| KeyError (key : string)
| IndexError.

(** How a run ends: the text written to the output file and the line
    printed, an exit through [sys.exit], or an exception. *)
Inductive outcome :=
| Wrote (output_path text stdout : string)
| Exited (status : nat) (stdout : string)
| Raised (e : exn).

(** The loop that fills [dev_packages] *)
Definition dev_names (groups : list (string * list string)) : gset string :=
  foldl (λ (dev_packages : gset string) '(group_name, dependencies),
           if negb (group_name =? "main")%string then
             foldl (λ (acc : gset string) dep_name, {[Py.lower dep_name]} ∪ acc)
                   dev_packages dependencies
           else dev_packages)
        ∅ groups.

(** The loop over the packages: [pkg["name"]] and [pkg["version"]] raise
    [KeyError] for a key that is absent. *)
Fixpoint scan (exclude_dev : bool) (dev_packages : gset string)
    (packages : list package) (entries : list string) : exn + list string :=
  match packages with
  | [] => inr entries
  | pkg :: rest =>
      match name pkg with
      | None => inl (KeyError "name")
      | Some n =>
          match version pkg with
          | None => inl (KeyError "version")
          | Some v =>
              let cat := default "main" (category pkg) in
              if exclude_dev
                 && ((cat =? "dev")%string
                     || bool_decide (Py.lower n ∈ dev_packages))
              then scan exclude_dev dev_packages rest entries
              else scan exclude_dev dev_packages rest (entries ++ [n +:+ "==" +:+ v])
          end
      end
  end.

(** The order of [sorted(..., key=str.lower)] *)
Definition lower_le (a b : string) : Prop := String.le (Py.lower a) (Py.lower b).
Global Instance lower_le_dec : RelDecision lower_le.
Proof. intros a b. unfold lower_le. apply _. Defined.

(** [bool(pyproject_path)] *)
Definition given (pyproject_path : option string) : bool :=
  match pyproject_path with
  | Some p => Py.truthy p
  | None => false
  end.

(** [parse_lock(lock_path, output_path, exclude_dev, pyproject_path)].
    [load_lock] and [load_groups] stand for reading and parsing the two
    files; [enum] is the order in which the set of entries is iterated,
    which the language leaves open. *)
Definition parse_lock (enum : gset string → list string)
    (load_lock : string → exn + list package)
    (load_groups : string → exn + list (string * list string))
    (lock_path output_path : string) (exclude_dev : bool)
    (pyproject_path : option string) : outcome :=
  match load_lock lock_path with
  | inl e => Raised e
  | inr packages =>
      let loaded :=
        if exclude_dev && given pyproject_path then
          match load_groups (default "" pyproject_path) with
          | inl e => inl e
          | inr groups => inr (dev_names groups)
          end
        else inr ∅ in
      match loaded with
      | inl e => Raised e
      | inr dev_packages =>
          match scan exclude_dev dev_packages packages [] with
          | inl e => Raised e
          | inr entries =>
              let lines := merge_sort lower_le (enum (list_to_set entries)) in
              Wrote output_path
                (Py.join GenerateIndex.nl lines +:+ GenerateIndex.nl)
                ("Exported " +:+ Py.str (length lines) +:+ " packages to "
                 +:+ output_path)
          end
      end
  end.

(** [l.index(x)] when [x] is in [l] *)
Fixpoint index_of (x : string) (l : list string) : nat :=
  match l with
  | [] => 0
  | y :: l' => if (y =? x)%string then 0 else S (index_of x l')
  end.

(** [x in l] *)
Definition member (x : string) (l : list string) : bool :=
  existsb (λ y, (y =? x)%string) l.

(** The block under [if __name__ == "__main__":] *)
Definition main (enum : gset string → list string)
    (load_lock : string → exn + list package)
    (load_groups : string → exn + list (string * list string))
    (argv : list string) : outcome :=
  if length argv <? 3 then
    Exited 1
      ("Usage: " +:+ default "" (argv !! 0)
       +:+ " <poetry.lock> <output.txt> [--without-dev] [--pyproject <pyproject.toml>]")
  else
    let lock_file := default "" (argv !! 1) in
    let output_file := default "" (argv !! 2) in
    let exclude_dev := member "--without-dev" argv in
    if member "--pyproject" argv then
      let idx := index_of "--pyproject" argv in
      match argv !! (idx + 1) with
      | None => Raised IndexError
      | Some pyproject_file =>
          parse_lock enum load_lock load_groups lock_file output_file exclude_dev
            (Some pyproject_file)
      end
    else
      parse_lock enum load_lock load_groups lock_file output_file exclude_dev None.

End ExportFromLock.

(** ** Notions about the exported requirements *)

Module Exported.
Import ExportFromLock.

(** A package table with the two keys the script needs *)
Definition complete (pkg : package) : Prop :=
  is_Some (name pkg) ∧ is_Some (version pkg).

(** The pinned requirement of a package *)
Definition line (n v : string) : string := n +:+ "==" +:+ v.

(** A group other than [main] lists [n], up to case, among its
    dependencies *)
Definition is_dev_dependency (groups : list (string * list string)) (n : string) :
    Prop :=
  ∃ group_name dependencies dep_name,
    (group_name, dependencies) ∈ groups ∧ group_name ≠ "main"
    ∧ dep_name ∈ dependencies ∧ Py.lower n = Py.lower dep_name.

(** The package named [n] is left out *)
Definition dropped (exclude_dev : bool) (pyproject_path : option string)
    (groups : list (string * list string)) (pkg : package) (n : string) : Prop :=
  exclude_dev = true
  ∧ (category pkg = Some "dev"
     ∨ given pyproject_path = true ∧ is_dev_dependency groups n).

(** A package whose requirement line the verifier reads back as it was
    written: a name of letters, digits and separators that does not
    start with [-], a version without line feed and without white space
    at its end. *)
Definition readable (pkg : package) : Prop :=
  ∃ n v, name pkg = Some n ∧ version pkg = Some v
    ∧ n ≠ "" ∧ Mirror.plain_name n = true ∧ Py.startswith n "-" = false
    ∧ Spec.contains Py.LF v = false ∧ Spec.contains "013" v = false
    ∧ match Spec.last_char v with
      | None => True
      | Some c => Py.is_space c = false
      end.

(** The set of names the run compares with: empty unless the project
    file is read *)
Definition dev_set (exclude_dev : bool) (pyproject_path : option string)
    (groups : list (string * list string)) : gset string :=
  if exclude_dev && given pyproject_path then dev_names groups else ∅.

(** A line the verifier reads back as it stands *)
Definition plain_line (l : string) : Prop :=
  l ≠ "" ∧ Spec.no_outer_space l ∧ Spec.contains Py.LF l = false.

End Exported.

(** A lock file with two versions of one package and a development
    tool, and the groups of its project file *)

Module LockSample.
Import ExportFromLock.

Definition pkg (n v : string) (c : option string) : package :=
  {| name := Some n; version := Some v; category := c |}.

Definition lock : list package :=
  [pkg "requests" "2.31.0" None; pkg "Flask" "3.0" (Some "main");
   pkg "requests" "2.30.0" None; pkg "PyTest" "8.0" None;
   pkg "black" "24.1" (Some "dev")].

Definition groups : list (string * list string) :=
  [("main", ["flask"]); ("test", ["pytest"])].

(** A table without its [version] *)
Definition broken : package :=
  {| name := Some "six"; version := None; category := Some "dev" |}.

Definition load_lock (path : string) : exn + list package :=
  if (path =? "poetry.lock")%string then inr lock else inl (FileNotFoundError path).

Definition load_groups (path : string) : exn + list (string * list string) :=
  if (path =? "pyproject.toml")%string then inr groups
  else inl (FileNotFoundError path).

End LockSample.

(** No two requirement lines of the packages differ in case only *)

Module Distinct.
Import ExportFromLock.

Definition case_distinct (packages : list package) : Prop :=
  ∀ p q n v n' v',
    p ∈ packages → q ∈ packages →
    name p = Some n → version p = Some v →
    name q = Some n' → version q = Some v' →
    Py.lower (Exported.line n v) = Py.lower (Exported.line n' v') →
    Exported.line n v = Exported.line n' v'.

End Distinct.

(** * Properties *)

(** ** The model on known values *)

Section known_values.

(** The digests of the empty message and of ["abc"] (FIPS 180-4), and of
    a content one byte longer than a chunk. *)
Example sha256_empty :
  Hashlib.hexdigest Hashlib.new
  = "e3b0c44298fc1c149afbf4c8996fb92427ae41e4649b934ca495991b7852b855".
Proof. by vm_compute. Qed.

Example sha256_abc :
  Hashlib.hexdigest (Hashlib.update Hashlib.new Sample.abc)
  = "ba7816bf8f01cfea414140de5dae2223b00361a396177a9cb410ff61f20015ad".
Proof. by vm_compute. Qed.

Example sha256_file_two_chunks :
  GenerateIndex.sha256_file (replicate 8193 Byte.x00)
  = "b1fb0079828ab653919011a9f8cfdd3704387eb08e1dc971155b33c03e0da1ef".
Proof. by vm_compute. Qed.

Example normalize_mixed : GenerateIndex.normalize "Foo_Bar.Baz" = "foo-bar-baz".
Proof. done. Qed.

Example normalize_runs : GenerateIndex.normalize "--Foo_.-Bar..baz-" = "-foo-bar-baz-".
Proof. done. Qed.

Example classify_no_version :
  GenerateIndex.extract_package_name "mypackage.tar.gz" = None.
Proof. done. Qed.

(** The scenario of the specification: a wheel and a source
    distribution of one package. *)
Example first_run_pages :
  Sample.first_run.2 = Fs.Ok "Generated index: 1 packages, 2 files"
  ∧ Sample.first_run.1 !! ["simple"; "index.html"]
    = Some (Fs.File (GenerateIndex.root_page [GenerateIndex.root_link "requests"]))
  ∧ Sample.first_run.1 !! ["simple"; "requests"; "index.html"]
    = Some (Fs.File
              (GenerateIndex.package_page "requests"
                 [ GenerateIndex.file_link
                     ("requests-2.31.0-py3-none-any.whl",
                      "ba7816bf8f01cfea414140de5dae2223b00361a396177a9cb410ff61f20015ad");
                   GenerateIndex.file_link
                     ("requests-2.31.0.tar.gz",
                      "3e23e8160039594a33894f6564e1b1348bbd7a0088d42c4acb73eeaed59c009d") ])).
Proof. repeat split; by vm_compute. Qed.

(** The text of the two pages of that scenario, character by
    character *)
Example first_run_text :
  Sample.first_run.1 !! ["simple"; "index.html"]
  = Some (Fs.File
        ("<!DOCTYPE html>" +:+ GenerateIndex.nl
         +:+ "<html><head><title>Simple Index</title><meta name="
         +:+ GenerateIndex.dq +:+ "api-version" +:+ GenerateIndex.dq
         +:+ " value=" +:+ GenerateIndex.dq +:+ "2" +:+ GenerateIndex.dq
         +:+ "/></head>" +:+ GenerateIndex.nl +:+ "<body>"
         +:+ GenerateIndex.nl +:+ "    <a href=" +:+ GenerateIndex.dq
         +:+ "requests/" +:+ GenerateIndex.dq +:+ ">requests</a>"
         +:+ GenerateIndex.nl +:+ "</body></html>"))
  ∧ Sample.first_run.1 !! ["simple"; "requests"; "index.html"]
    = Some (Fs.File
        ("<!DOCTYPE html>" +:+ GenerateIndex.nl
         +:+ "<html><head><title>requests</title><meta name="
         +:+ GenerateIndex.dq +:+ "api-version" +:+ GenerateIndex.dq
         +:+ " value=" +:+ GenerateIndex.dq +:+ "2" +:+ GenerateIndex.dq
         +:+ "/></head>" +:+ GenerateIndex.nl +:+ "<body>"
         +:+ GenerateIndex.nl +:+ "    <a href=" +:+ GenerateIndex.dq
         +:+ "../../packages/requests-2.31.0-py3-none-any.whl#sha256=ba7816bf8f01cfea414140de5dae2223b00361a396177a9cb410ff61f20015ad"
         +:+ GenerateIndex.dq +:+ ">requests-2.31.0-py3-none-any.whl</a>"
         +:+ GenerateIndex.nl +:+ "    <a href=" +:+ GenerateIndex.dq
         +:+ "../../packages/requests-2.31.0.tar.gz#sha256=3e23e8160039594a33894f6564e1b1348bbd7a0088d42c4acb73eeaed59c009d"
         +:+ GenerateIndex.dq +:+ ">requests-2.31.0.tar.gz</a>"
         +:+ GenerateIndex.nl +:+ "</body></html>")).
Proof. split; by vm_compute. Qed.

Example verify_mixed_file :
  VerifyMirror.verify
    (λ _, Some ("# pinned" +:+ GenerateIndex.nl +:+ "--index-url https://example.invalid"
                +:+ GenerateIndex.nl +:+ "  PKG-Name==1.0.0  " +:+ GenerateIndex.nl
                +:+ GenerateIndex.nl +:+ "foo[bar]==1.0" +:+ GenerateIndex.nl))
    (λ _, Some [ Sample.file "pkg_name-1.0.0-py3-none-any.whl" [];
                 Sample.file "foobar-1.0.tar.gz" [] ])
    "requirements.txt" "packages/all"
  = VerifyMirror.Exited 1 ["MISSING 1/2 packages:"; "  - foo[bar]==1.0"].
Proof. by vm_compute. Qed.

End known_values.

(** ** Characters and strings *)

Section chars.

Lemma lower_char_idem c : Py.lower_char (Py.lower_char c) = Py.lower_char c.
Proof. by destruct c as [[] [] [] [] [] [] [] []]. Qed.

Lemma is_sep_lower_char c : Re.is_sep (Py.lower_char c) = Re.is_sep c.
Proof. by destruct c as [[] [] [] [] [] [] [] []]. Qed.

Lemma app_cons c s t : String c s +:+ t = String c (s +:+ t).
Proof. done. Qed.

Lemma app_empty s : "" +:+ s = s.
Proof. done. Qed.

Lemma string_app_assoc s t u : (s +:+ t) +:+ u = s +:+ t +:+ u.
Proof. induction s as [|c s IH]; [done|]. by rewrite !app_cons, IH. Qed.

Lemma lower_idem s : Py.lower (Py.lower s) = Py.lower s.
Proof. induction s as [|c s IH]; simpl; [done|]. by rewrite lower_char_idem, IH. Qed.

Lemma lower_app s t : Py.lower (s +:+ t) = Py.lower s +:+ Py.lower t.
Proof. induction s as [|c s IH]; [done|]. rewrite app_cons. simpl. by rewrite IH. Qed.

Lemma startswith_empty s : Py.startswith s "" = true.
Proof. by destruct s. Qed.

Lemma startswith_app s t : Py.startswith (s +:+ t) s = true.
Proof.
  induction s as [|a s IH]; [by rewrite app_empty, startswith_empty|].
  rewrite app_cons. simpl. by rewrite Ascii.eqb_refl.
Qed.

End chars.

(** ** Normalisation *)

Section normalize.

Lemma sub_sep_runs_lower b s :
  Re.sub_sep_runs b (Py.lower s) = Py.lower (Re.sub_sep_runs b s).
Proof.
  revert b. induction s as [|c s IH]; intros b; simpl; [done|].
  rewrite is_sep_lower_char. destruct (Re.is_sep c) eqn:Hc.
  - destruct b; simpl; by rewrite IH.
  - simpl. by rewrite IH.
Qed.

Lemma sub_sep_runs_fixed s :
  Re.sub_sep_runs false (Re.sub_sep_runs false s) = Re.sub_sep_runs false s
  ∧ Re.sub_sep_runs false (Re.sub_sep_runs true s) = Re.sub_sep_runs true s
  ∧ Re.sub_sep_runs true (Re.sub_sep_runs true s) = Re.sub_sep_runs true s.
Proof.
  induction s as [|c s (IH1 & IH2 & IH3)]; simpl; [done|].
  destruct (Re.is_sep c) eqn:Hc; simpl; rewrite ?Hc; simpl.
  - by rewrite IH3.
  - by rewrite IH1.
Qed.

Lemma normalize_idem x :
  GenerateIndex.normalize (GenerateIndex.normalize x) = GenerateIndex.normalize x.
Proof.
  unfold GenerateIndex.normalize.
  rewrite sub_sep_runs_lower, lower_idem.
  by rewrite (proj1 (sub_sep_runs_fixed x)).
Qed.

Lemma same_char_sep a b : Spec.same_char a b → Re.is_sep a = Re.is_sep b.
Proof.
  intros [H|[-> ->]]; [|done].
  by rewrite <-(is_sep_lower_char a), H, is_sep_lower_char.
Qed.

Lemma same_name_sub b x y :
  Spec.same_name x y →
  Py.lower (Re.sub_sep_runs b x) = Py.lower (Re.sub_sep_runs b y).
Proof.
  intros H. revert b. induction H as [|a c s t Hac _ IH]; intros b; [done|].
  simpl. rewrite <-(same_char_sep _ _ Hac).
  destruct (Re.is_sep a) eqn:Ha.
  - destruct b; simpl; by rewrite IH.
  - simpl. rewrite IH. f_equal.
    destruct Hac as [?|[? _]]; [done|congruence].
Qed.

Lemma sub_skip_run r s :
  Spec.all_sep r = true →
  Re.sub_sep_runs true (r +:+ s) = Re.sub_sep_runs true s.
Proof.
  induction r as [|c r IH]; [done|]. rewrite app_cons. simpl.
  intros [-> ?]%andb_true_iff. auto.
Qed.

Lemma sub_after_run s :
  Spec.starts_with_sep s = false →
  Re.sub_sep_runs true s = Re.sub_sep_runs false s.
Proof. destruct s as [|c s]; [done|]. simpl. by intros ->. Qed.

Lemma runs_replaced_unique s t :
  Spec.runs_replaced s t → t = Re.sub_sep_runs false s.
Proof.
  induction 1 as [|c s t Hc _ IH|r s t Hr Hall Hs _ IH]; [done|..].
  - simpl. by rewrite Hc, IH.
  - destruct r as [|c r]; [done|]. rewrite app_cons. simpl in *.
    apply andb_true_iff in Hall as [-> Hall].
    by rewrite sub_skip_run, sub_after_run, IH.
Qed.

Lemma leading_after_seps s : Aux.leading_seps s +:+ Aux.after_seps s = s.
Proof.
  induction s as [|c s IH]; [done|]. simpl.
  destruct (Re.is_sep c); [|done]. by rewrite app_cons, IH.
Qed.

Lemma leading_seps_all s : Spec.all_sep (Aux.leading_seps s) = true.
Proof. induction s as [|c s IH]; [done|]. simpl. destruct (Re.is_sep c) eqn:Hc; simpl; by rewrite ?Hc. Qed.

Lemma after_seps_start s : Spec.starts_with_sep (Aux.after_seps s) = false.
Proof. induction s as [|c s IH]; [done|]. simpl. destruct (Re.is_sep c) eqn:Hc; simpl; by rewrite ?Hc. Qed.

Lemma after_seps_length s : String.length (Aux.after_seps s) ≤ String.length s.
Proof. induction s as [|c s IH]; [done|]. simpl. destruct (Re.is_sep c); simpl; lia. Qed.

Lemma sub_true_after_seps s :
  Re.sub_sep_runs true s = Re.sub_sep_runs false (Aux.after_seps s).
Proof.
  rewrite <-(leading_after_seps s) at 1.
  rewrite sub_skip_run by apply leading_seps_all.
  apply sub_after_run, after_seps_start.
Qed.

Lemma runs_replaced_sub s : Spec.runs_replaced s (Re.sub_sep_runs false s).
Proof.
  remember (String.length s) as n eqn:Hn.
  revert s Hn. induction (lt_wf n) as [n _ IH]; intros s ->.
  destruct s as [|c s]; [constructor|]. simpl.
  destruct (Re.is_sep c) eqn:Hc.
  - rewrite sub_true_after_seps.
    replace (String c s) with (String c (Aux.leading_seps s) +:+ Aux.after_seps s)
      by (by rewrite app_cons, leading_after_seps).
    constructor; [done|simpl; by rewrite Hc, leading_seps_all
                 |apply after_seps_start|].
    eapply IH; [|done]. pose proof (after_seps_length s). simpl. lia.
  - constructor; [done|]. eapply IH; [|done]. simpl. lia.
Qed.

End normalize.

(** C1.  [normalize] replaces every maximal run of [-], [_], [.] by one
    [-] and lowercases the result: what it returns is the lowercased
    form of the one string that the replacement of runs allows.  It is
    idempotent, two names that differ only in case or in the choice of
    separator characters normalise to the same name, and the verifier's
    [normalize] is the index builder's. *)
Theorem normalize_canonical :
  (∀ name, ∃ t,
      Spec.runs_replaced name t
      ∧ (∀ t', Spec.runs_replaced name t' → t' = t)
      ∧ GenerateIndex.normalize name = Py.lower t)
  ∧ (∀ x, GenerateIndex.normalize (GenerateIndex.normalize x)
          = GenerateIndex.normalize x)
  ∧ (∀ x y, Spec.same_name x y →
            GenerateIndex.normalize x = GenerateIndex.normalize y)
  ∧ (∀ name, VerifyMirror.normalize name = GenerateIndex.normalize name).
Proof.
  split; [|split; [|split]].
  - intros name. exists (Re.sub_sep_runs false name).
    split; [apply runs_replaced_sub|]. split; [|done].
    intros t'. apply runs_replaced_unique.
  - apply normalize_idem.
  - intros x y H. by apply same_name_sub.
  - done.
Qed.

Lemma normalize_canonical_witness :
  GenerateIndex.normalize "Foo_Bar.Baz" = GenerateIndex.normalize "foo-bar-baz".
Proof.
  apply (proj1 (proj2 (proj2 normalize_canonical))).
  repeat (constructor; [first [by left | by right]|]). constructor.
Defined.

(** ** Classification of file names *)

Section classify.

Lemma eqb_char_eq (a b : ascii) : (a =? b)%char = true ↔ a = b.
Proof. apply Ascii.eqb_eq. Qed.

Lemma split_first_no_sep c s :
  Spec.contains c s = false → Py.first (Py.split c s) = s.
Proof.
  induction s as [|a s IH]; [done|]. simpl.
  intros [Ha Hs]%orb_false_iff. rewrite Ha.
  specialize (IH Hs). destruct (Py.split c s) as [|h t]; simpl in *; by subst.
Qed.

Lemma split_first_segment c seg rest :
  Spec.contains c seg = false →
  Py.first (Py.split c (seg +:+ String c rest)) = seg.
Proof.
  induction seg as [|a seg IH].
  - intros _. rewrite app_empty. simpl. by rewrite Ascii.eqb_refl.
  - rewrite app_cons. simpl. intros [Ha Hs]%orb_false_iff. rewrite Ha.
    specialize (IH Hs).
    destruct (Py.split c (seg +:+ String c rest)) as [|h t]; simpl in *; by subst.
Qed.

Lemma split_first_leading c s :
  Py.startswith s (String c "") = true → Py.first (Py.split c s) = "".
Proof.
  destruct s as [|a s]; [done|]. simpl.
  intros [Ha _]%andb_true_iff. by rewrite Ha.
Qed.

Lemma endswith_app_r p t suf :
  Py.endswith t suf = true → Py.endswith (p +:+ t) suf = true.
Proof.
  intros Ht. induction p as [|a p IH]; [done|].
  rewrite app_cons. simpl. rewrite IH. apply orb_true_r.
Qed.

Lemma endswith_last s a suf :
  Py.endswith s (String a suf) = true → Spec.last_char s = Spec.last_char (String a suf).
Proof.
  induction s as [|c s IH]; [done|].
  cbn [Py.endswith]. intros [Heq|Hs]%orb_true_iff.
  - apply String.eqb_eq in Heq. by rewrite Heq.
  - rewrite <-(IH Hs). destruct s; [done|done].
Qed.

Lemma sdist_not_wheel filename :
  Py.endswith filename ".tar.gz" = true ∨ Py.endswith filename ".zip" = true →
  Py.endswith filename ".whl" = false.
Proof.
  intros H. destruct (Py.endswith filename ".whl") eqn:Hw; [|done].
  apply endswith_last in Hw.
  destruct H as [H|H]; apply endswith_last in H; simpl in *; congruence.
Qed.

Lemma extract_sdist filename :
  Py.endswith filename ".tar.gz" = true ∨ Py.endswith filename ".zip" = true →
  GenerateIndex.extract_package_name filename
  = GenerateIndex.normalize <$> Re.match_name_version filename.
Proof.
  intros H. unfold GenerateIndex.extract_package_name.
  rewrite (sdist_not_wheel _ H).
  destruct H as [->| ->]; [done|]. by destruct (Py.endswith filename ".tar.gz").
Qed.

Lemma dash_digit_after_cons a q s :
  Spec.dash_digit_after q s ↔ Spec.dash_digit_after (String a q) (String a s).
Proof.
  split; intros (d & rest & Hd & Hs); exists d, rest; (split; [done|]).
  - by rewrite app_cons, Hs.
  - rewrite app_cons in Hs. by simplify_eq.
Qed.

Lemma dash_digit_head s :
  Spec.dash_digit_after "" s ↔
  ∃ s', s = String "-" s' ∧ Re.starts_with_digit s' = true.
Proof.
  split.
  - intros (d & rest & Hd & ->). rewrite app_empty. by eexists.
  - intros (s' & -> & Hs'). destruct s' as [|d rest]; [done|].
    by exists d, rest.
Qed.

Lemma lazy_group_stops c s' :
  ((c =? "-")%char && Re.starts_with_digit s') = true ↔
  Spec.dash_digit_after "" (String c s').
Proof.
  rewrite dash_digit_head, andb_true_iff, eqb_char_eq. split.
  - intros [-> ?]. by eexists.
  - intros (? & ? & ?). by simplify_eq.
Qed.

Lemma lazy_group_first q s :
  Spec.up_to_first_dash_digit q s →
  Re.lazy_group s = if Spec.contains Py.LF q then None else Some q.
Proof.
  revert s. induction q as [|a q IH]; intros s [Hq Hmin].
  - apply dash_digit_head in Hq as (s' & -> & Hs'). simpl. by rewrite Hs'.
  - pose proof Hq as (d & rest & Hd & ->). rewrite app_cons.
    cbn [Re.lazy_group Spec.contains].
    destruct ((a =? "-")%char && _) eqn:Hstop.
    { apply lazy_group_stops in Hstop. rewrite <-app_cons in Hstop.
      apply Hmin in Hstop. simpl in Hstop. lia. }
    destruct (a =? Py.LF)%char; [done|]. simpl.
    rewrite (IH (q +:+ String "-" (String d rest))).
    + by destruct (Spec.contains Py.LF q).
    + split; [by exists d, rest|]. intros q' Hq'.
      apply (dash_digit_after_cons a) in Hq'. rewrite <-app_cons in Hq'.
      apply Hmin in Hq'. simpl in Hq'. lia.
Qed.

Lemma lazy_group_none s :
  (∀ q, ¬ Spec.dash_digit_after q s) → Re.lazy_group s = None.
Proof.
  induction s as [|c s IH]; intros Hno; [done|]. cbn [Re.lazy_group].
  destruct ((c =? "-")%char && _) eqn:Hstop.
  { apply lazy_group_stops in Hstop. by apply Hno in Hstop. }
  destruct (c =? Py.LF)%char; [done|].
  rewrite IH; [done|]. intros q Hq. apply (Hno (String c q)).
  by apply dash_digit_after_cons.
Qed.

Lemma match_name_version_first p filename :
  Spec.up_to_first_dash_digit_past_head p filename →
  Re.match_name_version filename
  = if Spec.contains Py.LF p then None else Some p.
Proof.
  intros (Hp & Hq & Hmin). destruct p as [|a q]; [done|].
  pose proof Hq as (d & rest & Hd & ->). rewrite app_cons.
  cbn [Re.match_name_version Spec.contains].
  destruct (a =? Py.LF)%char; [done|]. simpl.
  rewrite (lazy_group_first q).
  - by destruct (Spec.contains Py.LF q).
  - split; [by exists d, rest|]. intros q' Hq'.
    apply (dash_digit_after_cons a) in Hq'. rewrite <-app_cons in Hq'.
    apply Hmin in Hq'; [|done]. simpl in Hq'. lia.
Qed.

Lemma match_name_version_none filename :
  (∀ p, p ≠ "" → ¬ Spec.dash_digit_after p filename) →
  Re.match_name_version filename = None.
Proof.
  intros Hno. destruct filename as [|c s]; [done|]. simpl.
  destruct (c =? Py.LF)%char; [done|].
  rewrite lazy_group_none; [done|].
  intros q Hq. apply (Hno (String c q)); [done|].
  by apply dash_digit_after_cons.
Qed.

End classify.

(** C9.  A file name that ends in [.whl] is always given a name: the
    normalised whole file name, suffix included, when it holds no [-]
    (so [foo.whl] becomes [foo-whl]), and the empty string when it
    starts with [-]; the first loop of the index builder then leaves the
    dictionary as it is. *)
Theorem wheel_always_classified :
  (∀ filename, Py.endswith filename ".whl" = true →
     (∃ n, GenerateIndex.extract_package_name filename = Some n)
     ∧ (Spec.contains "-" filename = false →
        GenerateIndex.extract_package_name filename
        = Some (GenerateIndex.normalize filename))
     ∧ (Py.startswith filename "-" = true →
        GenerateIndex.extract_package_name filename = Some ""
        ∧ ∀ package_files kind,
            GenerateIndex.scan_entry package_files
              {| Fs.d_name := filename; Fs.d_kind := kind |} = package_files))
  ∧ GenerateIndex.extract_package_name "foo.whl" = Some "foo-whl".
Proof.
  split; [|done]. intros filename Hw.
  unfold GenerateIndex.extract_package_name. rewrite Hw.
  split; [by eexists|]. split.
  - intros Hno. by rewrite split_first_no_sep.
  - intros Hdash. rewrite split_first_leading by done. split; [done|].
    intros package_files kind. unfold GenerateIndex.scan_entry.
    destruct (negb _); [done|]. simpl.
    unfold GenerateIndex.extract_package_name. rewrite Hw.
    by rewrite split_first_leading.
Qed.

Lemma wheel_always_classified_witness :
  GenerateIndex.extract_package_name "-1.0-py3-none-any.whl" = Some ""
  ∧ GenerateIndex.extract_package_name "setup.whl"
    = Some (GenerateIndex.normalize "setup.whl").
Proof.
  split.
  - apply (proj1 wheel_always_classified "-1.0-py3-none-any.whl"); reflexivity.
  - apply (proj1 wheel_always_classified "setup.whl"); reflexivity.
Defined.

(** C3, as the specification states it, fails: in [-1foo-2.0.tar.gz] the
    first [-] that a digit follows is the first character, the leading
    substring before it is empty, and the code returns [-1foo]. *)
Lemma sdist_first_occurrence_counterexample :
  ¬ (∀ filename p,
       Py.endswith filename ".tar.gz" = true ∨ Py.endswith filename ".zip" = true →
       Spec.up_to_first_dash_digit p filename →
       GenerateIndex.extract_package_name filename
       = Some (GenerateIndex.normalize p)).
Proof.
  intros H. specialize (H "-1foo-2.0.tar.gz" "").
  assert (GenerateIndex.extract_package_name "-1foo-2.0.tar.gz" = Some "-1foo")
    as Hcode by reflexivity.
  rewrite Hcode in H. discriminate H.
  - by left.
  - split; [|simpl; lia]. by exists "1"%char, "foo-2.0.tar.gz".
Qed.

(** A line feed before the version has the same effect: the pattern's
    [.] does not match it, and the file is not classified. *)
Lemma sdist_line_feed_unclassified :
  let filename := String "a" (String Py.LF "b-1.0.tar.gz") in
  Spec.dash_digit_after (String "a" (String Py.LF "b")) filename
  ∧ GenerateIndex.extract_package_name filename = None.
Proof. split; [|done]. by exists "1"%char, ".0.tar.gz". Qed.

(** C3, amended.  A file name that ends in [.whl] is classified as its
    normalised first [-]-delimited segment, so
    [{name}-{version}-py3-none-any.whl] with no [-] in [name] gives
    [normalize name].  A file name that ends in [.tar.gz] or [.zip] is
    classified as the normalised leading substring up to the first [-]
    immediately followed by a digit that comes after the first
    character, when no line feed comes before it
    ([my-package-1.2.3.tar.gz] gives [my-package]); it is not classified
    when a line feed comes before it, or when no [-] followed by a digit
    occurs after the first character.  Any other file name is not
    classified; the function returns for every input. *)
Theorem classification_cases :
  (∀ filename seg,
     Py.endswith filename ".whl" = true →
     Spec.contains "-" seg = false →
     filename = seg ∨ (∃ rest, filename = seg +:+ String "-" rest) →
     GenerateIndex.extract_package_name filename
     = Some (GenerateIndex.normalize seg))
  ∧ (∀ name version,
       Spec.contains "-" name = false →
       GenerateIndex.extract_package_name
         (name +:+ "-" +:+ version +:+ "-py3-none-any.whl")
       = Some (GenerateIndex.normalize name))
  ∧ (∀ filename p,
       Py.endswith filename ".tar.gz" = true ∨ Py.endswith filename ".zip" = true →
       Spec.up_to_first_dash_digit_past_head p filename →
       GenerateIndex.extract_package_name filename
       = if Spec.contains Py.LF p then None
         else Some (GenerateIndex.normalize p))
  ∧ (∀ filename,
       Py.endswith filename ".tar.gz" = true ∨ Py.endswith filename ".zip" = true →
       (∀ p, p ≠ "" → ¬ Spec.dash_digit_after p filename) →
       GenerateIndex.extract_package_name filename = None)
  ∧ GenerateIndex.extract_package_name "my-package-1.2.3.tar.gz"
    = Some "my-package"
  ∧ (∀ filename,
       Py.endswith filename ".whl" = false →
       Py.endswith filename ".tar.gz" = false →
       Py.endswith filename ".zip" = false →
       GenerateIndex.extract_package_name filename = None).
Proof.
  repeat split.
  - intros filename seg Hw Hseg Hsplit.
    unfold GenerateIndex.extract_package_name. rewrite Hw.
    destruct Hsplit as [->|[rest ->]].
    + by rewrite split_first_no_sep.
    + by rewrite split_first_segment.
  - intros name version Hname.
    unfold GenerateIndex.extract_package_name.
    rewrite endswith_app_r by (by do 2 apply endswith_app_r).
    change (name +:+ "-" +:+ version +:+ "-py3-none-any.whl")
      with (name +:+ String "-" (version +:+ "-py3-none-any.whl")).
    by rewrite split_first_segment.
  - intros filename p Hs Hp. rewrite extract_sdist by done.
    rewrite (match_name_version_first p) by done.
    by destruct (Spec.contains Py.LF p).
  - intros filename Hs Hno. rewrite extract_sdist by done.
    by rewrite match_name_version_none.
  - intros filename Hw Ht Hz.
    unfold GenerateIndex.extract_package_name. by rewrite Hw, Ht, Hz.
Qed.

(** Refutes [Heq : filename = p +:+ String "-" (String d rest)] for a
    literal file name and a prefix [p] of known length. *)
Ltac no_dash_digit Heq :=
  first [ done
        | rewrite ?app_cons, ?app_empty in Heq; by simplify_eq ].

Lemma classification_cases_witness :
  GenerateIndex.extract_package_name "attrs-23.1.0-py3-none-any.whl" = Some "attrs"
  ∧ GenerateIndex.extract_package_name "six-1.16.0.zip" = Some "six"
  ∧ GenerateIndex.extract_package_name "nodigit-version.tar.gz" = None
  ∧ GenerateIndex.extract_package_name "notes.txt" = None.
Proof.
  destruct classification_cases as (Hwheel & _ & Hsdist & Hnone & _ & Hother).
  split; [|split; [|split]].
  - apply (Hwheel "attrs-23.1.0-py3-none-any.whl" "attrs"); [done|done|].
    right. by exists "23.1.0-py3-none-any.whl".
  - apply (Hsdist "six-1.16.0.zip" "six"); [by right|].
    split; [done|]. split; [by exists "1"%char, ".16.0.zip"|].
    intros p' Hp' (d & rest & Hd & Heq).
    do 3 (destruct p' as [|? p']; [no_dash_digit Heq|]). simpl. lia.
  - apply (Hnone "nodigit-version.tar.gz"); [by left|].
    intros p Hp (d & rest & Hd & Heq).
    do 23 (destruct p as [|? p]; [no_dash_digit Heq|]). no_dash_digit Heq.
  - by apply (Hother "notes.txt").
Defined.

(** ** The verifier *)

Section verifier.
Import Fs.

Lemma replace_lower a b s :
  Py.lower_char a = a → Py.lower_char b = b →
  (∀ c, Py.lower_char c = a → c = a) →
  Py.lower (Py.replace a b s) = Py.replace a b (Py.lower s).
Proof.
  intros Ha Hb Hinj. induction s as [|c s IH]; [done|]. simpl. rewrite IH. f_equal.
  destruct (c =? a)%char eqn:Hc.
  - apply eqb_char_eq in Hc as ->. by rewrite Ha, Ascii.eqb_refl.
  - destruct (Py.lower_char c =? a)%char eqn:Hc'; [|done].
    apply eqb_char_eq, Hinj in Hc'. apply Ascii.eqb_neq in Hc. done.
Qed.

Lemma lower_char_dash c : Py.lower_char c = "-"%char → c = "-"%char.
Proof. by destruct c as [[] [] [] [] [] [] [] []]. Qed.

Lemma lower_normalize x :
  Py.lower (VerifyMirror.normalize x) = VerifyMirror.normalize x.
Proof. apply lower_idem. Qed.

Lemma requirement_name_normalized req n :
  VerifyMirror.requirement_name req = Some n → Py.lower n = n.
Proof.
  unfold VerifyMirror.requirement_name.
  destruct (_ || _); [done|]. destruct (Re.match_name req); [|done].
  intros [= <-]. apply lower_normalize.
Qed.

(** The prefixes the code compares with are in lower case already, so
    lowering the file name alone compares without case. *)
Lemma provides_lowered n filename :
  Py.lower n = n →
  Spec.provides n filename ↔
    Py.startswith (Py.lower filename) (n +:+ "-") = true
    ∨ Py.startswith (Py.lower filename) (Py.replace "-" "_" n +:+ "-") = true
    ∨ Py.startswith (Py.lower filename) (Py.replace "-" "." n +:+ "-") = true.
Proof.
  intros Hn. unfold Spec.provides, Spec.starts_with_nocase.
  rewrite !lower_app, !replace_lower, Hn by (done || apply lower_char_dash).
  done.
Qed.

Lemma found_satisfied entries n :
  Py.lower n = n →
  VerifyMirror.found (VerifyMirror.available_names entries) n = true
  ↔ Spec.satisfied entries n.
Proof.
  intros Hn. unfold VerifyMirror.found, Spec.satisfied.
  rewrite existsb_exists. split.
  - intros (x & Hx & Hm).
    apply list_elem_of_In, elem_of_elements in Hx.
    unfold VerifyMirror.available_names in Hx.
    apply elem_of_list_to_set, list_elem_of_fmap in Hx as (f & -> & Hf).
    apply list_elem_of_filter in Hf as [Hfile Hf].
    exists f. split; [done|]. split; [done|].
    apply provides_lowered; [done|].
    rewrite !orb_true_iff in Hm. tauto.
  - intros (f & Hf & Hfile & Hp). exists (Py.lower (d_name f)). split.
    + apply list_elem_of_In, elem_of_elements.
      unfold VerifyMirror.available_names.
      apply elem_of_list_to_set, list_elem_of_fmap. exists f. split; [done|].
      by apply list_elem_of_filter.
    + apply provides_lowered in Hp; [|done].
      rewrite !orb_true_iff. tauto.
Qed.

Lemma check_line_cases available missing checked line :
  VerifyMirror.check_line available (missing, checked) line
  = match VerifyMirror.requirement_name (Py.strip line) with
    | None => (missing, checked)
    | Some n =>
        if VerifyMirror.found available n then (missing, S checked)
        else (missing ++ [Py.strip line], S checked)
    end.
Proof. done. Qed.

Lemma scan_lines entries lines missing checked :
  foldl (VerifyMirror.check_line (VerifyMirror.available_names entries))
        (missing, checked) lines
  = (missing
     ++ Spec.unsatisfied entries
          (filter (λ r, is_Some (VerifyMirror.requirement_name r))
                  (Py.strip <$> lines)),
     checked
     + length (filter (λ r, is_Some (VerifyMirror.requirement_name r))
                      (Py.strip <$> lines))).
Proof.
  revert missing checked.
  induction lines as [|line lines IH]; intros missing checked.
  { simpl. by rewrite app_nil_r, Nat.add_0_r. }
  cbn [foldl fmap list_fmap]. rewrite check_line_cases.
  unfold Spec.unsatisfied in *.
  destruct (VerifyMirror.requirement_name (Py.strip line)) as [n|] eqn:Hn.
  - rewrite (filter_cons_True (λ r, is_Some _)) by (by rewrite Hn).
    destruct (VerifyMirror.found _ n) eqn:Hfound.
    + rewrite filter_cons_False
        by (unfold Spec.is_unsatisfied; by rewrite Hn, Hfound).
      rewrite IH. f_equal. simpl. lia.
    + rewrite filter_cons_True
        by (unfold Spec.is_unsatisfied; by rewrite Hn, Hfound).
      rewrite IH, <-app_assoc. f_equal. simpl. lia.
  - rewrite (filter_cons_False (λ r, is_Some _))
      by (rewrite Hn; by intros [? ?]).
    apply IH.
Qed.

Lemma lstrip_id s :
  match s with "" => True | String c _ => Py.is_space c = false end →
  Py.lstrip s = s.
Proof. destruct s as [|c s]; [done|]. simpl. by intros ->. Qed.

Lemma rstrip_id s :
  match Spec.last_char s with None => True | Some c => Py.is_space c = false end →
  Py.rstrip s = s.
Proof.
  induction s as [|c s IH]; [done|]. destruct s as [|c' s].
  - simpl. by intros ->.
  - intros H.
    change (Py.rstrip (String c (String c' s)))
      with (match Py.rstrip (String c' s) with
            | "" => if Py.is_space c then "" else String c ""
            | r => String c r
            end).
    by rewrite IH.
Qed.

Lemma strip_id s : Spec.no_outer_space s → Py.strip s = s.
Proof. intros [H1 H2]. unfold Py.strip. rewrite lstrip_id by done. by apply rstrip_id. Qed.

End verifier.

(** C2.  For a line that yields the normalised name [n], the loop of
    [verify] counts the requirement and leaves [missing] alone exactly
    when some file of the directory has a name that, compared without
    case, starts with [n], with [n]'s underscore variant or with [n]'s
    dot variant, followed by [-]; otherwise it appends the line.  So
    [PKG-Name==1.0.0] is satisfied by [pkg_name-1.0.0-py3-none-any.whl],
    and [foo==1.0] is not satisfied by [foobar-1.0.tar.gz]. *)
Theorem requirement_satisfied_iff :
  (∀ entries line n missing checked,
     VerifyMirror.requirement_name (Py.strip line) = Some n →
     (VerifyMirror.found (VerifyMirror.available_names entries) n = true
      ↔ Spec.satisfied entries n)
     ∧ (Spec.satisfied entries n →
        VerifyMirror.check_line (VerifyMirror.available_names entries)
          (missing, checked) line
        = (missing, S checked))
     ∧ (¬ Spec.satisfied entries n →
        VerifyMirror.check_line (VerifyMirror.available_names entries)
          (missing, checked) line
        = (missing ++ [Py.strip line], S checked)))
  ∧ VerifyMirror.verify
      (λ _, Some "PKG-Name==1.0.0")
      (λ _, Some [ {| Fs.d_name := "pkg_name-1.0.0-py3-none-any.whl";
                      Fs.d_kind := Fs.Regular [] |} ])
      "requirements.txt" "packages/all"
    = VerifyMirror.Returned ["All 1 packages present in mirror."]
  ∧ VerifyMirror.verify
      (λ _, Some "foo==1.0")
      (λ _, Some [ {| Fs.d_name := "foobar-1.0.tar.gz";
                      Fs.d_kind := Fs.Regular [] |} ])
      "requirements.txt" "packages/all"
    = VerifyMirror.Exited 1 ["MISSING 1/1 packages:"; "  - foo==1.0"].
Proof.
  split; [|split; by vm_compute].
  intros entries line n missing checked Hn.
  pose proof (found_satisfied entries n (requirement_name_normalized _ _ Hn)) as Hiff.
  split; [done|]. rewrite check_line_cases, Hn.
  split; intros Hsat.
  - apply Hiff in Hsat. by rewrite Hsat.
  - destruct (VerifyMirror.found _ n); [|done]. by destruct Hsat; apply Hiff.
Qed.

Lemma requirement_satisfied_iff_witness :
  VerifyMirror.check_line (VerifyMirror.available_names [Sample.flask_login_wheel])
    ([], 0) "flask-login[extra]==0.6.3"
  = ([], 1).
Proof.
  apply (proj1 requirement_satisfied_iff [Sample.flask_login_wheel]
           "flask-login[extra]==0.6.3" "flask-login" [] 0); [reflexivity|].
  exists Sample.flask_login_wheel.
  split; [apply list_elem_of_here|]. split; [reflexivity|].
  right. left. reflexivity.
Defined.

(** C6.  When the requirements file and the directory can be read,
    [verify] ends in one of two ways, and never by an exception: it
    returns after printing that all the checked requirements are
    present, exactly when no requirement is left unsatisfied; otherwise
    it leaves through [sys.exit(1)] after printing the count of missing
    over checked and one line for each unsatisfied requirement, as
    written in the file (a line that has no white space around it is
    kept as it is), in the order of the file. *)
Theorem verify_outcome :
  (∀ read_text iterdir requirements_file packages_dir text entries,
     read_text requirements_file = Some text →
     iterdir packages_dir = Some entries →
     let reqs := Spec.requirements text in
     let missing := Spec.unsatisfied entries reqs in
     let outcome :=
       VerifyMirror.verify read_text iterdir requirements_file packages_dir in
     (missing = [] →
      outcome
      = VerifyMirror.Returned
          ["All " +:+ Py.str (length reqs) +:+ " packages present in mirror."])
     ∧ (missing ≠ [] →
        outcome
        = VerifyMirror.Exited 1
            (("MISSING " +:+ Py.str (length missing) +:+ "/"
              +:+ Py.str (length reqs) +:+ " packages:")
             :: ((λ m, "  - " +:+ m) <$> missing)))
     ∧ ((∃ stdout, outcome = VerifyMirror.Returned stdout) ↔ missing = [])
     ∧ (∀ e, outcome ≠ VerifyMirror.Raised e))
  ∧ (∀ line, Spec.no_outer_space line → Py.strip line = line).
Proof.
  split; [|apply strip_id].
  intros read_text iterdir requirements_file packages_dir text entries Htext Hdir
    reqs missing outcome.
  assert (outcome = VerifyMirror.report missing (length reqs)) as ->.
  { unfold outcome, VerifyMirror.verify. rewrite Htext, Hdir.
    by rewrite scan_lines. }
  unfold VerifyMirror.report.
  destruct missing as [|m missing']; (split; [done|]); (split; [done|]); split.
  - split; [done|by eexists].
  - done.
  - split; [by intros [? ?]|done].
  - done.
Qed.

Lemma verify_outcome_witness :
  VerifyMirror.verify
    (λ _, Some "numpy==1.0") (λ _, Some [Sample.scipy_wheel])
    "requirements.txt" "packages/all"
  = VerifyMirror.Exited 1 ["MISSING 1/1 packages:"; "  - numpy==1.0"].
Proof.
  destruct (proj1 verify_outcome
              (λ _, Some "numpy==1.0") (λ _, Some [Sample.scipy_wheel])
              "requirements.txt" "packages/all" "numpy==1.0" [Sample.scipy_wheel]
              eq_refl eq_refl) as (_ & Hmissing & _).
  rewrite Hmissing; [reflexivity|]. by vm_compute.
Defined.

(** ** The output tree *)

Section output_tree.
Import Fs.

Implicit Types t : gmap (list string) node.
Implicit Types p q base comps : list string.

Lemma bind_inv {A B} (m : io A) (k : A → io B) t t' r :
  (m ≫= k) t = (t', r) →
  (∃ e, m t = (t', Raise e) ∧ r = Raise e)
  ∨ (∃ a t1, m t = (t1, Ok a) ∧ k a t1 = (t', r)).
Proof.
  unfold mbind, io_bind. destruct (m t) as [t1 [a|e]].
  - intros H. right. by exists a, t1.
  - intros [= <- <-]. left. by exists e.
Qed.

Lemma bind_raise {A B} (m : io A) (k : A → io B) t t1 e :
  m t = (t1, Raise e) → (m ≫= k) t = (t1, Raise e).
Proof. unfold mbind, io_bind. by intros ->. Qed.

Lemma bind_ok {A B} (m : io A) (k : A → io B) t t1 a :
  m t = (t1, Ok a) → (m ≫= k) t = k a t1.
Proof. unfold mbind, io_bind. by intros ->. Qed.

Lemma mkdir_from_frame root comps base t t' r q nd :
  mkdir_from root base comps t = (t', r) →
  t !! q = Some nd → t' !! q = Some nd.
Proof.
  revert base t. induction comps as [|c comps IH]; intros base t; simpl.
  - destruct (t !! base) as [[|text]|] eqn:Hb; intros [= <- <-] Hq; try done.
    rewrite lookup_insert_ne; [done|congruence].
  - destruct (t !! base) as [[|text]|] eqn:Hb.
    + apply IH.
    + by intros [= <- <-].
    + intros H Hq. eapply IH; [done|].
      rewrite lookup_insert_ne; [done|congruence].
Qed.

Lemma mkdir_from_again root comps base t t1 t2 :
  mkdir_from root base comps t = (t1, Ok ()) →
  Aux.keeps_dirs t1 t2 →
  mkdir_from root base comps t2 = (t2, Ok ()).
Proof.
  revert base t. induction comps as [|c comps IH]; intros base t H Hdirs.
  - assert (t1 !! base = Some Dir) as Hb.
    { simpl in H. destruct (t !! base) as [[|text]|] eqn:Hb; simplify_eq; [done|].
      apply lookup_insert_eq. }
    simpl. by rewrite (Hdirs _ Hb).
  - simpl in H.
    assert (t1 !! base = Some Dir
            ∧ ∃ t', mkdir_from root (base ++ [c]) comps t' = (t1, Ok ()))
      as [Hb [t' Ht']].
    { destruct (t !! base) as [[|text]|] eqn:Hb; [| |].
      - split; [|by eexists]. by eapply mkdir_from_frame.
      - by simplify_eq.
      - split; [|by eexists]. eapply mkdir_from_frame; [done|].
        apply lookup_insert_eq. }
    simpl. rewrite (Hdirs _ Hb). by eapply IH.
Qed.

Lemma mkdir_from_ok root comps base t t' :
  mkdir_from root base comps t = (t', Ok ()) →
  t' !! (base ++ comps) = Some Dir.
Proof.
  revert base t. induction comps as [|c comps IH]; intros base t; simpl.
  - rewrite app_nil_r.
    destruct (t !! base) as [[|text]|] eqn:Hb; intros [= <-]; [done|].
    apply lookup_insert_eq.
  - rewrite (cons_middle c base comps), app_assoc.
    destruct (t !! base) as [[|text]|] eqn:Hb; [apply IH|done|apply IH].
Qed.

Lemma mkdir_p_frame root p t t' r q nd :
  mkdir_p root p t = (t', r) → t !! q = Some nd → t' !! q = Some nd.
Proof. apply mkdir_from_frame. Qed.

Lemma write_text_frame root p text t t' r q nd :
  write_text root p text t = (t', r) →
  t !! q = Some nd → q ≠ p → t' !! q = Some nd.
Proof.
  unfold write_text. intros H Hq Hne.
  destruct (t !! parent p) as [[|?]|]; [|by simplify_eq..].
  destruct (t !! p) as [[|?]|]; simplify_eq; [done|..];
    by rewrite lookup_insert_ne.
Qed.

Lemma write_text_dirs root p text t t' r :
  write_text root p text t = (t', r) → Aux.keeps_dirs t t'.
Proof.
  unfold write_text. intros H q Hq.
  destruct (t !! parent p) as [[|?]|]; [|by simplify_eq..].
  destruct (t !! p) as [[|?]|] eqn:Hp; simplify_eq; [done|..];
    (rewrite lookup_insert_ne; [done|congruence]).
Qed.

Lemma write_text_ok root p text t t' :
  write_text root p text t = (t', Ok ()) → t' !! p = Some (File text).
Proof.
  unfold write_text. intros H.
  destruct (t !! parent p) as [[|?]|]; [|by simplify_eq..].
  destruct (t !! p) as [[|?]|]; simplify_eq; apply lookup_insert_eq.
Qed.

Lemma write_text_again root p text t2 :
  t2 !! parent p = Some Dir → t2 !! p = Some (File text) →
  write_text root p text t2 = (t2, Ok ()).
Proof.
  unfold write_text. intros -> Hp. rewrite Hp. by rewrite insert_id.
Qed.

Lemma write_text_parent root p text t t' :
  write_text root p text t = (t', Ok ()) → t !! parent p = Some Dir.
Proof.
  unfold write_text. intros H.
  by destruct (t !! parent p) as [[|?]|]; [|by simplify_eq..].
Qed.

Lemma keeps_dirs_refl t : Aux.keeps_dirs t t.
Proof. by intros q. Qed.

Lemma keeps_dirs_trans t1 t2 t3 :
  Aux.keeps_dirs t1 t2 → Aux.keeps_dirs t2 t3 → Aux.keeps_dirs t1 t3.
Proof. intros H1 H2 q Hq. auto. Qed.

Lemma mkdir_p_dirs root p t t' r : mkdir_p root p t = (t', r) → Aux.keeps_dirs t t'.
Proof. intros H q Hq. by eapply mkdir_from_frame. Qed.

End output_tree.

(** ** The loop over the packages *)

Section package_loop.
Import Fs.

Implicit Types t : gmap (list string) node.
Implicit Types item : string * list (string * string).

Lemma page_path_parent sd n : parent ((sd ++ [n]) ++ ["index.html"]) = sd ++ [n].
Proof. unfold parent. apply removelast_last. Qed.

Lemma page_path_inj sd n n' :
  (sd ++ [n]) ++ ["index.html"] = (sd ++ [n']) ++ ["index.html"] → n = n'.
Proof. intros H. apply app_inj_tail in H as [H _]. by apply app_inj_tail in H as [_ H]. Qed.

Lemma page_path_not_root sd n :
  (sd ++ [n]) ++ ["index.html"] ≠ sd ++ ["index.html"].
Proof. intros H. apply (f_equal length) in H. rewrite !length_app in H. simpl in H. lia. Qed.

Lemma emit_package_inv ip sd n files t t' r :
  GenerateIndex.emit_package ip sd (n, files) t = (t', r) →
  (∃ e, mkdir_p ip (sd ++ [n]) t = (t', Raise e) ∧ r = Raise e)
  ∨ (∃ t1, mkdir_p ip (sd ++ [n]) t = (t1, Ok ())
           ∧ write_text ip ((sd ++ [n]) ++ ["index.html"])
               (GenerateIndex.package_page n (GenerateIndex.file_link <$> files)) t1
             = (t', r)).
Proof.
  unfold GenerateIndex.emit_package.
  intros [(e & ? & ?)|([] & t1 & ? & ?)]%bind_inv; [left|right]; by eexists.
Qed.

Lemma emit_package_frame ip sd item t t' r q nd :
  GenerateIndex.emit_package ip sd item t = (t', r) →
  t !! q = Some nd → q ≠ (sd ++ [item.1]) ++ ["index.html"] → t' !! q = Some nd.
Proof.
  destruct item as [n files].
  intros [(e & H & _)|(t1 & H1 & H2)]%emit_package_inv Hq Hne.
  - by eapply mkdir_p_frame.
  - eapply write_text_frame; [done| |done]. by eapply mkdir_p_frame.
Qed.

Lemma emit_package_dirs ip sd item t t' r :
  GenerateIndex.emit_package ip sd item t = (t', r) → Aux.keeps_dirs t t'.
Proof.
  destruct item as [n files].
  intros [(e & H & _)|(t1 & H1 & H2)]%emit_package_inv.
  - by eapply mkdir_p_dirs.
  - eapply keeps_dirs_trans; [by eapply mkdir_p_dirs|by eapply write_text_dirs].
Qed.

Lemma emit_package_ok ip sd n files t t' :
  GenerateIndex.emit_package ip sd (n, files) t = (t', Ok ()) →
  t' !! ((sd ++ [n]) ++ ["index.html"])
  = Some (File (GenerateIndex.package_page n (GenerateIndex.file_link <$> files))).
Proof.
  intros [(e & _ & [=])|(t1 & H1 & H2)]%emit_package_inv.
  by eapply write_text_ok.
Qed.

Lemma emit_package_again ip sd n files t t1 t2 :
  GenerateIndex.emit_package ip sd (n, files) t = (t1, Ok ()) →
  Aux.keeps_dirs t1 t2 →
  t2 !! ((sd ++ [n]) ++ ["index.html"])
  = Some (File (GenerateIndex.package_page n (GenerateIndex.file_link <$> files))) →
  GenerateIndex.emit_package ip sd (n, files) t2 = (t2, Ok ()).
Proof.
  intros [(e & _ & [=])|(ta & H1 & H2)]%emit_package_inv Hdirs Hpage.
  unfold GenerateIndex.emit_package.
  assert (Aux.keeps_dirs ta t2) as Hta
    by (eapply keeps_dirs_trans; [by eapply write_text_dirs|done]).
  rewrite (bind_ok _ _ t2 t2 ()) by (by eapply mkdir_from_again).
  apply write_text_again; [|done].
  rewrite page_path_parent. apply Hta. by apply mkdir_from_ok in H1.
Qed.

Lemma for_each_nil_inv {A} (body : A → io unit) t t' r :
  for_each [] body t = (t', r) → t' = t ∧ r = Ok ().
Proof. by intros [= <- <-]. Qed.

Lemma for_each_cons_inv {A} (x : A) l body t t' r :
  for_each (x :: l) body t = (t', r) →
  (∃ e, body x t = (t', Raise e) ∧ r = Raise e)
  ∨ (∃ t1, body x t = (t1, Ok ()) ∧ for_each l body t1 = (t', r)).
Proof.
  simpl. intros [(e & ? & ?)|([] & t1 & ? & ?)]%bind_inv; [left|right]; by eexists.
Qed.

Lemma loop_frame ip sd l t t' r q nd :
  for_each l (GenerateIndex.emit_package ip sd) t = (t', r) →
  t !! q = Some nd →
  (∀ n, n ∈ l.*1 → q ≠ (sd ++ [n]) ++ ["index.html"]) →
  t' !! q = Some nd.
Proof.
  revert t. induction l as [|item l IH]; intros t H Hq Hne.
  { by apply for_each_nil_inv in H as [-> _]. }
  apply for_each_cons_inv in H as [(e & H & _)|(t1 & H1 & H2)].
  - eapply emit_package_frame; [done..|]. apply Hne. simpl. left.
  - eapply IH; [done| |].
    + eapply emit_package_frame; [done..|]. apply Hne. simpl. left.
    + intros n Hn. apply Hne. simpl. by right.
Qed.

Lemma loop_dirs ip sd l t t' r :
  for_each l (GenerateIndex.emit_package ip sd) t = (t', r) → Aux.keeps_dirs t t'.
Proof.
  revert t. induction l as [|item l IH]; intros t H.
  { apply for_each_nil_inv in H as [-> _]. apply keeps_dirs_refl. }
  apply for_each_cons_inv in H as [(e & H & _)|(t1 & H1 & H2)].
  - by eapply emit_package_dirs.
  - eapply keeps_dirs_trans; [by eapply emit_package_dirs|by eapply IH].
Qed.

Lemma loop_pages ip sd l t t' n files :
  for_each l (GenerateIndex.emit_package ip sd) t = (t', Ok ()) →
  NoDup l.*1 → (n, files) ∈ l →
  t' !! ((sd ++ [n]) ++ ["index.html"])
  = Some (File (GenerateIndex.package_page n (GenerateIndex.file_link <$> files))).
Proof.
  revert t. induction l as [|item l IH]; intros t H Hnd Hin.
  { by apply elem_of_nil in Hin. }
  apply for_each_cons_inv in H as [(e & _ & [=])|(t1 & H1 & H2)].
  apply NoDup_cons in Hnd as [Hfresh Hnd].
  apply elem_of_cons in Hin as [<-|Hin]; [|by eapply IH].
  eapply loop_frame; [done|by eapply emit_package_ok|].
  intros n' Hn' Heq. apply page_path_inj in Heq as <-. done.
Qed.

End package_loop.

(** ** Files are never removed *)

Section files_persist.
Import Fs.

Implicit Types t : gmap (list string) node.

Lemma keeps_files_refl t : Aux.keeps_files t t.
Proof. intros q text Hq. by eexists. Qed.

Lemma keeps_files_trans t1 t2 t3 :
  Aux.keeps_files t1 t2 → Aux.keeps_files t2 t3 → Aux.keeps_files t1 t3.
Proof. intros H1 H2 q text Hq. apply H1 in Hq as [text' Hq]. by eapply H2. Qed.

Lemma mkdir_p_files root p t t' r : mkdir_p root p t = (t', r) → Aux.keeps_files t t'.
Proof. intros H q text Hq. exists text. by eapply mkdir_from_frame. Qed.

Lemma write_text_files root p text t t' r :
  write_text root p text t = (t', r) → Aux.keeps_files t t'.
Proof.
  intros H q old Hq. destruct (decide (q = p)) as [->|Hne].
  - unfold write_text in H.
    destruct (t !! parent p) as [[|?]|]; [|simplify_eq; by eexists..].
    rewrite Hq in H. simplify_eq. eexists. apply lookup_insert_eq.
  - exists old. by eapply write_text_frame.
Qed.

Lemma emit_package_files ip sd item t t' r :
  GenerateIndex.emit_package ip sd item t = (t', r) → Aux.keeps_files t t'.
Proof.
  destruct item as [n files].
  intros [(e & H & _)|(t1 & H1 & H2)]%emit_package_inv.
  - by eapply mkdir_p_files.
  - eapply keeps_files_trans; [by eapply mkdir_p_files|by eapply write_text_files].
Qed.

Lemma loop_files ip sd l t t' r :
  for_each l (GenerateIndex.emit_package ip sd) t = (t', r) → Aux.keeps_files t t'.
Proof.
  revert t. induction l as [|item l IH]; intros t H.
  { apply for_each_nil_inv in H as [-> _]. apply keeps_files_refl. }
  apply for_each_cons_inv in H as [(e & H & _)|(t1 & H1 & H2)].
  - by eapply emit_package_files.
  - eapply keeps_files_trans; [by eapply emit_package_files|by eapply IH].
Qed.

End files_persist.

(** ** Sorting the listing and the dictionary *)

Section sorting.
Import Fs.

Global Instance name_le_trans : Transitive name_le.
Proof. intros f g h. unfold name_le. apply transitivity. Qed.

Global Instance name_le_total : Total name_le.
Proof. intros f g. unfold name_le. apply total, _. Qed.

Global Instance item_le_trans : Transitive GenerateIndex.item_le.
Proof. intros x y z. unfold GenerateIndex.item_le. apply transitivity. Qed.

Global Instance item_le_total : Total GenerateIndex.item_le.
Proof. intros x y. unfold GenerateIndex.item_le. apply total, _. Qed.

Lemma NoDup_fmap_eq {A B} (f : A → B) (l : list A) x y :
  NoDup (f <$> l) → x ∈ l → y ∈ l → f x = f y → x = y.
Proof.
  induction l as [|a l IH]; [by intros _ ?%elem_of_nil|].
  rewrite fmap_cons, NoDup_cons, !elem_of_cons.
  intros [Ha Hl] [->|Hx] [->|Hy] Hxy; [done| | |by apply IH].
  - destruct Ha. rewrite Hxy. by apply list_elem_of_fmap_2.
  - destruct Ha. rewrite <-Hxy. by apply list_elem_of_fmap_2.
Qed.

(** The listing is sorted by name, and names are unique in a directory:
    the order in which [iterdir] yields the entries does not matter. *)
Lemma sorted_listing_unique (entries entries' : list dirent) :
  NoDup (d_name <$> entries) → entries ≡ₚ entries' →
  merge_sort name_le entries = merge_sort name_le entries'.
Proof.
  intros Hnd Hperm.
  apply (Sorted_unique_strong name_le).
  - intros x1 x2 Hx1 Hx2 H12 H21.
    rewrite merge_sort_Permutation in Hx1, Hx2. rewrite <-Hperm in Hx2.
    apply (NoDup_fmap_eq d_name entries); [done..|].
    by apply (anti_symm String.le).
  - apply Sorted_merge_sort, _.
  - apply Sorted_merge_sort, _.
  - by rewrite !merge_sort_Permutation.
Qed.

Lemma sorted_keys_elem (pf : gmap string (list (string * string))) n :
  n ∈ GenerateIndex.sorted_keys pf ↔ is_Some (pf !! n).
Proof.
  unfold GenerateIndex.sorted_keys. rewrite merge_sort_Permutation.
  rewrite list_elem_of_fmap. split.
  - intros ([k v] & -> & Hkv). apply elem_of_map_to_list in Hkv. by eexists.
  - intros [v Hv]. exists (n, v). split; [done|]. by apply elem_of_map_to_list.
Qed.

Lemma sorted_keys_nodup (pf : gmap string (list (string * string))) :
  NoDup (GenerateIndex.sorted_keys pf).
Proof.
  unfold GenerateIndex.sorted_keys. rewrite merge_sort_Permutation.
  apply NoDup_fst_map_to_list.
Qed.

Lemma sorted_keys_sorted (pf : gmap string (list (string * string))) :
  Sorted String.le (GenerateIndex.sorted_keys pf).
Proof. apply Sorted_merge_sort, _. Qed.

Lemma sorted_items_elem (pf : gmap string (list (string * string))) n files :
  (n, files) ∈ GenerateIndex.sorted_items pf ↔ pf !! n = Some files.
Proof.
  unfold GenerateIndex.sorted_items. rewrite merge_sort_Permutation.
  apply elem_of_map_to_list.
Qed.

Lemma sorted_items_nodup (pf : gmap string (list (string * string))) :
  NoDup (GenerateIndex.sorted_items pf).*1.
Proof.
  unfold GenerateIndex.sorted_items. rewrite merge_sort_Permutation.
  apply NoDup_fst_map_to_list.
Qed.

Lemma sorted_items_keys (pf : gmap string (list (string * string))) n :
  n ∈ (GenerateIndex.sorted_items pf).*1 ↔ is_Some (pf !! n).
Proof.
  rewrite list_elem_of_fmap. split.
  - intros ([k v] & -> & Hkv). apply sorted_items_elem in Hkv. by eexists.
  - intros [v Hv]. exists (n, v). split; [done|]. by apply sorted_items_elem.
Qed.

End sorting.

(** ** The first loop of the index builder *)

Section first_loop.
Import Fs.

Implicit Types m : gmap string (list (string * string)).

Lemma truthy_nonempty s : Py.truthy s = true ↔ s ≠ "".
Proof. by destruct s. Qed.

Lemma scan_entry_cases m f :
  (∃ k, Spec.retained f k
        ∧ GenerateIndex.scan_entry m f
          = GenerateIndex.dict_append m k
              (d_name f, GenerateIndex.sha256_file (content f)))
  ∨ ((∀ k, ¬ Spec.retained f k) ∧ GenerateIndex.scan_entry m f = m).
Proof.
  unfold GenerateIndex.scan_entry, Spec.retained.
  destruct (is_file f); simpl; [|right; split; [by intros k [? _]|done]].
  destruct (GenerateIndex.extract_package_name (d_name f)) as [k|];
    [|right; split; [by intros k (_ & ? & _)|done]].
  destruct (Py.truthy k) eqn:Hk.
  - left. exists k. by rewrite <-truthy_nonempty.
  - right. split; [|done]. intros k' (_ & [= <-] & Hk').
    apply truthy_nonempty in Hk'. congruence.
Qed.

Lemma retained_unique f k k' : Spec.retained f k → Spec.retained f k' → k = k'.
Proof. intros (_ & H & _) (_ & H' & _). congruence. Qed.

Lemma collect_keys l m n :
  is_Some (foldl GenerateIndex.scan_entry m l !! n)
  ↔ is_Some (m !! n) ∨ ∃ f, f ∈ l ∧ Spec.retained f n.
Proof.
  revert m. induction l as [|f l IH]; intros m; simpl.
  { split; [by left|]. intros [?|(f & ?%elem_of_nil & _)]; done. }
  rewrite IH. clear IH.
  destruct (scan_entry_cases m f) as [(k & Hk & ->)|[Hno ->]].
  - unfold GenerateIndex.dict_append. rewrite lookup_insert.
    destruct (decide (k = n)) as [->|Hne].
    + split; [|by eauto].
      intros _. right. exists f. split; [left|done].
    + split.
      * intros [?|(g & Hg & Hr)]; [by left|]. right. exists g. split; [by right|done].
      * intros [?|(g & [->|Hg]%elem_of_cons & Hr)]; [by left| |by eauto].
        destruct Hne. by eapply retained_unique.
  - split.
    + intros [?|(g & Hg & Hr)]; [by left|]. right. exists g. split; [by right|done].
    + intros [?|(g & [->|Hg]%elem_of_cons & Hr)]; [by left| |by eauto].
      by destruct (Hno n).
Qed.

Lemma collect_items l m n f :
  f ∈ l → Spec.retained f n →
  ∃ files, foldl GenerateIndex.scan_entry m l !! n = Some files
           ∧ (d_name f, GenerateIndex.sha256_file (content f)) ∈ files.
Proof.
  assert (∀ l m item files,
            m !! n = Some files → item ∈ files →
            ∃ files', foldl GenerateIndex.scan_entry m l !! n = Some files'
                      ∧ item ∈ files') as Hkeep.
  { clear. induction l as [|g l IH]; intros m item files Hm Hitem; [by eauto|].
    simpl. destruct (scan_entry_cases m g) as [(k & Hk & ->)|[Hno ->]]; [|by eauto].
    unfold GenerateIndex.dict_append.
    destruct (decide (k = n)) as [->|Hne].
    - eapply IH; [apply lookup_insert_eq|].
      rewrite Hm. simpl. apply elem_of_app. by left.
    - eapply IH; [|done]. by rewrite lookup_insert_ne. }
  revert m. induction l as [|g l IH]; intros m Hin Hr.
  { by apply elem_of_nil in Hin. }
  simpl. apply elem_of_cons in Hin as [<-|Hin]; [|by apply IH].
  destruct (scan_entry_cases m f) as [(k & Hk & ->)|[Hno ->]];
    [|by destruct (Hno n)].
  rewrite (retained_unique _ _ _ Hk Hr).
  eapply Hkeep; [apply lookup_insert_eq|].
  apply elem_of_app. right. left.
Qed.

Lemma collect_keys_entries entries n :
  is_Some (Aux.collect entries !! n) ↔ ∃ f, f ∈ entries ∧ Spec.retained f n.
Proof.
  unfold Aux.collect. rewrite collect_keys, lookup_empty.
  setoid_rewrite merge_sort_Permutation. split; [|by right].
  by intros [[? [=]]|?].
Qed.

End first_loop.

(** ** Hashing a file *)

Section hashing.
Import Fs.

Lemma update_app h a b :
  Hashlib.update (Hashlib.update h a) b = Hashlib.update h (a ++ b).
Proof. unfold Hashlib.update. by rewrite foldl_app. Qed.

Lemma chunk_size_pos : GenerateIndex.chunk_size = S (pred GenerateIndex.chunk_size).
Proof. by vm_compute. Qed.

(** Feeding the chunks one after the other feeds the whole content. *)
Lemma read_chunks_update h f : GenerateIndex.read_chunks h f = Hashlib.update h f.
Proof.
  funelim (GenerateIndex.read_chunks h f).
  - destruct f as [|b f]; [done|].
    match goal with H : take _ _ = [] |- _ => rewrite chunk_size_pos in H; done end.
  - match goal with
    | IH : GenerateIndex.read_chunks _ _ = Hashlib.update _ _,
      Hread : take _ _ = _ :: _ |- _ =>
        rewrite IH, <-Hread, update_app, take_drop; done
    end.
Qed.

Lemma sha256_file_whole content :
  GenerateIndex.sha256_file content
  = Hashlib.hexdigest (Hashlib.update Hashlib.new content).
Proof. unfold GenerateIndex.sha256_file. by rewrite read_chunks_update. Qed.

Lemma file_link_artifact filename content :
  GenerateIndex.file_link (filename, GenerateIndex.sha256_file content)
  = Spec.artifact_link filename content.
Proof.
  unfold GenerateIndex.file_link, GenerateIndex.file_href, Spec.artifact_link.
  rewrite sha256_file_whole.
  by rewrite !string_app_assoc.
Qed.

End hashing.

(** ** The whole run of the index builder *)

Section whole_run.
Import Fs.

Implicit Types t : gmap (list string) node.
Implicit Types pf : gmap string (list (string * string)).

Lemma generate_index_some pp ip entries :
  GenerateIndex.generate_index pp ip (Some entries)
  = Aux.emit ip (Aux.collect entries).
Proof. done. Qed.

Lemma generate_index_none pp ip t :
  GenerateIndex.generate_index pp ip None t = (t, Raise (FileNotFoundError pp)).
Proof. done. Qed.

(** The steps of the second half, one after the other *)
Lemma emit_inv ip pf t t' r :
  Aux.emit ip pf t = (t', r) →
  ∃ t1 r1, mkdir_p ip ["simple"] t = (t1, r1) ∧
    match r1 with
    | Raise e => t' = t1 ∧ r = Raise e
    | Ok _ =>
        ∃ t2 r2,
          write_text ip Spec.root_page_path
            (GenerateIndex.root_page
               (GenerateIndex.root_link <$> GenerateIndex.sorted_keys pf)) t1
          = (t2, r2) ∧
          match r2 with
          | Raise e => t' = t2 ∧ r = Raise e
          | Ok _ =>
              ∃ r3,
                for_each (GenerateIndex.sorted_items pf)
                         (GenerateIndex.emit_package ip ["simple"]) t2
                = (t', r3) ∧
                match r3 with
                | Raise e => r = Raise e
                | Ok _ => r = Ok (Aux.summary pf)
                end
          end
    end.
Proof.
  unfold Aux.emit.
  intros [(e & H1 & ->)|([] & t1 & H1 & H)]%bind_inv;
    [by exists t', (Raise e)|].
  exists t1, (Ok ()). split; [done|].
  apply bind_inv in H as [(e & H2 & ->)|([] & t2 & H2 & H)];
    [by exists t', (Raise e)|].
  exists t2, (Ok ()). split; [done|].
  apply bind_inv in H as [(e & H3 & ->)|([] & t3 & H3 & H)];
    [by exists (Raise e)|].
  exists (Ok ()). by injection H as <- <-.
Qed.

Lemma emit_frame ip pf t t' r q nd :
  Aux.emit ip pf t = (t', r) →
  t !! q = Some nd →
  q ≠ Spec.root_page_path →
  (∀ n, is_Some (pf !! n) → q ≠ Spec.package_page_path n) →
  t' !! q = Some nd.
Proof.
  intros (t1 & r1 & H1 & H)%emit_inv Hq Hroot Hpages.
  pose proof (mkdir_p_frame _ _ _ _ _ _ _ H1 Hq) as Hq1.
  destruct r1 as [[]|e]; [|by destruct H as [-> _]].
  destruct H as (t2 & r2 & H2 & H).
  pose proof (write_text_frame _ _ _ _ _ _ _ _ H2 Hq1 Hroot) as Hq2.
  destruct r2 as [[]|e]; [|by destruct H as [-> _]].
  destruct H as (r3 & H3 & _).
  eapply loop_frame; [done..|].
  intros n Hn. apply (Hpages n). by apply sorted_items_keys.
Qed.

Lemma emit_dirs ip pf t t' r : Aux.emit ip pf t = (t', r) → Aux.keeps_dirs t t'.
Proof.
  intros (t1 & r1 & H1 & H)%emit_inv.
  pose proof (mkdir_p_dirs _ _ _ _ _ H1) as Hd1.
  destruct r1 as [[]|e]; [|by destruct H as [-> _]].
  destruct H as (t2 & r2 & H2 & H).
  pose proof (write_text_dirs _ _ _ _ _ _ H2) as Hd2.
  destruct r2 as [[]|e]; [|destruct H as [-> _]; by eapply keeps_dirs_trans].
  destruct H as (r3 & H3 & _).
  eapply keeps_dirs_trans; [done|].
  eapply keeps_dirs_trans; [done|by eapply loop_dirs].
Qed.

Lemma emit_ok ip pf t t' out :
  Aux.emit ip pf t = (t', Ok out) →
  t' !! Spec.root_page_path
  = Some (File (GenerateIndex.root_page
                  (GenerateIndex.root_link <$> GenerateIndex.sorted_keys pf)))
  ∧ (∀ n files, pf !! n = Some files →
       t' !! Spec.package_page_path n
       = Some (File (GenerateIndex.package_page n
                       (GenerateIndex.file_link <$> files)))).
Proof.
  intros (t1 & r1 & H1 & H)%emit_inv.
  destruct r1 as [[]|e]; [|by destruct H as [_ [=]]].
  destruct H as (t2 & r2 & H2 & H).
  destruct r2 as [[]|e]; [|by destruct H as [_ [=]]].
  destruct H as (r3 & H3 & H). destruct r3 as [[]|e]; [|done].
  split.
  - eapply loop_frame; [done|by eapply write_text_ok|].
    intros n _. symmetry. apply (page_path_not_root ["simple"]).
  - intros n files Hn.
    apply (loop_pages ip ["simple"] _ _ _ n files H3).
    + apply sorted_items_nodup.
    + by apply sorted_items_elem.
Qed.

Lemma emit_files ip pf t t' r : Aux.emit ip pf t = (t', r) → Aux.keeps_files t t'.
Proof.
  intros (t1 & r1 & H1 & H)%emit_inv.
  pose proof (mkdir_p_files _ _ _ _ _ H1) as Hd1.
  destruct r1 as [[]|e]; [|by destruct H as [-> _]].
  destruct H as (t2 & r2 & H2 & H).
  pose proof (write_text_files _ _ _ _ _ _ H2) as Hd2.
  destruct r2 as [[]|e]; [|destruct H as [-> _]; by eapply keeps_files_trans].
  destruct H as (r3 & H3 & _).
  eapply keeps_files_trans; [done|].
  eapply keeps_files_trans; [done|by eapply loop_files].
Qed.

End whole_run.

(** ** A second run *)

Section second_run.
Import Fs.

Implicit Types t : gmap (list string) node.
Implicit Types pf : gmap string (list (string * string)).

(** A step that found its work done, or its way barred, finds the same
    on a tree that kept the directories and the files. *)
Lemma mkdir_from_again_any root comps base t t1 r t2 :
  mkdir_from root base comps t = (t1, r) →
  Aux.keeps_dirs t1 t2 → Aux.keeps_files t1 t2 →
  mkdir_from root base comps t2 = (t2, r).
Proof.
  revert base t. induction comps as [|c comps IH]; intros base t H Hdirs Hfiles.
  - simpl in H. simpl.
    destruct (t !! base) as [[|text]|] eqn:Hb; simplify_eq.
    + by rewrite (Hdirs _ Hb).
    + by destruct (Hfiles _ _ Hb) as [text' ->].
    + by rewrite (Hdirs base) by apply lookup_insert_eq.
  - simpl in H. simpl.
    destruct (t !! base) as [[|text]|] eqn:Hb.
    + rewrite (Hdirs base) by (by eapply mkdir_from_frame). by eapply IH.
    + simplify_eq. by destruct (Hfiles _ _ Hb) as [text' ->].
    + rewrite (Hdirs base)
        by (eapply mkdir_from_frame; [done|apply lookup_insert_eq]).
      by eapply IH.
Qed.

Lemma write_text_raise root p text t t1 e :
  write_text root p text t = (t1, Raise e) → t1 = t.
Proof.
  unfold write_text. intros H.
  destruct (t !! parent p) as [[|?]|]; [|by simplify_eq..].
  by destruct (t !! p) as [[|?]|]; simplify_eq.
Qed.

Lemma emit_package_again_any ip sd n files t t1 r :
  GenerateIndex.emit_package ip sd (n, files) t = (t1, r) →
  GenerateIndex.emit_package ip sd (n, files) t1 = (t1, r).
Proof.
  intros H. destruct r as [[]|e].
  { eapply emit_package_again;
      [done|apply keeps_dirs_refl|by eapply emit_package_ok]. }
  apply emit_package_inv in H as [(e' & H & [= ->])|(ta & H1 & H2)].
  - unfold GenerateIndex.emit_package. apply bind_raise.
    eapply mkdir_from_again_any;
      [done|apply keeps_dirs_refl|apply keeps_files_refl].
  - pose proof (write_text_raise _ _ _ _ _ _ H2) as ->.
    unfold GenerateIndex.emit_package.
    rewrite (bind_ok _ _ ta ta ()); [done|].
    eapply mkdir_from_again; [done|apply keeps_dirs_refl].
Qed.

Lemma loop_again_any ip sd l t t1 r :
  for_each l (GenerateIndex.emit_package ip sd) t = (t1, r) →
  NoDup l.*1 →
  for_each l (GenerateIndex.emit_package ip sd) t1 = (t1, r).
Proof.
  revert t. induction l as [|[n files] l IH]; intros t H Hnd.
  { by apply for_each_nil_inv in H as [-> ->]. }
  apply NoDup_cons in Hnd as [Hfresh Hnd].
  apply for_each_cons_inv in H as [(e & H & ->)|(ta & H1 & H2)].
  - simpl. apply bind_raise. by eapply emit_package_again_any.
  - simpl. rewrite (bind_ok _ _ t1 t1 ()); [by eapply IH|].
    eapply emit_package_again; [done|by eapply loop_dirs|].
    eapply loop_frame; [done|by eapply emit_package_ok|].
    intros n' Hn' Heq. apply page_path_inj in Heq as <-. done.
Qed.

Lemma emit_again_any ip pf t t1 r :
  Aux.emit ip pf t = (t1, r) → Aux.emit ip pf t1 = (t1, r).
Proof.
  intros (ta & r1 & H1 & H)%emit_inv. unfold Aux.emit.
  destruct r1 as [[]|e].
  2:{ destruct H as [-> ->]. apply bind_raise.
      eapply mkdir_from_again_any;
        [done|apply keeps_dirs_refl|apply keeps_files_refl]. }
  destruct H as (tb & r2 & H2 & H). destruct r2 as [[]|e].
  2:{ destruct H as [-> ->]. pose proof (write_text_raise _ _ _ _ _ _ H2) as ->.
      rewrite (bind_ok _ _ ta ta ())
        by (eapply mkdir_from_again; [done|apply keeps_dirs_refl]).
      by apply bind_raise. }
  destruct H as (r3 & H3 & H).
  assert (Aux.keeps_dirs tb t1) as Hb by (by eapply loop_dirs).
  assert (Aux.keeps_dirs ta t1) as Ha
    by (eapply keeps_dirs_trans; [by eapply write_text_dirs|done]).
  rewrite (bind_ok _ _ t1 t1 ()) by (by eapply mkdir_from_again).
  rewrite (bind_ok _ _ t1 t1 ()).
  - apply loop_again_any in H3; [|apply sorted_items_nodup].
    destruct r3 as [[]|e]; subst.
    + by rewrite (bind_ok _ _ t1 t1 ()).
    + by apply bind_raise.
  - apply write_text_again.
    + apply Ha. by apply write_text_parent in H2.
    + eapply loop_frame; [done|by eapply write_text_ok|].
      intros n _. symmetry. apply (page_path_not_root ["simple"]).
Qed.

End second_run.

(** ** The text of the pages *)

Section page_text.

Lemma startswith_app_l a b x :
  Py.startswith a x = true → Py.startswith (a +:+ b) x = true.
Proof.
  revert a. induction x as [|c x IH]; intros a; [intros _; apply startswith_empty|].
  destruct a as [|d a]; [done|]. rewrite app_cons. simpl.
  intros [-> Hx]%andb_true_iff. simpl. by apply IH.
Qed.

Lemma occurs_in_start x hay : Py.startswith hay x = true → Spec.occurs_in x hay = true.
Proof. destruct hay; simpl; by intros ->. Qed.

Lemma occurs_in_refl x : Spec.occurs_in x x = true.
Proof.
  apply occurs_in_start. induction x as [|c x IH]; [done|].
  simpl. by rewrite Ascii.eqb_refl.
Qed.

Lemma occurs_in_app_r x a b :
  Spec.occurs_in x b = true → Spec.occurs_in x (a +:+ b) = true.
Proof.
  intros Hb. induction a as [|c a IH]; [done|].
  rewrite app_cons. simpl. by rewrite IH, orb_true_r.
Qed.

Lemma occurs_in_app_l x a b :
  Spec.occurs_in x a = true → Spec.occurs_in x (a +:+ b) = true.
Proof.
  induction a as [|c a IH].
  - destruct x; [|done]. intros _. rewrite app_empty.
    apply occurs_in_start, startswith_empty.
  - intros Hx.
    assert (Py.startswith (String c a) x = true ∨ Spec.occurs_in x a = true)
      as [H|H] by apply orb_true_iff, Hx.
    + apply occurs_in_start. by apply startswith_app_l.
    + rewrite app_cons. simpl. by rewrite IH, orb_true_r.
Qed.

Lemma occurs_in_join x sep l :
  x ∈ l → Spec.occurs_in x (Py.join sep l) = true.
Proof.
  induction l as [|y l IH]; [by intros ?%elem_of_nil|].
  intros Hx. destruct l as [|z l].
  - apply list_elem_of_singleton in Hx as ->. apply occurs_in_refl.
  - change (Py.join sep (y :: z :: l)) with (y +:+ sep +:+ Py.join sep (z :: l)).
    apply elem_of_cons in Hx as [->|Hx].
    + apply occurs_in_app_l, occurs_in_refl.
    + by apply occurs_in_app_r, occurs_in_app_r, IH.
Qed.

(** A line of a page occurs in its text *)
Lemma root_page_occurs links link :
  link ∈ links → Spec.occurs_in link (GenerateIndex.root_page links) = true.
Proof.
  intros H. unfold GenerateIndex.root_page.
  do 15 apply occurs_in_app_r. by apply occurs_in_app_l, occurs_in_join.
Qed.

Lemma package_page_occurs n links link :
  link ∈ links → Spec.occurs_in link (GenerateIndex.package_page n links) = true.
Proof.
  intros H. unfold GenerateIndex.package_page.
  do 17 apply occurs_in_app_r. by apply occurs_in_app_l, occurs_in_join.
Qed.

End page_text.

(** C8.  When the artifact directory cannot be listed, the index
    builder raises the exception that names the directory and leaves the
    output tree as it found it; when the requirements file or the
    directory is missing, the verifier raises the exception that names
    the missing path, without a report. *)
Theorem missing_input_aborts :
  (∀ packages_path index_path t,
     GenerateIndex.generate_index packages_path index_path None t
     = (t, Fs.Raise (Fs.FileNotFoundError packages_path)))
  ∧ (∀ read_text iterdir requirements_file packages_dir,
       read_text requirements_file = None →
       VerifyMirror.verify read_text iterdir requirements_file packages_dir
       = VerifyMirror.Raised (Fs.FileNotFoundError requirements_file))
  ∧ (∀ read_text iterdir requirements_file packages_dir text,
       read_text requirements_file = Some text →
       iterdir packages_dir = None →
       VerifyMirror.verify read_text iterdir requirements_file packages_dir
       = VerifyMirror.Raised (Fs.FileNotFoundError packages_dir)).
Proof.
  split; [done|]. unfold VerifyMirror.verify.
  split; [by intros ???? ->|by intros ????? -> ->].
Qed.

Lemma missing_input_aborts_witness :
  VerifyMirror.verify (λ _, None) (λ _, Some []) "requirements.txt" "packages/all"
  = VerifyMirror.Raised (Fs.FileNotFoundError "requirements.txt")
  ∧ VerifyMirror.verify (λ _, Some "six==1.16.0") (λ _, None)
      "requirements.txt" "packages/all"
    = VerifyMirror.Raised (Fs.FileNotFoundError "packages/all").
Proof.
  destruct missing_input_aborts as (_ & Hfile & Hdir). split.
  - by apply Hfile.
  - by apply (Hdir _ _ _ _ "six==1.16.0").
Defined.

(** C10.  Whatever way a run of the index builder ends, every directory
    of the output tree is still a directory and every file is still a
    file, and a file keeps its content unless it is one of the index
    pages the run rewrites.  So the page of a package under whose name
    the run retains no entry keeps the content an earlier run gave it. *)
Theorem index_builder_keeps_tree :
  ∀ packages_path index_path packages_dir t t' r,
    GenerateIndex.generate_index packages_path index_path packages_dir t = (t', r) →
    (∀ q, t !! q = Some Fs.Dir → t' !! q = Some Fs.Dir)
    ∧ (∀ q text, t !! q = Some (Fs.File text) →
         ∃ text', t' !! q = Some (Fs.File text'))
    ∧ (∀ q text, t !! q = Some (Fs.File text) →
         ¬ Spec.rewrites packages_dir q →
         t' !! q = Some (Fs.File text))
    ∧ (∀ n old,
         t !! Spec.package_page_path n = Some (Fs.File old) →
         (∀ entries f, packages_dir = Some entries → f ∈ entries →
                       ¬ Spec.retained f n) →
         t' !! Spec.package_page_path n = Some (Fs.File old)).
Proof.
  intros pp ip packages_dir t t' r Hrun.
  destruct packages_dir as [entries|];
    [|rewrite generate_index_none in Hrun; injection Hrun as <- <-;
      repeat split; by eauto].
  rewrite generate_index_some in Hrun.
  assert (∀ q text, t !! q = Some (Fs.File text) →
            ¬ Spec.rewrites (Some entries) q → t' !! q = Some (Fs.File text))
    as Hframe.
  { intros q text Hq Hnot. eapply emit_frame; [done..| |].
    - intros ->. apply Hnot. exists entries. split; [done|by left].
    - intros n Hn ->. apply Hnot. exists entries. split; [done|right].
      apply collect_keys_entries in Hn as (f & Hf & Hr). by exists n, f. }
  split; [by eapply emit_dirs|]. split; [by eapply emit_files|].
  split; [done|].
  intros n old Hq Hno. apply Hframe; [done|].
  intros (entries' & [= <-] & [Hroot|(n' & f & Hf & Hr & Heq)]).
  - discriminate Hroot.
  - injection Heq as ->. by eapply Hno.
Qed.

Lemma index_builder_keeps_tree_witness :
  (GenerateIndex.generate_index "packages/all" "index"
     (Some [Sample.six_wheel]) Sample.earlier_tree).1
    !! Spec.package_page_path "attrs"
  = Some Sample.stale_page.
Proof.
  destruct (GenerateIndex.generate_index "packages/all" "index"
              (Some [Sample.six_wheel]) Sample.earlier_tree)
    as [t' r] eqn:Hrun.
  apply (index_builder_keeps_tree _ _ _ _ _ _ Hrun).
  - reflexivity.
  - intros entries f [= <-] Hf%list_elem_of_singleton (_ & Hname & _).
    subst f. discriminate Hname.
Defined.

(** C7, as the specification states it, fails: the wheel
    [-1.0-py3-none-any.whl] is classified, under the empty name, and the
    root page of the run has no link for that name. *)
Lemma root_index_empty_name_counterexample :
  ¬ (∀ entries t' out f n,
       GenerateIndex.generate_index "packages/all" "index" (Some entries) ∅
       = (t', Fs.Ok out) →
       f ∈ entries → Fs.is_file f = true →
       GenerateIndex.extract_package_name (Fs.d_name f) = Some n →
       ∃ page, t' !! Spec.root_page_path = Some (Fs.File page)
               ∧ Spec.occurs_in (Spec.package_link n) page = true).
Proof.
  intros H.
  pose (wheel := Sample.nameless_wheel).
  destruct (GenerateIndex.generate_index "packages/all" "index" (Some [wheel]) ∅)
    as [t' r] eqn:Hrun.
  assert (r = Fs.Ok "Generated index: 0 packages, 0 files") as ->
    by (apply (f_equal snd) in Hrun; vm_compute in Hrun; congruence).
  assert (t' !! Spec.root_page_path
          = Some (Fs.File
                    (GenerateIndex.root_page []))) as Hroot
    by (apply (f_equal fst) in Hrun; simpl in Hrun; rewrite <-Hrun; by vm_compute).
  destruct (H [wheel] t' _ wheel "" Hrun) as (page & Hpage & Hlink);
    [apply list_elem_of_here|done|done|].
  rewrite Hroot in Hpage. injection Hpage as <-.
  by vm_compute in Hlink.
Qed.

(** C7, amended.  After a run that completes, the root page is the
    text below: the head of the page, then one line
    [<a href="name/">name</a>] for each name of a list, in the order of
    the list, then the end of the page.  The list is in lexicographic
    order, has no name twice, and holds exactly the names that are not
    empty and that [extract_package_name] gives to some file of the
    artifact directory; the link of each of them occurs in the page. *)
Theorem root_index_lists_packages :
  ∀ packages_path index_path entries t t' out,
    GenerateIndex.generate_index packages_path index_path (Some entries) t
    = (t', Fs.Ok out) →
    ∃ names page,
      t' !! Spec.root_page_path = Some (Fs.File page)
      ∧ page
        = "<!DOCTYPE html>" +:+ GenerateIndex.nl
          +:+ "<html><head><title>Simple Index</title><meta name="
          +:+ GenerateIndex.dq +:+ "api-version" +:+ GenerateIndex.dq
          +:+ " value=" +:+ GenerateIndex.dq +:+ "2" +:+ GenerateIndex.dq
          +:+ "/></head>" +:+ GenerateIndex.nl
          +:+ "<body>" +:+ GenerateIndex.nl
          +:+ Py.join GenerateIndex.nl
                ((λ n, "    <a href=" +:+ GenerateIndex.dq +:+ n +:+ "/"
                       +:+ GenerateIndex.dq +:+ ">" +:+ n +:+ "</a>")
                 <$> names)
          +:+ GenerateIndex.nl +:+ "</body></html>"
      ∧ (∀ n, n ∈ names → Spec.occurs_in (Spec.package_link n) page = true)
      ∧ Sorted String.le names
      ∧ NoDup names
      ∧ ∀ n, n ∈ names ↔
             n ≠ "" ∧ ∃ f, f ∈ entries ∧ Fs.is_file f = true
                          ∧ GenerateIndex.extract_package_name (Fs.d_name f)
                            = Some n.
Proof.
  intros pp ip entries t t' out Hrun. rewrite generate_index_some in Hrun.
  exists (GenerateIndex.sorted_keys (Aux.collect entries)).
  eexists. split; [by apply emit_ok in Hrun as [? _]|].
  split; [done|].
  split; [intros n Hn; by apply root_page_occurs, list_elem_of_fmap_2|].
  split; [apply sorted_keys_sorted|]. split; [apply sorted_keys_nodup|].
  intros n. rewrite sorted_keys_elem, collect_keys_entries.
  unfold Spec.retained. split.
  - intros (f & Hf & Hfile & Hname & Hn). split; [done|]. by exists f.
  - intros (Hn & f & Hf & Hfile & Hname). by exists f.
Qed.

Lemma root_index_lists_packages_witness :
  ∃ page,
    Sample.first_run.1 !! Spec.root_page_path = Some (Fs.File page)
    ∧ Spec.occurs_in (Spec.package_link "requests") page = true.
Proof.
  assert (GenerateIndex.generate_index "packages/all" "index"
            (Some [Sample.requests_sdist; Sample.requests_wheel]) ∅
          = (Sample.first_run.1, Fs.Ok "Generated index: 1 packages, 2 files"))
    as Hrun.
  { rewrite (surjective_pairing (GenerateIndex.generate_index _ _ _ _)).
    f_equal; by vm_compute. }
  destruct (root_index_lists_packages _ _ _ _ _ _ Hrun)
    as (names & page & Hpage & _ & Hlinks & _ & _ & Hnames).
  exists page. split; [done|]. apply Hlinks, Hnames. split; [done|].
  exists Sample.requests_sdist. split; [apply list_elem_of_here|].
  split; reflexivity.
Defined.

(** C4.  Reading a file by chunks of 8192 bytes and feeding each chunk
    to the hash object gives the digest of the whole content fed at
    once, for every content.  After a run that completes, the page of a
    package under whose name an entry is retained is the text below,
    the head of the page with the name and then the links line by line,
    and for that entry one of the lines, which occurs in the page, is
    the link whose target is [../../packages/], the file name,
    [#sha256=] and the SHA-256 digest of the whole content of the file,
    in hexadecimal. *)
Theorem index_links_carry_digest :
  (∀ content,
     GenerateIndex.sha256_file content
     = Hashlib.hexdigest (Hashlib.update Hashlib.new content))
  ∧ (∀ packages_path index_path entries t t' out f n,
       GenerateIndex.generate_index packages_path index_path (Some entries) t
       = (t', Fs.Ok out) →
       f ∈ entries → Spec.retained f n →
       ∃ links page,
         t' !! Spec.package_page_path n = Some (Fs.File page)
         ∧ page
           = "<!DOCTYPE html>" +:+ GenerateIndex.nl
             +:+ "<html><head><title>" +:+ n +:+ "</title><meta name="
             +:+ GenerateIndex.dq +:+ "api-version" +:+ GenerateIndex.dq
             +:+ " value=" +:+ GenerateIndex.dq +:+ "2" +:+ GenerateIndex.dq
             +:+ "/></head>" +:+ GenerateIndex.nl
             +:+ "<body>" +:+ GenerateIndex.nl
             +:+ Py.join GenerateIndex.nl links
             +:+ GenerateIndex.nl +:+ "</body></html>"
         ∧ ("    <a href=" +:+ GenerateIndex.dq +:+ "../../packages/"
            +:+ Fs.d_name f +:+ "#sha256="
            +:+ Hashlib.hexdigest (Hashlib.update Hashlib.new (Fs.content f))
            +:+ GenerateIndex.dq +:+ ">" +:+ Fs.d_name f +:+ "</a>") ∈ links
         ∧ Spec.occurs_in
             ("    <a href=" +:+ GenerateIndex.dq +:+ "../../packages/"
              +:+ Fs.d_name f +:+ "#sha256="
              +:+ Hashlib.hexdigest (Hashlib.update Hashlib.new (Fs.content f))
              +:+ GenerateIndex.dq +:+ ">" +:+ Fs.d_name f +:+ "</a>")
             page = true).
Proof.
  split; [apply sha256_file_whole|].
  intros pp ip entries t t' out f n Hrun Hf Hr.
  rewrite generate_index_some in Hrun. apply emit_ok in Hrun as [_ Hpages].
  destruct (collect_items (merge_sort Fs.name_le entries) ∅ n f)
    as (files & Hfiles & Hitem); [by rewrite merge_sort_Permutation|done|].
  assert (Spec.artifact_link (Fs.d_name f) (Fs.content f)
          ∈ GenerateIndex.file_link <$> files) as Hlink.
  { apply list_elem_of_fmap. eexists. split; [|done].
    by rewrite file_link_artifact. }
  exists (GenerateIndex.file_link <$> files). eexists.
  split; [by apply Hpages|]. split; [reflexivity|].
  split; [done|]. by apply package_page_occurs.
Qed.

Lemma index_links_carry_digest_witness :
  ∃ page,
    Sample.first_run.1 !! Spec.package_page_path "requests"
    = Some (Fs.File page)
    ∧ Spec.occurs_in
        ("    <a href=" +:+ GenerateIndex.dq
         +:+ "../../packages/requests-2.31.0-py3-none-any.whl#sha256="
         +:+ "ba7816bf8f01cfea414140de5dae2223b00361a396177a9cb410ff61f20015ad"
         +:+ GenerateIndex.dq +:+ ">requests-2.31.0-py3-none-any.whl</a>")
        page = true.
Proof.
  assert (GenerateIndex.generate_index "packages/all" "index"
            (Some [Sample.requests_sdist; Sample.requests_wheel]) ∅
          = (Sample.first_run.1, Fs.Ok "Generated index: 1 packages, 2 files"))
    as Hrun.
  { rewrite (surjective_pairing (GenerateIndex.generate_index _ _ _ _)).
    f_equal; by vm_compute. }
  destruct (proj2 index_links_carry_digest _ _ _ _ _ _
              Sample.requests_wheel "requests" Hrun)
    as (links & page & Hpage & _ & _ & Hlink);
    [apply elem_of_cons; right; apply list_elem_of_here|by repeat split|].
  exists page. split; [done|].
  by vm_compute in Hlink |- *.
Defined.

(** C5.  A second run on the same artifact directory, whatever the
    order in which the directory is listed, ends as the first run ended
    and leaves the output tree exactly as the first run left it: when
    the first run completed, the second completes, prints the same line
    and every page holds the content the first run wrote. *)
Theorem rebuild_is_idempotent :
  ∀ packages_path index_path entries entries' t t1 r,
    NoDup (Fs.d_name <$> entries) →
    entries ≡ₚ entries' →
    GenerateIndex.generate_index packages_path index_path (Some entries) t
    = (t1, r) →
    GenerateIndex.generate_index packages_path index_path (Some entries') t1
    = (t1, r).
Proof.
  intros pp ip entries entries' t t1 r Hnd Hperm Hrun.
  rewrite generate_index_some in *. unfold Aux.collect in *.
  rewrite <-(sorted_listing_unique entries entries') by done.
  by eapply emit_again_any.
Qed.

Lemma rebuild_is_idempotent_witness :
  GenerateIndex.generate_index "packages/all" "index"
    (Some [Sample.requests_wheel; Sample.requests_sdist]) Sample.first_run.1
  = (Sample.first_run.1, Fs.Ok "Generated index: 1 packages, 2 files").
Proof.
  apply (rebuild_is_idempotent _ _ [Sample.requests_sdist; Sample.requests_wheel] _ ∅).
  - simpl. apply NoDup_cons. split; [|apply NoDup_singleton].
    by intros ?%list_elem_of_singleton.
  - apply Permutation_swap.
  - rewrite (surjective_pairing (GenerateIndex.generate_index _ _ _ _)).
    f_equal; by vm_compute.
Defined.

(** * Further properties of the scripts *)

(** ** The form of normalised names *)

Section canonical_names.

Lemma lower_char_not_upper c : Py.is_upper (Py.lower_char c) = false.
Proof. by destruct c as [[] [] [] [] [] [] [] []]. Qed.

Lemma lower_char_fixed c : Py.is_upper c = false → Py.lower_char c = c.
Proof. unfold Py.lower_char. by intros ->. Qed.

Lemma is_sep_not_upper c : Re.is_sep c = true → Py.is_upper c = false.
Proof. by destruct c as [[] [] [] [] [] [] [] []]. Qed.

Lemma canonical_sub b s :
  Shape.canonical_from b (Py.lower (Re.sub_sep_runs b s)) = true.
Proof.
  revert b. induction s as [|c s IH]; intros b; [done|]. simpl.
  destruct (Re.is_sep c) eqn:Hc.
  - destruct b; [apply IH|]. simpl. by rewrite IH.
  - simpl. by rewrite lower_char_not_upper, is_sep_lower_char, Hc, IH.
Qed.

Lemma canonical_fixed b s :
  Shape.canonical_from b s = true → Py.lower (Re.sub_sep_runs b s) = s.
Proof.
  revert b. induction s as [|c s IH]; intros b; [done|]. simpl.
  intros [Hup H]%andb_true_iff. apply negb_true_iff in Hup.
  destruct (Re.is_sep c) eqn:Hc.
  - apply andb_true_iff in H as [[Hdash Hb]%andb_true_iff H].
    apply Ascii.eqb_eq in Hdash as ->. apply negb_true_iff in Hb as ->.
    simpl. by rewrite (IH true).
  - simpl. by rewrite lower_char_fixed, (IH false).
Qed.

Lemma canonical_no_char b s c :
  Shape.canonical_from b s = true →
  Re.is_sep c = true → c ≠ "-"%char → Spec.contains c s = false.
Proof.
  intros H Hc Hne. revert b H. induction s as [|a s IH]; intros b; [done|]. simpl.
  intros [_ H]%andb_true_iff.
  destruct (a =? c)%char eqn:Hac.
  - apply Ascii.eqb_eq in Hac as ->. rewrite Hc in H.
    apply andb_true_iff in H as [[Hdash _]%andb_true_iff _].
    by apply Ascii.eqb_eq in Hdash.
  - simpl. destruct (Re.is_sep a).
    + apply andb_true_iff in H as [_ H]. by eapply IH.
    + by eapply IH.
Qed.

Lemma normalize_empty x : GenerateIndex.normalize x = "" ↔ x = "".
Proof.
  split; [|by intros ->]. unfold GenerateIndex.normalize.
  destruct x as [|c x]; [done|]. simpl. by destruct (Re.is_sep c).
Qed.

Lemma sub_sep_runs_length b s :
  String.length (Re.sub_sep_runs b s) ≤ String.length s.
Proof.
  revert b. induction s as [|c s IH]; intros b; [done|]. simpl.
  pose proof (IH true). pose proof (IH false).
  destruct (Re.is_sep c); [destruct b|]; simpl; lia.
Qed.

Lemma lower_length s : String.length (Py.lower s) = String.length s.
Proof. induction s as [|c s IH]; simpl; by rewrite ?IH. Qed.

End canonical_names.

(** X1.  What [normalize] returns is always in canonical form (no
    upper-case letter of [A-Z], no [_] and no [.], no two [-] side by
    side) and is empty only for the empty name.  For a name of ASCII
    characters the result is never longer than the name, and the name
    is in canonical form exactly when [normalize] leaves it as it is. *)
Theorem normalize_canonical_form :
  ∀ name,
    Shape.canonical (GenerateIndex.normalize name) = true
    ∧ Spec.contains "_" (GenerateIndex.normalize name) = false
    ∧ Spec.contains "." (GenerateIndex.normalize name) = false
    ∧ (GenerateIndex.normalize name = "" ↔ name = "")
    ∧ (Shape.ascii_only name = true →
       String.length (GenerateIndex.normalize name) ≤ String.length name
       ∧ (Shape.canonical name = true ↔ GenerateIndex.normalize name = name)).
Proof.
  intros name.
  assert (Shape.canonical (GenerateIndex.normalize name) = true) as Hcanon
    by apply canonical_sub.
  split; [done|].
  split; [by eapply canonical_no_char|].
  split; [by eapply canonical_no_char|].
  split; [apply normalize_empty|]. intros _.
  split; [unfold GenerateIndex.normalize; rewrite lower_length;
          apply sub_sep_runs_length|].
  split; [apply canonical_fixed|]. by intros <-.
Qed.

Lemma normalize_canonical_form_witness :
  String.length (GenerateIndex.normalize "Flask__Login")
  ≤ String.length "Flask__Login"
  ∧ (Shape.canonical "flask-login" = true
     ↔ GenerateIndex.normalize "flask-login" = "flask-login").
Proof.
  split.
  - apply (normalize_canonical_form "Flask__Login"). reflexivity.
  - apply (normalize_canonical_form "flask-login"). reflexivity.
Defined.

(** ** The names the classifier gives *)

Section classifier_names.
Import Fs.

Lemma split_first_empty c s :
  Py.first (Py.split c s) = "" ↔ s = "" ∨ Py.startswith s (String c "") = true.
Proof.
  destruct s as [|a s]; [split; [by left|done]|]. simpl.
  rewrite startswith_empty.
  destruct (a =? c)%char eqn:Hac.
  - split; [by right|done].
  - destruct (Py.split c s); simpl; (split; [done|by intros [|]]).
Qed.

Lemma split_first_contains c d s :
  Spec.contains c s = false → Spec.contains c (Py.first (Py.split d s)) = false.
Proof.
  induction s as [|a s IH]; [done|]. simpl.
  intros [Hac Hs]%orb_false_iff. specialize (IH Hs).
  destruct (a =? d)%char; [done|].
  destruct (Py.split d s) as [|h t]; simpl in *; by rewrite Hac.
Qed.

Lemma lazy_group_contains c s p :
  Re.lazy_group s = Some p → Spec.contains c s = false → Spec.contains c p = false.
Proof.
  revert p. induction s as [|a s IH]; intros p; [done|]. simpl.
  destruct (_ && _); [by intros [= <-]|].
  destruct (a =? Py.LF)%char; [done|].
  destruct (Re.lazy_group s) as [q|]; [|done]. intros [= <-].
  intros [Hac Hs]%orb_false_iff. simpl. rewrite Hac. by apply IH.
Qed.

Lemma match_name_version_contains c s p :
  Re.match_name_version s = Some p →
  p ≠ "" ∧ (Spec.contains c s = false → Spec.contains c p = false).
Proof.
  destruct s as [|a s]; [done|]. simpl.
  destruct (a =? Py.LF)%char; [done|].
  destruct (Re.lazy_group s) as [q|] eqn:Hq; [|done]. intros [= <-].
  split; [done|]. intros [Hac Hs]%orb_false_iff. simpl. rewrite Hac.
  by eapply lazy_group_contains.
Qed.

Lemma lower_char_slash a : Py.lower_char a = "/"%char → a = "/"%char.
Proof. by destruct a as [[] [] [] [] [] [] [] []]. Qed.

Lemma sub_sep_runs_contains_slash b x :
  Spec.contains "/" x = false →
  Spec.contains "/" (Py.lower (Re.sub_sep_runs b x)) = false.
Proof.
  revert b. induction x as [|a x IH]; intros b; [done|]. simpl.
  intros [Ha Hx]%orb_false_iff.
  destruct (Re.is_sep a); [destruct b; simpl; auto|]. simpl.
  rewrite IH by done. rewrite orb_false_r.
  apply Ascii.eqb_neq. intros H%lower_char_slash. by apply Ascii.eqb_neq in Ha.
Qed.

Lemma normalize_contains_slash x :
  Spec.contains "/" x = false → Spec.contains "/" (GenerateIndex.normalize x) = false.
Proof. apply sub_sep_runs_contains_slash. Qed.

(** Every name the classifier gives is the normal form of a leading
    part of the file name. *)
Lemma extract_package_name_inv filename n :
  GenerateIndex.extract_package_name filename = Some n →
  ∃ p, n = GenerateIndex.normalize p
       ∧ (Spec.contains "/" filename = false → Spec.contains "/" p = false)
       ∧ (Py.endswith filename ".whl" = true
          ∧ p = Py.first (Py.split "-" filename)
          ∨ Py.endswith filename ".whl" = false ∧ p ≠ "").
Proof.
  unfold GenerateIndex.extract_package_name.
  destruct (Py.endswith filename ".whl") eqn:Hw.
  { intros [= <-]. eexists. split; [done|]. split; [apply split_first_contains|].
    by left. }
  assert (GenerateIndex.normalize <$> Re.match_name_version filename = Some n →
          ∃ p, n = GenerateIndex.normalize p
               ∧ (Spec.contains "/" filename = false → Spec.contains "/" p = false)
               ∧ (false = true ∧ p = Py.first (Py.split "-" filename)
                  ∨ false = false ∧ p ≠ "")) as Hsdist.
  { destruct (Re.match_name_version filename) as [p|] eqn:Hp; [|done].
    intros [= <-]. exists p. split; [done|].
    destruct (match_name_version_contains "/" _ _ Hp) as [? ?]. by eauto. }
  destruct (Py.endswith filename ".tar.gz"); [done|].
  by destruct (Py.endswith filename ".zip").
Qed.

End classifier_names.

(** X2.  The classifier gives the empty name to exactly the file names
    that end in [.whl] and start with [-]: a source distribution is
    never given an empty name. *)
Theorem empty_name_only_for_dash_wheels :
  ∀ filename,
    GenerateIndex.extract_package_name filename = Some ""
    ↔ Py.endswith filename ".whl" = true ∧ Py.startswith filename "-" = true.
Proof.
  intros filename. split.
  - intros H. apply extract_package_name_inv in H as (p & Hn & _ & Hcase).
    symmetry in Hn. apply normalize_empty in Hn as ->.
    destruct Hcase as [[Hw Hp]|[_ ?]]; [|done]. split; [done|].
    symmetry in Hp. apply split_first_empty in Hp as [->|?]; done.
  - intros [Hw Hdash]. unfold GenerateIndex.extract_package_name. rewrite Hw.
    by rewrite split_first_leading.
Qed.

(** X3.  A name under which the index builder retains a file is a safe
    directory name: it is in canonical form, which [normalize] leaves
    unchanged, it is not empty, it holds no [.], so it is neither [..]
    nor [index.html], and it holds no [/] when the file name holds
    none. *)
Theorem retained_name_is_safe :
  ∀ f n,
    Spec.retained f n →
    Shape.canonical n = true
    ∧ GenerateIndex.normalize n = n
    ∧ n ≠ ""
    ∧ Spec.contains "." n = false
    ∧ n ≠ ".." ∧ n ≠ "index.html"
    ∧ (Spec.contains "/" (Fs.d_name f) = false → Spec.contains "/" n = false).
Proof.
  intros f n (_ & Hn & Hne).
  apply extract_package_name_inv in Hn as (p & -> & Hslash & _).
  assert (Shape.canonical (GenerateIndex.normalize p) = true) as Hc
    by apply canonical_sub.
  assert (Spec.contains "." (GenerateIndex.normalize p) = false) as Hdot
    by (by eapply canonical_no_char).
  split; [done|]. split; [apply normalize_idem|]. split; [done|].
  split; [done|].
  split; [by intros Heq; rewrite Heq in Hdot|].
  split; [by intros Heq; rewrite Heq in Hdot|].
  intros H. by apply normalize_contains_slash, Hslash.
Qed.

Lemma retained_name_is_safe_witness :
  Spec.contains "." "flask-login" = false ∧ "flask-login" ≠ "index.html".
Proof.
  destruct (retained_name_is_safe Sample.flask_login_wheel "flask-login")
    as (_ & _ & _ & Hdot & _ & Hpage & _); [by repeat split|done].
Defined.

(** ** The form of the digest *)

Section digest_form.

Lemma round_length v kw : length (Hashlib.round v kw) = length v.
Proof. by do 9 (destruct v as [|? v]; [done|]). Qed.

Lemma rounds_length kws v : length (foldl Hashlib.round v kws) = length v.
Proof.
  revert v. induction kws as [|kw kws IH]; intros v; [done|].
  simpl. by rewrite IH, round_length.
Qed.

Lemma compress_length hv block : length (Hashlib.compress hv block) = length hv.
Proof.
  unfold Hashlib.compress. rewrite length_zip_with, rounds_length. lia.
Qed.

Lemma update_byte_chaining h b :
  length (Hashlib.chaining (Hashlib.update_byte h b)) = length (Hashlib.chaining h).
Proof.
  unfold Hashlib.update_byte. destruct (_ =? _); simpl; [|done].
  apply compress_length.
Qed.

Lemma update_chaining data h :
  length (Hashlib.chaining (Hashlib.update h data)) = length (Hashlib.chaining h).
Proof.
  unfold Hashlib.update. revert h.
  induction data as [|b data IH]; intros h; [done|].
  simpl. by rewrite IH, update_byte_chaining.
Qed.

Lemma hex_digit_is_hex x : Shape.is_hex (Hashlib.hex_digit (N.land x 15)) = true.
Proof.
  assert (N.land x 15 < 16)%N as Hlt.
  { change 15%N with (N.ones 4). rewrite N.land_ones.
    by apply N.mod_lt. }
  assert (∃ k : nat, k < 16 ∧ N.land x 15 = N.of_nat k) as (k & Hk & ->).
  { exists (N.to_nat (N.land x 15)). split; [lia|]. by rewrite N2Nat.id. }
  by do 16 (destruct k as [|k]; [done|]); lia.
Qed.

Lemma hex_chars_form (x : N) (l : list nat) :
  let s := foldr (λ (i : nat) s,
                    String (Hashlib.hex_digit
                              (N.land (N.shiftr x (4 * N.of_nat (7 - i))) 15)) s)
                 "" l in
  String.length s = length l ∧ Shape.all_hex s = true.
Proof.
  induction l as [|i l [IH1 IH2]]; [done|].
  cbn [foldr length String.length Shape.all_hex].
  by rewrite hex_digit_is_hex, IH1, IH2.
Qed.

Lemma hex_word_form x :
  String.length (Hashlib.hex_word x) = 8 ∧ Shape.all_hex (Hashlib.hex_word x) = true.
Proof. apply (hex_chars_form x (seq 0 8)). Qed.

Lemma string_app_length s t :
  String.length (s +:+ t) = String.length s + String.length t.
Proof. induction s as [|c s IH]; [done|]. rewrite app_cons. simpl. by rewrite IH. Qed.

Lemma all_hex_app s t :
  Shape.all_hex (s +:+ t) = Shape.all_hex s && Shape.all_hex t.
Proof.
  induction s as [|c s IH]; [done|]. rewrite app_cons. simpl.
  by rewrite IH, andb_assoc.
Qed.

Lemma hex_words_form ws :
  String.length (foldr (λ w s, Hashlib.hex_word w +:+ s) "" ws) = 8 * length ws
  ∧ Shape.all_hex (foldr (λ w s, Hashlib.hex_word w +:+ s) "" ws) = true.
Proof.
  induction ws as [|w ws [IH1 IH2]]; [done|]. cbn [foldr length].
  destruct (hex_word_form w) as [Hlen Hhex].
  rewrite string_app_length, all_hex_app, Hlen, Hhex, IH1, IH2. split; [lia|done].
Qed.

End digest_form.

(** X4.  Whatever the content of the file, [sha256_file] returns 64
    characters, each a digit or a letter from [a] to [f]: the fragment
    [#sha256=...] of a link is always a well-formed digest. *)
Theorem sha256_file_form :
  ∀ content,
    String.length (GenerateIndex.sha256_file content) = 64
    ∧ Shape.all_hex (GenerateIndex.sha256_file content) = true.
Proof.
  intros content. unfold GenerateIndex.sha256_file, Hashlib.hexdigest.
  destruct (hex_words_form
              (Hashlib.chaining
                 (Hashlib.update (GenerateIndex.read_chunks Hashlib.new content)
                    (Hashlib.padding (GenerateIndex.read_chunks Hashlib.new content)))))
    as [Hlen Hhex].
  split; [|done]. rewrite Hlen, update_chaining, read_chunks_update, update_chaining.
  done.
Qed.

(** ** The dictionary of the first loop, exactly *)

Section dictionary.
Import Fs.

Implicit Types m : gmap string (list (string * string)).

Lemma is_retained_spec f : Retain.is_retained f = true ↔ ∃ n, Spec.retained f n.
Proof.
  unfold Retain.is_retained, Spec.retained. split.
  - intros [Hfile H]%andb_true_iff.
    destruct (GenerateIndex.extract_package_name (d_name f)) as [n|]; [|done].
    exists n. by rewrite <-truthy_nonempty.
  - intros (n & -> & -> & Hn). by apply truthy_nonempty in Hn as ->.
Qed.

Lemma collect_exact l m n :
  default [] (foldl GenerateIndex.scan_entry m l !! n)
  = default [] (m !! n)
    ++ ((λ f, (d_name f, GenerateIndex.sha256_file (content f)))
        <$> filter (λ f, Spec.retained f n) l).
Proof.
  revert m. induction l as [|f l IH]; intros m; [by rewrite app_nil_r|].
  simpl. rewrite IH. clear IH.
  destruct (scan_entry_cases m f) as [(k & Hk & ->)|[Hno ->]].
  - unfold GenerateIndex.dict_append. destruct (decide (k = n)) as [->|Hne].
    + rewrite lookup_insert_eq, filter_cons_True by done. simpl.
      by rewrite <-app_assoc.
    + rewrite lookup_insert_ne, filter_cons_False; [done| |done].
      intros Hn. destruct Hne. by eapply retained_unique.
  - by rewrite filter_cons_False by apply Hno.
Qed.

Lemma StronglySorted_filter {A} (R : relation A) (P : A → Prop)
    `{∀ x, Decision (P x)} (l : list A) :
  StronglySorted R l → StronglySorted R (filter P l).
Proof.
  induction 1 as [|x l Hl IH Hx]; [constructor|].
  destruct (decide (P x)).
  - rewrite filter_cons_True by done. constructor; [done|].
    rewrite Forall_forall in Hx. apply Forall_forall.
    intros y [_ Hy]%list_elem_of_filter. by apply Hx.
  - by rewrite filter_cons_False.
Qed.

Lemma total_files_append m k item :
  Retain.total_files (GenerateIndex.dict_append m k item)
  = S (Retain.total_files m).
Proof.
  unfold Retain.total_files, GenerateIndex.dict_append.
  destruct (m !! k) as [v|] eqn:Hk; simpl.
  - rewrite <-(insert_delete_eq m), map_to_list_insert by apply lookup_delete_eq.
    rewrite <-(map_to_list_delete m k v) by done. simpl.
    rewrite length_app. simpl. lia.
  - rewrite map_to_list_insert by done. done.
Qed.

Lemma total_files_fold l m :
  Retain.total_files (foldl GenerateIndex.scan_entry m l)
  = Retain.total_files m + length (filter (λ f, Retain.is_retained f = true) l).
Proof.
  revert m. induction l as [|f l IH]; intros m; [simpl; lia|].
  simpl. rewrite IH. clear IH.
  destruct (scan_entry_cases m f) as [(k & Hk & ->)|[Hno ->]].
  - rewrite total_files_append, filter_cons_True; [simpl; lia|].
    apply is_retained_spec. by exists k.
  - rewrite filter_cons_False; [done|].
    intros (k & Hk)%is_retained_spec. by apply (Hno k).
Qed.

Lemma emit_out ip pf t t' out :
  Aux.emit ip pf t = (t', Fs.Ok out) → out = Aux.summary pf.
Proof.
  intros (t1 & r1 & H1 & H)%emit_inv.
  destruct r1 as [[]|e]; [|by destruct H as [_ [=]]].
  destruct H as (t2 & r2 & H2 & H).
  destruct r2 as [[]|e]; [|by destruct H as [_ [=]]].
  destruct H as (r3 & H3 & H). destruct r3 as [[]|e]; [|done].
  by injection H.
Qed.

End dictionary.

(** X5.  After a run that completes, the page of a package is the text
    below: the head of the page with the name of the package, then one
    line for each entry of a list, in the order of the list, each line
    the link of the entry with its digest, then the end of the page.
    The list holds exactly the entries retained under the name, each as
    often as the directory lists it, in the order of their file names;
    the link of each of them occurs in the page. *)
Theorem package_page_lists_its_files :
  ∀ packages_path index_path entries t t' out n,
    GenerateIndex.generate_index packages_path index_path (Some entries) t
    = (t', Fs.Ok out) →
    (∃ f, f ∈ entries ∧ Spec.retained f n) →
    ∃ fs page,
      t' !! Spec.package_page_path n = Some (Fs.File page)
      ∧ page
        = "<!DOCTYPE html>" +:+ GenerateIndex.nl
          +:+ "<html><head><title>" +:+ n +:+ "</title><meta name="
          +:+ GenerateIndex.dq +:+ "api-version" +:+ GenerateIndex.dq
          +:+ " value=" +:+ GenerateIndex.dq +:+ "2" +:+ GenerateIndex.dq
          +:+ "/></head>" +:+ GenerateIndex.nl
          +:+ "<body>" +:+ GenerateIndex.nl
          +:+ Py.join GenerateIndex.nl
                ((λ f, Spec.artifact_link (Fs.d_name f) (Fs.content f)) <$> fs)
          +:+ GenerateIndex.nl +:+ "</body></html>"
      ∧ (∀ f, f ∈ fs →
              Spec.occurs_in (Spec.artifact_link (Fs.d_name f) (Fs.content f)) page
              = true)
      ∧ Sorted Fs.name_le fs
      ∧ fs ≡ₚ filter (λ f, Spec.retained f n) entries.
Proof.
  intros pp ip entries t t' out n Hrun Hn.
  rewrite generate_index_some in Hrun. apply emit_ok in Hrun as [_ Hpages].
  apply collect_keys_entries in Hn as [files Hfiles].
  exists (filter (λ f, Spec.retained f n) (merge_sort Fs.name_le entries)).
  eexists.
  assert (GenerateIndex.file_link <$> files
          = (λ f, Spec.artifact_link (Fs.d_name f) (Fs.content f))
            <$> filter (λ f, Spec.retained f n) (merge_sort Fs.name_le entries))
    as Hlinks.
  { pose proof (collect_exact (merge_sort Fs.name_le entries) ∅ n) as Hexact.
    fold (Aux.collect entries) in Hexact. rewrite Hfiles, lookup_empty in Hexact.
    simpl in Hexact. rewrite Hexact, <-!list_fmap_compose.
    apply list_fmap_ext. intros _ f _. simpl. apply file_link_artifact. }
  split; [apply (Hpages n files Hfiles)|]. rewrite Hlinks.
  split; [reflexivity|].
  split; [|split].
  - intros f Hf. apply package_page_occurs.
    by apply (list_elem_of_fmap_2
                (λ f, Spec.artifact_link (Fs.d_name f) (Fs.content f))).
  - apply StronglySorted_Sorted, StronglySorted_filter.
    apply StronglySorted_merge_sort; apply _.
  - by rewrite merge_sort_Permutation.
Qed.

Lemma package_page_lists_its_files_witness :
  ∃ fs page,
    Sample.first_run.1 !! Spec.package_page_path "requests"
    = Some (Fs.File page)
    ∧ fs ≡ₚ [Sample.requests_sdist; Sample.requests_wheel]
    ∧ ∀ f, f ∈ fs →
           Spec.occurs_in (Spec.artifact_link (Fs.d_name f) (Fs.content f)) page
           = true.
Proof.
  assert (GenerateIndex.generate_index "packages/all" "index"
            (Some [Sample.requests_sdist; Sample.requests_wheel]) ∅
          = (Sample.first_run.1, Fs.Ok "Generated index: 1 packages, 2 files"))
    as Hrun.
  { rewrite (surjective_pairing (GenerateIndex.generate_index _ _ _ _)).
    f_equal; by vm_compute. }
  destruct (package_page_lists_its_files _ _ _ _ _ _ "requests" Hrun)
    as (fs & page & Hpage & _ & Hlinks & _ & Hperm).
  { exists Sample.requests_sdist. split; [apply list_elem_of_here|by repeat split]. }
  exists fs, page. split; [done|]. split; [|done]. rewrite Hperm.
  by rewrite !filter_cons_True, filter_nil by (by repeat split).
Defined.

(** X6.  The line a completed run prints counts the distinct names
    under which entries are retained, which are the links of the root
    page, and the entries retained, which are the links of all the
    package pages together. *)
Theorem summary_counts :
  ∀ packages_path index_path entries t t' out,
    GenerateIndex.generate_index packages_path index_path (Some entries) t
    = (t', Fs.Ok out) →
    ∃ names,
      NoDup names
      ∧ (∀ n, n ∈ names ↔ ∃ f, f ∈ entries ∧ Spec.retained f n)
      ∧ out = "Generated index: " +:+ Py.str (length names) +:+ " packages, "
              +:+ Py.str (length (filter (λ f, Retain.is_retained f = true) entries))
              +:+ " files".
Proof.
  intros pp ip entries t t' out Hrun. rewrite generate_index_some in Hrun.
  apply emit_out in Hrun as ->.
  exists (GenerateIndex.sorted_keys (Aux.collect entries)).
  split; [apply sorted_keys_nodup|].
  split; [intros n; by rewrite sorted_keys_elem, collect_keys_entries|].
  unfold Aux.summary. do 2 f_equal; [|do 2 f_equal]; f_equal.
  - unfold GenerateIndex.sorted_keys.
    by rewrite merge_sort_Permutation, length_fmap, length_map_to_list.
  - pose proof (total_files_fold (merge_sort Fs.name_le entries) ∅) as Htotal.
    unfold Retain.total_files in Htotal at 1. unfold Aux.collect. rewrite Htotal.
    unfold Retain.total_files. rewrite map_to_list_empty. simpl.
    by rewrite merge_sort_Permutation.
Qed.

Lemma summary_counts_witness :
  ∃ names : list string,
    NoDup names
    ∧ "Generated index: 1 packages, 2 files"
      = "Generated index: " +:+ Py.str (length names) +:+ " packages, "
        +:+ Py.str (length (filter (λ f, Retain.is_retained f = true)
                                   [Sample.requests_sdist; Sample.requests_wheel]))
        +:+ " files".
Proof.
  destruct (summary_counts "packages/all" "index"
              [Sample.requests_sdist; Sample.requests_wheel] ∅
              Sample.first_run.1 "Generated index: 1 packages, 2 files")
    as (names & Hnd & _ & Hout).
  { rewrite (surjective_pairing (GenerateIndex.generate_index _ _ _ _)).
    f_equal; by vm_compute. }
  by exists names.
Defined.

(** ** Runs on an index tree *)

Section index_tree.
Import Fs.

Implicit Types t : gmap (list string) node.

Lemma retained_not_index_html f n : Spec.retained f n → n ≠ "index.html".
Proof.
  intros (_ & Hn & _) ->.
  apply extract_package_name_inv in Hn as (p & Hp & _).
  assert (Spec.contains "." (GenerateIndex.normalize p) = false) as Hdot
    by (eapply canonical_no_char; [apply canonical_sub|done..]).
  by rewrite <-Hp in Hdot.
Qed.

Lemma allowed_dir_not_file p text : Tree.allowed p Dir → ¬ Tree.allowed p (File text).
Proof. intros Hd Hf. inv Hd; inv Hf; done. Qed.

Lemma shaped_insert t p nd :
  Tree.index_shaped t → Tree.allowed p nd → Tree.index_shaped (<[p := nd]> t).
Proof.
  intros Ht Hp q nd'. rewrite lookup_insert. case_decide; [|apply Ht].
  by intros [= <-]; subst.
Qed.

Lemma mkdir_from_shaped root comps base t :
  (∀ k, k ≤ length comps → Tree.allowed (base ++ take k comps) Dir) →
  Tree.index_shaped t →
  ∃ t', mkdir_from root base comps t = (t', Ok ()) ∧ Tree.index_shaped t'.
Proof.
  revert base t. induction comps as [|c comps IH]; intros base t Hpre Ht.
  - pose proof (Hpre 0 (Nat.le_refl _)) as Hbase. rewrite app_nil_r in Hbase.
    simpl. destruct (t !! base) as [[|text]|] eqn:Hb.
    + by exists t.
    + destruct (allowed_dir_not_file _ text Hbase). by apply Ht.
    + eexists. split; [done|]. by apply shaped_insert.
  - pose proof (Hpre 0 (Nat.le_0_l _)) as Hbase. rewrite app_nil_r in Hbase.
    assert (∀ k, k ≤ length comps →
              Tree.allowed ((base ++ [c]) ++ take k comps) Dir) as Hpre'.
    { intros k Hk. rewrite <-app_assoc. apply (Hpre (S k)). simpl. lia. }
    simpl. destruct (t !! base) as [[|text]|] eqn:Hb.
    + by apply IH.
    + destruct (allowed_dir_not_file _ text Hbase). by apply Ht.
    + apply IH; [done|]. by apply shaped_insert.
Qed.

Lemma write_text_shaped root p text t :
  Tree.index_shaped t → t !! parent p = Some Dir → Tree.allowed p (File text) →
  ∃ t', write_text root p text t = (t', Ok ()) ∧ Tree.index_shaped t'.
Proof.
  intros Ht Hparent Hp. unfold write_text. rewrite Hparent.
  destruct (t !! p) as [[|old]|] eqn:Hq.
  - apply Ht in Hq. by destruct (allowed_dir_not_file _ text Hq).
  - eexists. split; [done|]. by apply shaped_insert.
  - eexists. split; [done|]. by apply shaped_insert.
Qed.

Lemma emit_package_shaped ip n files t :
  n ≠ "index.html" → Tree.index_shaped t →
  ∃ t', GenerateIndex.emit_package ip ["simple"] (n, files) t = (t', Ok ())
        ∧ Tree.index_shaped t'.
Proof.
  intros Hn Ht.
  destruct (mkdir_from_shaped ip ["simple"; n] [] t) as (t1 & H1 & Ht1); [|done|].
  { intros k Hk. do 3 (destruct k as [|k]; [by constructor|]). simpl in Hk. lia. }
  destruct (write_text_shaped ip ["simple"; n; "index.html"]
              (GenerateIndex.package_page n (GenerateIndex.file_link <$> files)) t1)
    as (t2 & H2 & Ht2); [done| |constructor|].
  { by apply mkdir_from_ok in H1. }
  exists t2. split; [|done]. unfold GenerateIndex.emit_package.
  by rewrite (bind_ok _ _ t t1 ()).
Qed.

Lemma loop_shaped ip l t :
  Forall (λ item, item.1 ≠ "index.html") l → Tree.index_shaped t →
  ∃ t', for_each l (GenerateIndex.emit_package ip ["simple"]) t = (t', Ok ())
        ∧ Tree.index_shaped t'.
Proof.
  intros Hl. revert t. induction Hl as [|[n files] l Hn _ IH]; intros t Ht.
  { by exists t. }
  destruct (emit_package_shaped ip n files t Hn Ht) as (t1 & H1 & Ht1).
  destruct (IH t1 Ht1) as (t2 & H2 & Ht2).
  exists t2. split; [|done]. simpl. by rewrite (bind_ok _ _ t t1 ()).
Qed.

Lemma emit_shaped ip pf t :
  (∀ n, is_Some (pf !! n) → n ≠ "index.html") → Tree.index_shaped t →
  ∃ t', Aux.emit ip pf t = (t', Ok (Aux.summary pf)) ∧ Tree.index_shaped t'.
Proof.
  intros Hpf Ht.
  destruct (mkdir_from_shaped ip ["simple"] [] t) as (t1 & H1 & Ht1); [|done|].
  { intros k Hk. do 2 (destruct k as [|k]; [by constructor|]). simpl in Hk. lia. }
  destruct (write_text_shaped ip Spec.root_page_path
              (GenerateIndex.root_page
                 (GenerateIndex.root_link <$> GenerateIndex.sorted_keys pf)) t1)
    as (t2 & H2 & Ht2); [done| |constructor|].
  { by apply mkdir_from_ok in H1. }
  destruct (loop_shaped ip (GenerateIndex.sorted_items pf) t2) as (t3 & H3 & Ht3);
    [|done|].
  { apply Forall_forall. intros [n files] Hin. apply Hpf.
    apply sorted_items_elem in Hin. by eexists. }
  exists t3. split; [|done]. unfold Aux.emit.
  rewrite (bind_ok _ _ t t1 ()) by done.
  rewrite (bind_ok _ _ t1 t2 ()) by done.
  by rewrite (bind_ok _ _ t2 t3 ()).
Qed.

End index_tree.

(** X7.  On an output directory that is empty, or that holds nothing
    but what earlier runs made (the directory [simple], the root page,
    package directories and their pages), a run completes whatever the
    artifact directory holds, and leaves a tree of the same kind: no
    package name can clash with the root page [simple/index.html]. *)
Theorem build_completes_on_index_tree :
  Tree.index_shaped ∅
  ∧ ∀ packages_path index_path entries t,
      Tree.index_shaped t →
      ∃ t' out,
        GenerateIndex.generate_index packages_path index_path (Some entries) t
        = (t', Fs.Ok out)
        ∧ Tree.index_shaped t'.
Proof.
  split; [by intros p nd; rewrite lookup_empty|].
  intros pp ip entries t Ht. rewrite generate_index_some.
  destruct (emit_shaped ip (Aux.collect entries) t) as (t' & Hrun & Ht'); [|done|].
  { intros n (f & _ & Hr)%collect_keys_entries. by eapply retained_not_index_html. }
  by exists t', (Aux.summary (Aux.collect entries)).
Qed.

Lemma build_completes_on_index_tree_witness :
  ∃ t' out,
    GenerateIndex.generate_index "packages/all" "index"
      (Some [Sample.six_wheel]) Sample.first_run.1
    = (t', Fs.Ok out).
Proof.
  destruct build_completes_on_index_tree as [Hempty Hrun].
  destruct (Hrun "packages/all" "index"
              [Sample.requests_sdist; Sample.requests_wheel] ∅ Hempty)
    as (t1 & out1 & Hfirst & Ht1).
  destruct (Hrun "packages/all" "index" [Sample.six_wheel] Sample.first_run.1)
    as (t' & out & Hsecond & _).
  { unfold Sample.first_run. by rewrite Hfirst. }
  by exists t', out.
Defined.

(** ** More on the verifier *)

Section verifier_more.
Import Fs.

Lemma verify_report read_text iterdir requirements_file packages_dir text entries :
  read_text requirements_file = Some text →
  iterdir packages_dir = Some entries →
  VerifyMirror.verify read_text iterdir requirements_file packages_dir
  = VerifyMirror.report
      (Spec.unsatisfied entries (Spec.requirements text))
      (length (Spec.requirements text)).
Proof.
  intros Htext Hdir. unfold VerifyMirror.verify. rewrite Htext, Hdir.
  by rewrite scan_lines.
Qed.

Lemma available_names_ext entries entries' :
  (∀ x, x ∈ Mirror.lowered_names entries ↔ x ∈ Mirror.lowered_names entries') →
  VerifyMirror.available_names entries = VerifyMirror.available_names entries'.
Proof.
  intros H. apply set_eq. intros x.
  unfold VerifyMirror.available_names. rewrite !elem_of_list_to_set. apply H.
Qed.

Lemma found_mono entries entries' n :
  (∀ x, x ∈ Mirror.lowered_names entries → x ∈ Mirror.lowered_names entries') →
  VerifyMirror.found (VerifyMirror.available_names entries) n = true →
  VerifyMirror.found (VerifyMirror.available_names entries') n = true.
Proof.
  intros Hsub. unfold VerifyMirror.found. rewrite !existsb_exists.
  intros (x & Hx & Hm). exists x. split; [|done].
  apply list_elem_of_In, elem_of_elements, elem_of_list_to_set in Hx.
  by apply list_elem_of_In, elem_of_elements, elem_of_list_to_set, Hsub.
Qed.

Lemma lowered_names_mono entries entries' :
  (∀ f, f ∈ entries → f ∈ entries') →
  ∀ x, x ∈ Mirror.lowered_names entries → x ∈ Mirror.lowered_names entries'.
Proof.
  intros Hsub x. unfold Mirror.lowered_names. rewrite !list_elem_of_fmap.
  intros (f & -> & [Hfile Hf]%list_elem_of_filter). exists f. split; [done|].
  apply list_elem_of_filter. auto.
Qed.

Lemma filter_sublist_mono {A} (P Q : A → Prop)
    `{∀ x, Decision (P x)} `{∀ x, Decision (Q x)} (l : list A) :
  (∀ x, P x → Q x) → filter P l `sublist_of` filter Q l.
Proof.
  intros HPQ. induction l as [|x l IH]; [done|].
  destruct (decide (P x)) as [HP|HP].
  - rewrite !filter_cons_True by auto. by constructor.
  - rewrite (filter_cons_False P) by done.
    destruct (decide (Q x)).
    + rewrite filter_cons_True by done. by constructor.
    + by rewrite filter_cons_False.
Qed.

Lemma unsatisfied_mono entries entries' reqs :
  (∀ f, f ∈ entries → f ∈ entries') →
  Spec.unsatisfied entries' reqs `sublist_of` Spec.unsatisfied entries reqs.
Proof.
  intros Hsub. apply filter_sublist_mono. intros r.
  unfold Spec.is_unsatisfied.
  destruct (VerifyMirror.requirement_name r) as [n|]; [|done].
  intros Hnot%negb_true_iff. apply negb_true_iff.
  destruct (VerifyMirror.found (VerifyMirror.available_names entries) n) eqn:Hf;
    [|done].
  rewrite <-Hnot. symmetry.
  eapply found_mono; [|done]. by apply lowered_names_mono.
Qed.

End verifier_more.

(** X8.  The outcome of [verify] depends on the directory only through
    the set of lower-cased names of its regular files: the order of the
    listing, the case of the file names and what is not a regular file
    change nothing. *)
Theorem verify_reads_names_only :
  ∀ read_text iterdir iterdir' requirements_file packages_dir entries entries',
    iterdir packages_dir = Some entries →
    iterdir' packages_dir = Some entries' →
    (∀ x, x ∈ Mirror.lowered_names entries ↔ x ∈ Mirror.lowered_names entries') →
    VerifyMirror.verify read_text iterdir requirements_file packages_dir
    = VerifyMirror.verify read_text iterdir' requirements_file packages_dir.
Proof.
  intros rt it it' rf pd entries entries' Hit Hit' Hnames.
  unfold VerifyMirror.verify. rewrite Hit, Hit'.
  by rewrite (available_names_ext entries entries').
Qed.

Lemma verify_reads_names_only_witness :
  VerifyMirror.verify (λ _, Some "scipy==1.0")
    (λ _, Some [Sample.scipy_wheel; Sample.six_wheel])
    "requirements.txt" "packages/all"
  = VerifyMirror.verify (λ _, Some "scipy==1.0")
      (λ _, Some [ Sample.file "SIX-1.16.0-py2.py3-none-any.whl" [];
                   Sample.scipy_wheel;
                   {| Fs.d_name := "numpy-1.0"; Fs.d_kind := Fs.NotRegular |} ])
      "requirements.txt" "packages/all".
Proof.
  eapply verify_reads_names_only; [reflexivity..|].
  intros x.
  assert (Mirror.lowered_names [Sample.scipy_wheel; Sample.six_wheel]
          = ["scipy-1.0-py3-none-any.whl"; "six-1.16.0-py2.py3-none-any.whl"])
    as -> by (by vm_compute).
  assert (Mirror.lowered_names
            [ Sample.file "SIX-1.16.0-py2.py3-none-any.whl" [];
              Sample.scipy_wheel;
              {| Fs.d_name := "numpy-1.0"; Fs.d_kind := Fs.NotRegular |} ]
          = ["six-1.16.0-py2.py3-none-any.whl"; "scipy-1.0-py3-none-any.whl"])
    as -> by (by vm_compute).
  rewrite !elem_of_cons, !elem_of_nil. tauto.
Defined.

(** X9.  Files added to the directory never turn a satisfied
    requirement into a missing one: the requirements left unsatisfied
    by the larger directory are among those left by the smaller, in the
    same order, and a verification that passed still passes with the
    same report. *)
Theorem more_files_fewer_missing :
  ∀ read_text iterdir iterdir' requirements_file packages_dir text entries entries',
    read_text requirements_file = Some text →
    iterdir packages_dir = Some entries →
    iterdir' packages_dir = Some entries' →
    (∀ f, f ∈ entries → f ∈ entries') →
    Spec.unsatisfied entries' (Spec.requirements text)
      `sublist_of` Spec.unsatisfied entries (Spec.requirements text)
    ∧ ∀ stdout,
        VerifyMirror.verify read_text iterdir requirements_file packages_dir
        = VerifyMirror.Returned stdout →
        VerifyMirror.verify read_text iterdir' requirements_file packages_dir
        = VerifyMirror.Returned stdout.
Proof.
  intros rt it it' rf pd text entries entries' Htext Hit Hit' Hsub.
  pose proof (unsatisfied_mono entries entries' (Spec.requirements text) Hsub) as Hm.
  split; [done|]. intros stdout.
  rewrite (verify_report rt it rf pd text entries),
          (verify_report rt it' rf pd text entries') by done.
  destruct (Spec.unsatisfied entries (Spec.requirements text)); [|done].
  by apply sublist_nil_r in Hm as ->.
Qed.

Lemma more_files_fewer_missing_witness :
  VerifyMirror.verify (λ _, Some "scipy==1.0")
    (λ _, Some [Sample.six_wheel; Sample.scipy_wheel])
    "requirements.txt" "packages/all"
  = VerifyMirror.Returned ["All 1 packages present in mirror."].
Proof.
  eapply (proj2 (more_files_fewer_missing
                   (λ _, Some "scipy==1.0") (λ _, Some [Sample.scipy_wheel])
                   (λ _, Some [Sample.six_wheel; Sample.scipy_wheel])
                   "requirements.txt" "packages/all" "scipy==1.0"
                   [Sample.scipy_wheel] [Sample.six_wheel; Sample.scipy_wheel]
                   eq_refl eq_refl eq_refl _)).
  by vm_compute.
  Unshelve. intros f Hf. by right.
Defined.

(** ** The name of a requirement *)

Section requirement_names.
Import Fs.

Lemma plain_char_cases c :
  (Py.is_lower c || Py.is_upper c || Py.is_digit c || Re.is_sep c) = true →
  Re.is_name_char c = true ∧ (c =? "[")%char = false ∧ (c =? "#")%char = false.
Proof. by destruct c as [[] [] [] [] [] [] [] []]. Qed.

Lemma take_name_chars_plain raw tail :
  Mirror.plain_name raw = true →
  Re.take_name_chars (raw +:+ tail) = raw +:+ Re.take_name_chars tail.
Proof.
  induction raw as [|c raw IH]; [done|]. simpl.
  intros [Hc Hraw]%andb_true_iff. apply plain_char_cases in Hc as (Hc & _).
  rewrite !app_cons. simpl. by rewrite Hc, IH.
Qed.

Lemma plain_name_no_bracket raw :
  Mirror.plain_name raw = true → Spec.contains "[" raw = false.
Proof.
  induction raw as [|c raw IH]; [done|]. simpl.
  intros [Hc Hraw]%andb_true_iff. apply plain_char_cases in Hc as (_ & Hc & _).
  by rewrite Hc, IH.
Qed.

Lemma take_name_chars_tail tail :
  Mirror.ends_name tail = true →
  Re.take_name_chars tail = ""
  ∨ ∃ rest, Re.take_name_chars tail = String "[" rest.
Proof.
  destruct tail as [|c tail]; [by left|]. simpl.
  destruct (Re.is_name_char c) eqn:Hc; [|by left].
  rewrite orb_false_r. intros ->%Ascii.eqb_eq. right. by eexists.
Qed.

Lemma string_app_empty_r s : s +:+ "" = s.
Proof. induction s as [|c s IH]; [done|]. by rewrite app_cons, IH. Qed.

End requirement_names.

(** X10.  The name the verifier checks for a line is the normal form of
    the name the line starts with: the extras in brackets, the version
    constraint and whatever else follows the name play no part, so
    [pkg], [pkg[extra]==1.0] and [pkg>=2] are checked alike. *)
Theorem requirement_name_ignores_tail :
  ∀ raw tail,
    raw ≠ "" →
    Mirror.plain_name raw = true →
    Py.startswith raw "-" = false →
    Mirror.ends_name tail = true →
    VerifyMirror.requirement_name (raw +:+ tail)
    = Some (VerifyMirror.normalize raw).
Proof.
  intros raw tail Hne Hplain Hdash Htail.
  unfold VerifyMirror.requirement_name.
  destruct raw as [|c raw]; [done|]. rewrite app_cons.
  pose proof Hplain as [Hc _]%andb_true_iff.
  apply plain_char_cases in Hc as (Hc & _ & Hhash).
  simpl in Hdash. rewrite startswith_empty, andb_true_r in Hdash.
  cbn [Py.truthy Py.startswith negb orb]. rewrite Hhash, Hdash.
  rewrite !startswith_empty. simpl "&&". cbn [orb].
  unfold Re.match_name. rewrite <-app_cons, take_name_chars_plain by done.
  rewrite app_cons.
  destruct (take_name_chars_tail tail Htail) as [->|[rest ->]].
  - rewrite string_app_empty_r, split_first_no_sep; [done|].
    by apply (plain_name_no_bracket (String c raw)).
  - rewrite <-app_cons, split_first_segment; [done|].
    by apply (plain_name_no_bracket (String c raw)).
Qed.

Lemma requirement_name_ignores_tail_witness :
  VerifyMirror.requirement_name "Flask_Login[extra]>=0.6,<1.0" = Some "flask-login"
  ∧ VerifyMirror.requirement_name "Flask_Login" = Some "flask-login".
Proof.
  split.
  - by apply (requirement_name_ignores_tail "Flask_Login" "[extra]>=0.6,<1.0").
  - by apply (requirement_name_ignores_tail "Flask_Login" "").
Defined.

(** ** The builder and the verifier on one file *)

Section agreement.
Import Fs.

Lemma is_sep_cases c :
  Re.is_sep c = true → c = "-"%char ∨ c = "_"%char ∨ c = "."%char.
Proof.
  unfold Re.is_sep. rewrite !orb_true_iff, !Ascii.eqb_eq. tauto.
Qed.

Lemma uniform_sub c b p :
  Re.is_sep c = true → Mirror.uniform_from c b p = true →
  Re.sub_sep_runs b p = Py.replace c "-" p.
Proof.
  intros Hc. revert b. induction p as [|a p IH]; intros b; [done|]. simpl.
  destruct (Re.is_sep a) eqn:Ha.
  - intros [[Hac Hb]%andb_true_iff Hp]%andb_true_iff.
    apply negb_true_iff in Hb as ->. rewrite Hac. by rewrite (IH true).
  - intros Hp. rewrite (IH false) by done.
    destruct (a =? c)%char eqn:Hac; [|done].
    apply Ascii.eqb_eq in Hac as ->. congruence.
Qed.

Lemma uniform_replace_back c b p :
  Re.is_sep c = true → Mirror.uniform_from c b p = true →
  Py.replace "-" c (Py.replace c "-" p) = p.
Proof.
  intros Hc. revert b. induction p as [|a p IH]; intros b; [done|]. simpl.
  destruct (Re.is_sep a) eqn:Ha.
  - intros [[Hac Hb]%andb_true_iff Hp]%andb_true_iff.
    rewrite Hac. simpl. apply Ascii.eqb_eq in Hac as ->. by rewrite (IH true).
  - intros Hp. rewrite (IH false) by done.
    destruct (a =? c)%char eqn:Hac.
    { apply Ascii.eqb_eq in Hac as ->. congruence. }
    destruct (a =? "-")%char eqn:Hdash; [|done].
    apply Ascii.eqb_eq in Hdash as ->. done.
Qed.

Lemma lower_char_of_sep c : Re.is_sep c = true → Py.lower_char c = c.
Proof. intros H. apply lower_char_fixed. by apply is_sep_not_upper. Qed.

(** The variant of the normal form of [p] in which [c] takes the place
    of [-] is [p] in lower case. *)
Lemma uniform_variant c p :
  Re.is_sep c = true → Mirror.uniform c p = true →
  Py.replace "-" c (GenerateIndex.normalize p) = Py.lower p.
Proof.
  intros Hc Hp. unfold GenerateIndex.normalize.
  rewrite (uniform_sub c false p) by done.
  rewrite <-replace_lower by (done || by apply lower_char_of_sep || apply lower_char_dash).
  by rewrite (uniform_replace_back c false p).
Qed.

Lemma replace_same c s : Py.replace c c s = s.
Proof.
  induction s as [|a s IH]; [done|]. simpl. rewrite IH.
  destruct (a =? c)%char eqn:H; [|done]. by apply Ascii.eqb_eq in H as ->.
Qed.

End agreement.

(** X11.  The two scripts agree on a file whose name starts with a
    spelling of the package name that uses one separator character, and
    never two in a row, followed by [-]: when the index builder lists
    the file under a name, the verifier finds the requirement of that
    name satisfied. *)
Theorem listed_file_satisfies_requirement :
  ∀ entries f p rest c,
    f ∈ entries →
    Spec.retained f (GenerateIndex.normalize p) →
    Fs.d_name f = p +:+ String "-" rest →
    Re.is_sep c = true →
    Mirror.uniform c p = true →
    Spec.satisfied entries (GenerateIndex.normalize p)
    ∧ VerifyMirror.found (VerifyMirror.available_names entries)
        (VerifyMirror.normalize p) = true.
Proof.
  intros entries f p rest c Hf Hr Hname Hc Hp.
  assert (Spec.satisfied entries (GenerateIndex.normalize p)) as Hsat.
  { exists f. split; [done|]. split; [by destruct Hr|].
    assert (Spec.starts_with_nocase (Fs.d_name f)
              (Py.replace "-" c (GenerateIndex.normalize p) +:+ "-") = true) as Hv.
    { unfold Spec.starts_with_nocase.
      rewrite Hname, (uniform_variant c p), !lower_app, lower_idem by done.
      change (Py.lower (String "-" rest)) with ("-" +:+ Py.lower rest).
      rewrite <-string_app_assoc. apply startswith_app. }
    unfold Spec.provides.
    destruct (is_sep_cases c Hc) as [->|[->| ->]]; [left|right; left|right; right];
      [by rewrite replace_same in Hv|done..]. }
  split; [done|]. apply found_satisfied; [apply lower_normalize|done].
Qed.

Lemma listed_file_satisfies_requirement_witness :
  Spec.satisfied [Sample.flask_login_wheel; Sample.six_wheel] "flask-login".
Proof.
  apply (listed_file_satisfies_requirement
           [Sample.flask_login_wheel; Sample.six_wheel] Sample.flask_login_wheel
           "Flask_Login" "0.6.3-py3-none-any.whl" "_").
  - apply list_elem_of_here.
  - by repeat split.
  - reflexivity.
  - reflexivity.
  - reflexivity.
Defined.

(** X12.  The command line of the verifier exits with status 0 or 1:
    with 0 exactly when it is given the two paths, the requirements file
    and the directory can be read, and no requirement is left
    unsatisfied.  With fewer than two arguments it prints the line
    [Usage: <script> <requirements.txt> <packages_dir>] and nothing
    else, exits with status 1 and reads nothing. *)
Theorem verify_main_exit_status :
  ∀ read_text iterdir argv,
    Cli.exit_status (Cli.verify_main read_text iterdir argv) ≤ 1
    ∧ (Cli.exit_status (Cli.verify_main read_text iterdir argv) = 0
       ↔ ∃ script requirements_file packages_dir more text entries,
           argv = script :: requirements_file :: packages_dir :: more
           ∧ read_text requirements_file = Some text
           ∧ iterdir packages_dir = Some entries
           ∧ Spec.unsatisfied entries (Spec.requirements text) = [])
    ∧ (length argv < 3 →
       Cli.verify_main read_text iterdir argv
       = VerifyMirror.Exited 1
           ["Usage: " +:+ default "" (argv !! 0)
            +:+ " <requirements.txt> <packages_dir>"]
       ∧ ∀ read_text' iterdir',
           Cli.verify_main read_text' iterdir' argv
           = Cli.verify_main read_text iterdir argv).
Proof.
  intros rt it argv. unfold Cli.verify_main.
  destruct (length argv <? 3) eqn:Hlen.
  { apply Nat.ltb_lt in Hlen. split; [done|]. split; [|done]. split; [done|].
    intros (? & ? & ? & ? & ? & ? & -> & _). simpl in Hlen. lia. }
  apply Nat.ltb_ge in Hlen.
  destruct argv as [|script [|rf [|pd more]]]; [simpl in Hlen; lia..|]. simpl.
  split; [|split; [|simpl; lia]].
  - unfold VerifyMirror.verify. destruct (rt rf); [|done].
    destruct (it pd); [|done].
    destruct (foldl _ _ _) as [[|m missing] checked]; simpl; lia.
  - split.
    + intros Hstatus. destruct (rt rf) as [text|] eqn:Htext;
        [|by unfold VerifyMirror.verify in Hstatus; rewrite Htext in Hstatus].
      destruct (it pd) as [entries|] eqn:Hdir;
        [|by unfold VerifyMirror.verify in Hstatus; rewrite Htext, Hdir in Hstatus].
      rewrite (verify_report rt it rf pd text entries) in Hstatus by done.
      exists script, rf, pd, more, text, entries. repeat split; [done..|].
      by destruct (Spec.unsatisfied entries (Spec.requirements text)).
    + intros (? & ? & ? & ? & text & entries & [= <- <- <- <-] & Htext & Hdir & Hnone).
      rewrite (verify_report rt it rf pd text entries) by done.
      by rewrite Hnone.
Qed.

Lemma verify_main_exit_status_witness :
  Cli.verify_main (λ _, Some "six==1.16.0") (λ _, Some [Sample.six_wheel])
    ["verify_mirror.py"; "requirements.txt"]
  = VerifyMirror.Exited 1
      ["Usage: verify_mirror.py <requirements.txt> <packages_dir>"].
Proof.
  apply (proj2 (proj2 (verify_main_exit_status
                         (λ _, Some "six==1.16.0") (λ _, Some [Sample.six_wheel])
                         ["verify_mirror.py"; "requirements.txt"]))).
  simpl. lia.
Defined.

(** ** The export of the lock file *)

Section export.
Import ExportFromLock.

Global Instance lower_le_trans : Transitive lower_le.
Proof. intros a b c. unfold lower_le. apply transitivity. Qed.

Global Instance lower_le_total : Total lower_le.
Proof. intros a b. unfold lower_le. apply total, _. Qed.

Lemma dev_names_inner (deps : list string) (acc : gset string) x :
  x ∈ foldl (λ (acc : gset string) dep_name, {[Py.lower dep_name]} ∪ acc) acc deps
  ↔ x ∈ acc ∨ ∃ d, d ∈ deps ∧ x = Py.lower d.
Proof.
  revert acc. induction deps as [|d deps IH]; intros acc; simpl.
  { split; [by left|]. intros [?|(d & ?%elem_of_nil & _)]; done. }
  rewrite IH, elem_of_union, elem_of_singleton. split.
  - intros [[->|?]|(d' & Hd' & ->)]; [right; exists d; split; [left|done]
                                     |by left
                                     |right; exists d'; split; [by right|done]].
  - intros [?|(d' & [->|Hd']%elem_of_cons & ->)];
      [by left; right|by left; left|right; by exists d'].
Qed.

Lemma dev_names_fold (groups : list (string * list string)) (acc : gset string) x :
  x ∈ foldl (λ (dev_packages : gset string) '(group_name, dependencies),
               if negb (group_name =? "main")%string then
                 foldl (λ (acc : gset string) dep_name, {[Py.lower dep_name]} ∪ acc)
                       dev_packages dependencies
               else dev_packages)
            acc groups
  ↔ x ∈ acc ∨ ∃ g deps d, (g, deps) ∈ groups ∧ g ≠ "main" ∧ d ∈ deps
                            ∧ x = Py.lower d.
Proof.
  revert acc. induction groups as [|[g deps] groups IH]; intros acc; simpl.
  { split; [by left|]. intros [?|(? & ? & ? & ?%elem_of_nil & _)]; done. }
  rewrite IH. clear IH. destruct (g =? "main")%string eqn:Hg; simpl.
  - apply String.eqb_eq in Hg as ->. split.
    + intros [?|(g & deps' & d & Hin & ?)]; [by left|].
      right. exists g, deps', d. split; [by right|done].
    + intros [?|(g & deps' & d & [[= -> ->]|Hin]%elem_of_cons & Hne & ?)];
        [by left|done|]. right. by exists g, deps', d.
  - apply String.eqb_neq in Hg. rewrite dev_names_inner. split.
    + intros [[?|(d & Hd & ->)]|(g' & deps' & d & Hin & ?)].
      * by left.
      * right. exists g, deps, d. split; [left|done].
      * right. exists g', deps', d. split; [by right|done].
    + intros [?|(g' & deps' & d & [[= -> ->]|Hin]%elem_of_cons & Hne & Hd & ->)].
      * by left; left.
      * left. right. by exists d.
      * right. by exists g', deps', d.
Qed.

Lemma dev_names_elem groups n :
  Py.lower n ∈ dev_names groups ↔ Exported.is_dev_dependency groups n.
Proof.
  unfold dev_names. rewrite dev_names_fold. unfold Exported.is_dev_dependency.
  split; [|by right]. by intros [?%not_elem_of_empty|?].
Qed.

Lemma scan_entries exclude_dev pyproject_path groups packages entries :
  Forall Exported.complete packages →
  ∃ added,
    scan exclude_dev (Exported.dev_set exclude_dev pyproject_path groups) packages entries
    = inr (entries ++ added)
    ∧ ∀ l, l ∈ added ↔
           ∃ pkg n v, pkg ∈ packages ∧ name pkg = Some n ∧ version pkg = Some v
                      ∧ l = Exported.line n v
                      ∧ ¬ Exported.dropped exclude_dev pyproject_path groups pkg n.
Proof.
  intros Hall. revert entries.
  induction Hall as [|pkg packages [[n Hn] [v Hv]] _ IH]; intros entries.
  { exists []. split; [by rewrite app_nil_r|]. intros l. split; [by intros ?%elem_of_nil|].
    by intros (? & ? & ? & ?%elem_of_nil & _). }
  simpl. rewrite Hn, Hv.
  assert ((exclude_dev
           && ((default "main" (category pkg) =? "dev")%string
               || bool_decide
                    (Py.lower n ∈ Exported.dev_set exclude_dev pyproject_path groups))) = true
          ↔ Exported.dropped exclude_dev pyproject_path groups pkg n) as Hdrop.
  { unfold Exported.dropped, Exported.dev_set.
    rewrite andb_true_iff, orb_true_iff, String.eqb_eq, bool_decide_eq_true.
    destruct exclude_dev; [|by split; intros [? _]]. simpl.
    assert (default "main" (category pkg) = "dev" ↔ category pkg = Some "dev") as ->.
    { destruct (category pkg); simpl; split; congruence. }
    destruct (given pyproject_path).
    - rewrite dev_names_elem. tauto.
    - rewrite elem_of_empty. intuition congruence. }
  destruct (exclude_dev && _) eqn:Hd.
  - destruct (IH entries) as (added & -> & Hadded). exists added. split; [done|].
    intros l. rewrite Hadded. split.
    + intros (p & n' & v' & Hp & ?). exists p, n', v'. split; [by right|done].
    + intros (p & n' & v' & [->|Hp]%elem_of_cons & Hn' & Hv' & -> & Hkeep).
      * assert (n' = n) as -> by congruence. destruct Hkeep. by apply Hdrop.
      * by exists p, n', v'.
  - destruct (IH (entries ++ [n +:+ "==" +:+ v])) as (added & -> & Hadded).
    exists (Exported.line n v :: added). split; [by rewrite <-app_assoc|].
    intros l. rewrite elem_of_cons, Hadded. split.
    + intros [->|(p & n' & v' & Hp & ?)].
      * exists pkg, n, v. repeat split; [left|done..|].
        by intros H%Hdrop.
      * exists p, n', v'. split; [by right|done].
    + intros (p & n' & v' & [->|Hp]%elem_of_cons & Hn' & Hv' & -> & Hkeep).
      * left. congruence.
      * right. by exists p, n', v'.
Qed.

Lemma scan_key_error exclude_dev dev_packages good bad rest entries :
  Forall Exported.complete good → ¬ Exported.complete bad →
  scan exclude_dev dev_packages (good ++ bad :: rest) entries
  = inl (KeyError (match name bad with Some _ => "version" | None => "name" end)).
Proof.
  intros Hgood Hbad. revert entries.
  induction Hgood as [|pkg good [[n Hn] [v Hv]] _ IH]; intros entries; simpl.
  - destruct (name bad) as [n|] eqn:Hn; [|done].
    destruct (version bad) as [v|] eqn:Hv; [|done].
    destruct Hbad. split; by eexists.
  - rewrite Hn, Hv. by destruct (_ && _).
Qed.

Lemma parse_lock_unfold enum load_lock load_groups lock_path output_path
    exclude_dev pyproject_path packages groups :
  load_lock lock_path = inr packages →
  (exclude_dev && given pyproject_path = true →
   load_groups (default "" pyproject_path) = inr groups) →
  parse_lock enum load_lock load_groups lock_path output_path exclude_dev
    pyproject_path
  = match scan exclude_dev (Exported.dev_set exclude_dev pyproject_path groups) packages [] with
    | inl e => Raised e
    | inr entries =>
        let lines := merge_sort lower_le (enum (list_to_set entries)) in
        Wrote output_path
          (Py.join GenerateIndex.nl lines +:+ GenerateIndex.nl)
          ("Exported " +:+ Py.str (length lines) +:+ " packages to " +:+ output_path)
    end.
Proof.
  intros Hlock Hgroups. unfold parse_lock, Exported.dev_set. rewrite Hlock.
  destruct (exclude_dev && given pyproject_path); [|done].
  by rewrite Hgroups.
Qed.

End export.

(** X13.  When the lock file holds packages with a name and a version,
    [parse_lock] writes one line [name==version] for every package it
    keeps and no other line, each line once, in the order of the lines
    in lower case, each followed by a line feed, and prints their
    number.  A package is left out only with [exclude_dev], when its
    category is [dev] or when a group other than [main] of the project
    file lists its name, compared in lower case. *)
Theorem export_writes_kept_packages :
  ∀ enum load_lock load_groups lock_path output_path exclude_dev pyproject_path
    packages groups,
    (∀ X, enum X ≡ₚ elements X) →
    load_lock lock_path = inr packages →
    (exclude_dev && ExportFromLock.given pyproject_path = true →
     load_groups (default "" pyproject_path) = inr groups) →
    Forall Exported.complete packages →
    ∃ lines,
      ExportFromLock.parse_lock enum load_lock load_groups lock_path output_path
        exclude_dev pyproject_path
      = ExportFromLock.Wrote output_path
          (Py.join GenerateIndex.nl lines +:+ GenerateIndex.nl)
          ("Exported " +:+ Py.str (length lines) +:+ " packages to " +:+ output_path)
      ∧ Sorted ExportFromLock.lower_le lines
      ∧ NoDup lines
      ∧ ∀ l, l ∈ lines ↔
             ∃ pkg n v,
               pkg ∈ packages
               ∧ ExportFromLock.name pkg = Some n
               ∧ ExportFromLock.version pkg = Some v
               ∧ l = Exported.line n v
               ∧ ¬ Exported.dropped exclude_dev pyproject_path groups pkg n.
Proof.
  intros enum load_lock load_groups lock_path output_path exclude_dev
    pyproject_path packages groups Henum Hlock Hgroups Hall.
  rewrite (parse_lock_unfold _ _ _ _ _ _ _ packages groups) by done.
  destruct (scan_entries exclude_dev pyproject_path groups packages [] Hall)
    as (added & -> & Hadded).
  eexists. split; [done|]. split; [apply Sorted_merge_sort, _|].
  split.
  - rewrite merge_sort_Permutation, Henum. apply NoDup_elements.
  - intros l. rewrite merge_sort_Permutation, Henum, elem_of_elements.
    rewrite elem_of_list_to_set. apply Hadded.
Qed.

Lemma export_writes_kept_packages_witness :
  ∃ lines,
    ExportFromLock.parse_lock elements LockSample.load_lock LockSample.load_groups
      "poetry.lock" "requirements.txt" true (Some "pyproject.toml")
    = ExportFromLock.Wrote "requirements.txt"
        (Py.join GenerateIndex.nl lines +:+ GenerateIndex.nl)
        ("Exported " +:+ Py.str (length lines) +:+ " packages to "
         +:+ "requirements.txt")
    ∧ Sorted ExportFromLock.lower_le lines
    ∧ NoDup lines
    ∧ ∀ l, l ∈ lines ↔
           ∃ pkg n v,
             pkg ∈ LockSample.lock
             ∧ ExportFromLock.name pkg = Some n
             ∧ ExportFromLock.version pkg = Some v
             ∧ l = Exported.line n v
             ∧ ¬ Exported.dropped true (Some "pyproject.toml") LockSample.groups
                   pkg n.
Proof.
  apply (export_writes_kept_packages elements LockSample.load_lock
           LockSample.load_groups "poetry.lock" "requirements.txt" true
           (Some "pyproject.toml") LockSample.lock LockSample.groups).
  - intros X. reflexivity.
  - reflexivity.
  - intros _. reflexivity.
  - repeat constructor; by eexists.
Defined.

(** X14.  A package table without [name], or else without [version],
    ends the run with [KeyError] for that key: the first such table in
    the lock file decides, also when the table would have been left out
    as a development package, and nothing is written. *)
Theorem export_missing_key_raises :
  ∀ enum load_lock load_groups lock_path output_path exclude_dev pyproject_path
    good bad rest groups,
    load_lock lock_path = inr (good ++ bad :: rest) →
    (exclude_dev && ExportFromLock.given pyproject_path = true →
     load_groups (default "" pyproject_path) = inr groups) →
    Forall Exported.complete good →
    ¬ Exported.complete bad →
    ExportFromLock.parse_lock enum load_lock load_groups lock_path output_path
      exclude_dev pyproject_path
    = ExportFromLock.Raised
        (ExportFromLock.KeyError
           (match ExportFromLock.name bad with
            | Some _ => "version"
            | None => "name"
            end)).
Proof.
  intros enum load_lock load_groups lock_path output_path exclude_dev
    pyproject_path good bad rest groups Hlock Hgroups Hgood Hbad.
  rewrite (parse_lock_unfold _ _ _ _ _ _ _ (good ++ bad :: rest) groups) by done.
  by rewrite scan_key_error.
Qed.

Lemma export_missing_key_raises_witness :
  ExportFromLock.parse_lock elements
    (λ _, inr (LockSample.lock ++ LockSample.broken :: LockSample.lock))
    LockSample.load_groups "poetry.lock" "requirements.txt" true None
  = ExportFromLock.Raised (ExportFromLock.KeyError "version").
Proof.
  apply (export_missing_key_raises elements _ LockSample.load_groups "poetry.lock"
           "requirements.txt" true None LockSample.lock LockSample.broken
           LockSample.lock []).
  - reflexivity.
  - simpl. discriminate.
  - repeat constructor; by eexists.
  - intros [_ [v Hv]]. discriminate.
Defined.

(** X15.  The lock file is read first and the project file only for a
    run with [exclude_dev] and a non-empty [pyproject_path]: an error
    of the lock file ends the run whatever the project file is, an
    error of the project file ends such a run whatever the packages
    are, and any other run gives the same outcome whatever reading the
    project file would give. *)
Theorem export_reads_project_file_on_demand :
  ∀ enum load_lock lock_path output_path exclude_dev pyproject_path,
    (∀ load_groups e,
       load_lock lock_path = inl e →
       ExportFromLock.parse_lock enum load_lock load_groups lock_path output_path
         exclude_dev pyproject_path
       = ExportFromLock.Raised e)
    ∧ (∀ load_groups packages e,
         load_lock lock_path = inr packages →
         exclude_dev = true →
         ExportFromLock.given pyproject_path = true →
         load_groups (default "" pyproject_path) = inl e →
         ExportFromLock.parse_lock enum load_lock load_groups lock_path output_path
           exclude_dev pyproject_path
         = ExportFromLock.Raised e)
    ∧ (∀ load_groups load_groups',
         exclude_dev = false ∨ ExportFromLock.given pyproject_path = false →
         ExportFromLock.parse_lock enum load_lock load_groups lock_path output_path
           exclude_dev pyproject_path
         = ExportFromLock.parse_lock enum load_lock load_groups' lock_path
             output_path exclude_dev pyproject_path).
Proof.
  intros enum load_lock lock_path output_path exclude_dev pyproject_path.
  unfold ExportFromLock.parse_lock. repeat split.
  - by intros load_groups e ->.
  - by intros load_groups packages e -> -> -> ->.
  - intros load_groups load_groups' H.
    destruct (load_lock lock_path); [done|].
    assert (exclude_dev && ExportFromLock.given pyproject_path = false) as ->;
      [|done].
    destruct H as [-> | ->]; [done|apply andb_false_r].
Qed.

Lemma export_reads_project_file_on_demand_witness :
  ExportFromLock.parse_lock elements LockSample.load_lock LockSample.load_groups
    "missing.lock" "requirements.txt" true (Some "pyproject.toml")
  = ExportFromLock.Raised (ExportFromLock.FileNotFoundError "missing.lock")
  ∧ ExportFromLock.parse_lock elements LockSample.load_lock LockSample.load_groups
      "poetry.lock" "requirements.txt" true (Some "missing.toml")
    = ExportFromLock.Raised (ExportFromLock.FileNotFoundError "missing.toml")
  ∧ ExportFromLock.parse_lock elements LockSample.load_lock LockSample.load_groups
      "poetry.lock" "requirements.txt" false (Some "missing.toml")
    = ExportFromLock.parse_lock elements LockSample.load_lock
        (λ _, inr LockSample.groups) "poetry.lock" "requirements.txt" false
        (Some "missing.toml").
Proof.
  pose proof (export_reads_project_file_on_demand elements LockSample.load_lock
                "missing.lock" "requirements.txt" true (Some "pyproject.toml"))
    as (H1 & _ & _).
  pose proof (export_reads_project_file_on_demand elements LockSample.load_lock
                "poetry.lock" "requirements.txt" true (Some "missing.toml"))
    as (_ & H2 & _).
  pose proof (export_reads_project_file_on_demand elements LockSample.load_lock
                "poetry.lock" "requirements.txt" false (Some "missing.toml"))
    as (_ & _ & H3).
  split; [|split].
  - by apply H1.
  - by apply (H2 LockSample.load_groups LockSample.lock).
  - apply H3. by left.
Defined.

(** ** From the exported file to the verifier *)

Section round_trip.
Import ExportFromLock.

Lemma split_no_sep c s : Spec.contains c s = false → Py.split c s = [s].
Proof.
  induction s as [|a s IH]; [done|]. simpl.
  intros [Ha Hs]%orb_false_iff. by rewrite Ha, IH.
Qed.

Lemma split_segment c seg rest :
  Spec.contains c seg = false →
  Py.split c (seg +:+ String c rest) = seg :: Py.split c rest.
Proof.
  induction seg as [|a seg IH].
  - intros _. rewrite app_empty. simpl. by rewrite Ascii.eqb_refl.
  - rewrite app_cons. simpl. intros [Ha Hs]%orb_false_iff. by rewrite Ha, IH.
Qed.

Lemma join_cons sep x y l :
  Py.join sep (x :: y :: l) = x +:+ sep +:+ Py.join sep (y :: l).
Proof. done. Qed.

Lemma split_join lines :
  lines ≠ [] → Forall (λ l, Spec.contains Py.LF l = false) lines →
  Py.split Py.LF (Py.join GenerateIndex.nl lines) = lines.
Proof.
  intros Hne Hall. induction Hall as [|x lines Hx Hall IH]; [done|].
  destruct lines as [|y lines]; [by apply split_no_sep|].
  rewrite join_cons. unfold GenerateIndex.nl at 1. rewrite app_cons, app_empty.
  rewrite split_segment by done. by rewrite IH.
Qed.

Lemma rstrip_app_space s c :
  Py.is_space c = true → Py.rstrip (s +:+ String c "") = Py.rstrip s.
Proof.
  intros Hc. induction s as [|a s IH].
  - rewrite app_empty. simpl. by rewrite Hc.
  - rewrite app_cons. simpl. by rewrite IH.
Qed.

Lemma last_char_app s c t :
  Spec.last_char (s +:+ String c t) = Spec.last_char (String c t).
Proof.
  induction s as [|a s IH]; [done|]. rewrite app_cons.
  change (Spec.last_char (String a (s +:+ String c t)))
    with (match s +:+ String c t with
          | "" => Some a
          | _ => Spec.last_char (s +:+ String c t)
          end).
  rewrite IH. by destruct s.
Qed.

Lemma join_head c x l :
  ∃ rest, Py.join GenerateIndex.nl (String c x :: l) = String c rest.
Proof. destruct l; [by eexists|]. rewrite join_cons, app_cons. by eexists. Qed.

Lemma join_last lines :
  lines ≠ [] → Forall Exported.plain_line lines →
  match Spec.last_char (Py.join GenerateIndex.nl lines) with
  | None => True
  | Some c => Py.is_space c = false
  end.
Proof.
  intros Hne Hall. induction Hall as [|x lines Hx Hall IH]; [done|].
  destruct lines as [|y lines]; [apply Hx|].
  rewrite join_cons. unfold GenerateIndex.nl at 1. rewrite app_cons, app_empty.
  rewrite last_char_app.
  apply Forall_cons in Hall as [(Hy & _) _].
  destruct y as [|c y]; [done|].
  destruct (join_head c y lines) as [rest Hrest].
  specialize (IH ltac:(done)). rewrite Hrest in *. done.
Qed.

Lemma strip_join lines :
  lines ≠ [] → Forall Exported.plain_line lines →
  Py.strip (Py.join GenerateIndex.nl lines +:+ GenerateIndex.nl)
  = Py.join GenerateIndex.nl lines.
Proof.
  intros Hne Hall. unfold Py.strip.
  destruct lines as [|x lines]; [done|].
  pose proof Hall as [(Hx & [Hhead _] & _) _]%Forall_cons.
  destruct x as [|c x]; [done|].
  pose proof (join_last _ Hne Hall) as Hlast.
  destruct (join_head c x lines) as [rest Hrest]. rewrite Hrest in *.
  rewrite app_cons, lstrip_id by done. rewrite <-app_cons.
  unfold GenerateIndex.nl. rewrite rstrip_app_space by done.
  by apply rstrip_id.
Qed.

Lemma requirements_join lines :
  Forall Exported.plain_line lines →
  Forall (λ l, is_Some (VerifyMirror.requirement_name l)) lines →
  Spec.requirements (Py.join GenerateIndex.nl lines +:+ GenerateIndex.nl) = lines.
Proof.
  intros Hplain Hname. unfold Spec.requirements.
  destruct (decide (lines = [])) as [->|Hne]; [done|].
  rewrite strip_join by done.
  rewrite split_join;
    [|done|eapply Forall_impl; [exact Hplain|by intros ? (_ & _ & ?)]].
  clear Hne. induction Hplain as [|x lines (_ & Hx & _) _ IH]; [done|].
  apply Forall_cons in Hname as [Hn Hname].
  rewrite fmap_cons, strip_id by done.
  rewrite filter_cons_True by done. by rewrite IH.
Qed.

Lemma plain_char_visible c :
  (Py.is_lower c || Py.is_upper c || Py.is_digit c || Re.is_sep c) = true →
  Py.is_space c = false ∧ (c =? Py.LF)%char = false.
Proof. by destruct c as [[] [] [] [] [] [] [] []]. Qed.

Lemma plain_name_one_line n :
  Mirror.plain_name n = true → Spec.contains Py.LF n = false.
Proof.
  induction n as [|c n IH]; [done|]. simpl.
  intros [Hc Hn]%andb_true_iff. apply plain_char_visible in Hc as [_ Hc].
  by rewrite Hc, IH.
Qed.

Lemma contains_app c s t :
  Spec.contains c (s +:+ t) = Spec.contains c s || Spec.contains c t.
Proof.
  induction s as [|a s IH]; [done|]. rewrite app_cons. simpl.
  by rewrite IH, orb_assoc.
Qed.

(** The line of a readable package is read back as it stands, and
    yields the normal form of the package's name. *)
Lemma readable_line pkg :
  Exported.readable pkg →
  ∃ n v, name pkg = Some n ∧ version pkg = Some v
    ∧ Exported.plain_line (Exported.line n v)
    ∧ VerifyMirror.requirement_name (Exported.line n v)
      = Some (VerifyMirror.normalize n).
Proof.
  intros (n & v & Hn & Hv & Hne & Hplain & Hdash & Hlf & _ & Hlast).
  exists n, v. split; [done|]. split; [done|]. unfold Exported.line.
  change ("==" +:+ v) with (String "=" (String "=" v)).
  destruct n as [|c n]; [done|].
  pose proof Hplain as [Hc _]%andb_true_iff.
  pose proof (plain_char_visible c Hc) as [Hspace _].
  apply plain_char_cases in Hc as (Hc & _ & Hhash).
  split; [split; [done|split; [split|]]|].
  - by rewrite app_cons.
  - rewrite last_char_app. by destruct v.
  - rewrite contains_app, plain_name_one_line by done. simpl. done.
  - unfold VerifyMirror.requirement_name. rewrite app_cons.
    simpl in Hdash. rewrite startswith_empty, andb_true_r in Hdash.
    cbn [Py.truthy Py.startswith negb orb]. rewrite Hhash, Hdash.
    rewrite !startswith_empty. simpl "&&". cbn [orb].
    unfold Re.match_name. rewrite <-app_cons, take_name_chars_plain by done.
    change (Re.take_name_chars (String "=" (String "=" v))) with "".
    rewrite string_app_empty_r.
    rewrite split_first_no_sep; [done|].
    by apply (plain_name_no_bracket (String c n)).
Qed.

Lemma scan_sub exclude_dev dev_packages packages entries result :
  scan exclude_dev dev_packages packages entries = inr result →
  ∀ l, l ∈ result →
       l ∈ entries
       ∨ ∃ pkg n v, pkg ∈ packages ∧ name pkg = Some n ∧ version pkg = Some v
                    ∧ l = Exported.line n v.
Proof.
  revert entries. induction packages as [|pkg packages IH]; intros entries; simpl.
  { intros [= ->] l Hl. by left. }
  destruct (name pkg) as [n|] eqn:Hn; [|done].
  destruct (version pkg) as [v|] eqn:Hv; [|done].
  intros Hscan l Hl. destruct (_ && _).
  - destruct (IH _ Hscan l Hl) as [?|(p & n' & v' & Hp & ?)]; [by left|].
    right. exists p, n', v'. split; [by right|done].
  - destruct (IH _ Hscan l Hl)
      as [[?| ->%list_elem_of_singleton]%elem_of_app|(p & n' & v' & Hp & ?)].
    + by left.
    + right. exists pkg, n, v. split; [left|done].
    + right. exists p, n', v'. split; [by right|done].
Qed.

Lemma parse_lock_wrote enum load_lock load_groups lock_path output_path
    exclude_dev pyproject_path packages out text stdout :
  (∀ X, enum X ≡ₚ elements X) →
  load_lock lock_path = inr packages →
  parse_lock enum load_lock load_groups lock_path output_path exclude_dev
    pyproject_path = Wrote out text stdout →
  ∃ lines,
    out = output_path
    ∧ text = Py.join GenerateIndex.nl lines +:+ GenerateIndex.nl
    ∧ stdout = "Exported " +:+ Py.str (length lines) +:+ " packages to "
               +:+ output_path
    ∧ ∀ l, l ∈ lines →
           ∃ pkg n v, pkg ∈ packages ∧ name pkg = Some n ∧ version pkg = Some v
                      ∧ l = Exported.line n v.
Proof.
  intros Henum Hlock. unfold parse_lock. rewrite Hlock.
  assert (∀ dev_packages,
            match scan exclude_dev dev_packages packages [] with
            | inl e => Raised e
            | inr entries =>
                let lines := merge_sort lower_le (enum (list_to_set entries)) in
                Wrote output_path
                  (Py.join GenerateIndex.nl lines +:+ GenerateIndex.nl)
                  ("Exported " +:+ Py.str (length lines) +:+ " packages to "
                   +:+ output_path)
            end = Wrote out text stdout →
            ∃ lines,
              out = output_path
              ∧ text = Py.join GenerateIndex.nl lines +:+ GenerateIndex.nl
              ∧ stdout = "Exported " +:+ Py.str (length lines)
                         +:+ " packages to " +:+ output_path
              ∧ ∀ l, l ∈ lines →
                     ∃ pkg n v, pkg ∈ packages ∧ name pkg = Some n
                                ∧ version pkg = Some v
                                ∧ l = Exported.line n v) as Hcase.
  { intros dev_packages.
    destruct (scan exclude_dev dev_packages packages []) as [e|entries] eqn:Hscan;
      [done|].
    intros [= <- <- <-]. eexists. repeat split.
    intros l. rewrite merge_sort_Permutation, Henum, elem_of_elements.
    rewrite elem_of_list_to_set. intros Hl.
    by destruct (scan_sub _ _ _ _ _ Hscan l Hl) as [?%elem_of_nil|?]. }
  destruct (exclude_dev && given pyproject_path); [|apply Hcase].
  destruct (load_groups _); [done|apply Hcase].
Qed.

End round_trip.

(** X16.  The file that [parse_lock] writes is one the verifier reads
    back line by line.  When every package of the lock file has a name
    of letters, digits and separators that does not start with [-], and
    a version without line break and without white space at its end,
    [verify] on the written file counts exactly the exported lines, as
    many as [parse_lock] printed, and reports as missing those of them
    that no file of the directory satisfies. *)
Theorem exported_file_is_verified_line_by_line :
  ∀ enum load_lock load_groups lock_path output_path exclude_dev pyproject_path
    packages out text stdout read_text iterdir packages_dir entries,
    (∀ X, enum X ≡ₚ elements X) →
    load_lock lock_path = inr packages →
    Forall Exported.readable packages →
    ExportFromLock.parse_lock enum load_lock load_groups lock_path output_path
      exclude_dev pyproject_path
    = ExportFromLock.Wrote out text stdout →
    read_text out = Some text →
    iterdir packages_dir = Some entries →
    ∃ lines,
      text = Py.join GenerateIndex.nl lines +:+ GenerateIndex.nl
      ∧ stdout = "Exported " +:+ Py.str (length lines) +:+ " packages to "
                 +:+ output_path
      ∧ Spec.requirements text = lines
      ∧ VerifyMirror.verify read_text iterdir out packages_dir
        = VerifyMirror.report (Spec.unsatisfied entries lines) (length lines).
Proof.
  intros enum load_lock load_groups lock_path output_path exclude_dev
    pyproject_path packages out text stdout read_text iterdir packages_dir entries
    Henum Hlock Hread Hrun Htext Hdir.
  destruct (parse_lock_wrote _ _ _ _ _ _ _ _ _ _ _ Henum Hlock Hrun)
    as (lines & -> & -> & -> & Hlines).
  assert (Spec.requirements
            (Py.join GenerateIndex.nl lines +:+ GenerateIndex.nl) = lines) as Hreq.
  { rewrite Forall_forall in Hread.
    apply requirements_join; apply Forall_forall; intros l Hl;
      destruct (Hlines l Hl) as (pkg & n & v & Hpkg & Hn & Hv & ->);
      destruct (readable_line pkg (Hread pkg Hpkg))
        as (n' & v' & Hn' & Hv' & Hplain & Hname);
      assert (n' = n) as -> by congruence;
      assert (v' = v) as -> by congruence; [done|by rewrite Hname]. }
  exists lines. repeat split; [done|].
  rewrite (verify_report _ _ _ _ _ entries Htext Hdir). by rewrite Hreq.
Qed.

Lemma exported_file_is_verified_line_by_line_witness :
  ∃ lines,
    "Flask==3.0" +:+ GenerateIndex.nl +:+ "requests==2.30.0" +:+ GenerateIndex.nl
    +:+ "requests==2.31.0" +:+ GenerateIndex.nl
    = Py.join GenerateIndex.nl lines +:+ GenerateIndex.nl
    ∧ "Exported 3 packages to requirements.txt"
      = "Exported " +:+ Py.str (length lines) +:+ " packages to "
        +:+ "requirements.txt"
    ∧ Spec.requirements
        ("Flask==3.0" +:+ GenerateIndex.nl +:+ "requests==2.30.0"
         +:+ GenerateIndex.nl +:+ "requests==2.31.0" +:+ GenerateIndex.nl) = lines
    ∧ VerifyMirror.verify
        (λ _, Some ("Flask==3.0" +:+ GenerateIndex.nl +:+ "requests==2.30.0"
                    +:+ GenerateIndex.nl +:+ "requests==2.31.0"
                    +:+ GenerateIndex.nl))
        (λ _, Some [Sample.requests_wheel]) "requirements.txt" "packages/all"
      = VerifyMirror.report (Spec.unsatisfied [Sample.requests_wheel] lines)
          (length lines).
Proof.
  apply (exported_file_is_verified_line_by_line elements LockSample.load_lock
           LockSample.load_groups "poetry.lock" "requirements.txt" true
           (Some "pyproject.toml") LockSample.lock "requirements.txt" _ _ _ _
           "packages/all" [Sample.requests_wheel]).
  - intros X. reflexivity.
  - reflexivity.
  - repeat constructor; eexists _, _; repeat split; done.
  - vm_compute. reflexivity.
  - reflexivity.
  - reflexivity.
Defined.

(** ** The command line of the export *)

Section export_main.
Import ExportFromLock.

Lemma member_elem x l : member x l = bool_decide (x ∈ l).
Proof.
  unfold member. induction l as [|y l IH]; [done|]. simpl. rewrite IH.
  destruct (y =? x)%string eqn:H.
  - apply String.eqb_eq in H as ->. symmetry. apply bool_decide_eq_true. left.
  - apply String.eqb_neq in H. simpl.
    apply bool_decide_ext. rewrite elem_of_cons.
    split; [by right|]. by intros [->|?].
Qed.

Lemma index_of_app x pre post :
  x ∉ pre → index_of x (pre ++ x :: post) = length pre.
Proof.
  induction pre as [|y pre IH]; simpl.
  - intros _. by rewrite String.eqb_refl.
  - intros [Hy Hpre]%not_elem_of_cons.
    apply not_eq_sym, String.eqb_neq in Hy. by rewrite Hy, IH.
Qed.

End export_main.

(** X17.  The export's command line: with fewer than two arguments the
    script prints its usage and leaves with status 1.  Otherwise the
    first two arguments are the lock file and the output file whatever
    they are, [--without-dev] counts at any position, and the argument
    after the first [--pyproject] is the project file; when
    [--pyproject] comes last the run ends with [IndexError] before any
    file is read. *)
Theorem export_main_arguments :
  ∀ enum load_lock load_groups argv,
    (length argv < 3 →
     ExportFromLock.main enum load_lock load_groups argv
     = ExportFromLock.Exited 1
         ("Usage: " +:+ default "" (argv !! 0)
          +:+ " <poetry.lock> <output.txt> [--without-dev] [--pyproject <pyproject.toml>]"))
    ∧ (3 ≤ length argv →
       ("--pyproject" ∉ argv →
        ExportFromLock.main enum load_lock load_groups argv
        = ExportFromLock.parse_lock enum load_lock load_groups
            (default "" (argv !! 1)) (default "" (argv !! 2))
            (bool_decide ("--without-dev" ∈ argv)) None)
       ∧ (∀ pre, "--pyproject" ∉ pre → argv = pre ++ ["--pyproject"] →
                 ExportFromLock.main enum load_lock load_groups argv
                 = ExportFromLock.Raised ExportFromLock.IndexError)
       ∧ (∀ pre p post,
            "--pyproject" ∉ pre → argv = pre ++ "--pyproject" :: p :: post →
            ExportFromLock.main enum load_lock load_groups argv
            = ExportFromLock.parse_lock enum load_lock load_groups
                (default "" (argv !! 1)) (default "" (argv !! 2))
                (bool_decide ("--without-dev" ∈ argv)) (Some p))).
Proof.
  intros enum load_lock load_groups argv. unfold ExportFromLock.main. split.
  - intros H. by apply Nat.ltb_lt in H as ->.
  - intros H. apply Nat.ltb_ge in H as ->. rewrite !member_elem. repeat split.
    + intros Hno. by rewrite bool_decide_eq_false_2.
    + intros pre Hpre ->. rewrite bool_decide_eq_true_2
        by (apply elem_of_app; right; left).
      rewrite index_of_app by done.
      rewrite lookup_ge_None_2; [done|]. rewrite length_app. simpl. lia.
    + intros pre p post Hpre ->. rewrite bool_decide_eq_true_2
        by (apply elem_of_app; right; left).
      rewrite index_of_app by done.
      replace (length pre + 1) with (length pre + 1 + 0) by lia.
      rewrite <-Nat.add_assoc, lookup_app_r by lia.
      by replace (length pre + (1 + 0) - length pre) with 1 by lia.
Qed.

Lemma export_main_arguments_witness :
  ExportFromLock.main elements LockSample.load_lock LockSample.load_groups
    ["export_from_lock.py"; "poetry.lock"]
  = ExportFromLock.Exited 1
      "Usage: export_from_lock.py <poetry.lock> <output.txt> [--without-dev] [--pyproject <pyproject.toml>]"
  ∧ ExportFromLock.main elements LockSample.load_lock LockSample.load_groups
      ["export_from_lock.py"; "poetry.lock"; "requirements.txt"; "--without-dev";
       "--pyproject"]
    = ExportFromLock.Raised ExportFromLock.IndexError.
Proof.
  split.
  - apply (proj1 (export_main_arguments elements LockSample.load_lock
                    LockSample.load_groups ["export_from_lock.py"; "poetry.lock"])).
    simpl. lia.
  - apply (proj1 (proj2 (proj2 (export_main_arguments elements LockSample.load_lock
                    LockSample.load_groups
                    ["export_from_lock.py"; "poetry.lock"; "requirements.txt";
                     "--without-dev"; "--pyproject"]) ltac:(simpl; lia)))
             ["export_from_lock.py"; "poetry.lock"; "requirements.txt";
              "--without-dev"]).
    + rewrite !not_elem_of_cons. repeat split; try done. apply not_elem_of_nil.
    + reflexivity.
Defined.

(** ** The export does not depend on any order *)

Section export_order.
Import ExportFromLock.

Lemma lower_le_antisym a b :
  lower_le a b → lower_le b a → Py.lower a = Py.lower b.
Proof. unfold lower_le. apply (anti_symm String.le). Qed.

End export_order.

(** X18.  The export depends neither on the order of the packages in
    the lock file nor on the order in which the set of entries is
    iterated: when no two requirement lines of the packages differ in
    case only, two runs on lock files with the same packages in any
    order, under any two iteration orders, write the same text and
    print the same line. *)
Theorem export_is_order_independent :
  ∀ enum enum' load_lock load_lock' load_groups lock_path output_path exclude_dev
    pyproject_path packages packages' groups,
    (∀ X, enum X ≡ₚ elements X) →
    (∀ X, enum' X ≡ₚ elements X) →
    load_lock lock_path = inr packages →
    load_lock' lock_path = inr packages' →
    packages ≡ₚ packages' →
    (exclude_dev && ExportFromLock.given pyproject_path = true →
     load_groups (default "" pyproject_path) = inr groups) →
    Forall Exported.complete packages →
    Distinct.case_distinct packages →
    ExportFromLock.parse_lock enum load_lock load_groups lock_path output_path
      exclude_dev pyproject_path
    = ExportFromLock.parse_lock enum' load_lock' load_groups lock_path output_path
        exclude_dev pyproject_path.
Proof.
  intros enum enum' load_lock load_lock' load_groups lock_path output_path
    exclude_dev pyproject_path packages packages' groups Henum Henum' Hlock Hlock'
    Hperm Hgroups Hall Hdistinct.
  rewrite (parse_lock_unfold enum load_lock _ _ _ _ _ packages groups) by done.
  rewrite (parse_lock_unfold enum' load_lock' _ _ _ _ _ packages' groups) by done.
  assert (Forall Exported.complete packages') as Hall' by by rewrite <-Hperm.
  destruct (scan_entries exclude_dev pyproject_path groups packages [] Hall)
    as (added & -> & Hadded).
  destruct (scan_entries exclude_dev pyproject_path groups packages' [] Hall')
    as (added' & -> & Hadded').
  simpl.
  assert (list_to_set added =@{gset string} list_to_set added') as Hset.
  { apply set_eq. intros l. rewrite !elem_of_list_to_set, Hadded, Hadded'.
    by setoid_rewrite Hperm. }
  assert (merge_sort ExportFromLock.lower_le (enum (list_to_set added))
          = merge_sort ExportFromLock.lower_le (enum' (list_to_set added')))
    as ->; [|done].
  apply (Sorted_unique_strong ExportFromLock.lower_le).
  - intros x1 x2 Hx1 Hx2 H12 H21.
    rewrite merge_sort_Permutation, Henum, elem_of_elements,
      elem_of_list_to_set, Hadded in Hx1.
    rewrite merge_sort_Permutation, Henum', elem_of_elements, <-Hset,
      elem_of_list_to_set, Hadded in Hx2.
    destruct Hx1 as (p & n & v & Hp & Hn & Hv & -> & _).
    destruct Hx2 as (q & n' & v' & Hq & Hn' & Hv' & -> & _).
    apply (Hdistinct p q); try done. by apply lower_le_antisym.
  - apply Sorted_merge_sort, _.
  - apply Sorted_merge_sort, _.
  - by rewrite !merge_sort_Permutation, Henum, Henum', Hset.
Qed.

Lemma export_is_order_independent_witness :
  ExportFromLock.parse_lock elements LockSample.load_lock LockSample.load_groups
    "poetry.lock" "requirements.txt" true (Some "pyproject.toml")
  = ExportFromLock.parse_lock (λ X, reverse (elements X))
      (λ _, inr (reverse LockSample.lock)) LockSample.load_groups
      "poetry.lock" "requirements.txt" true (Some "pyproject.toml").
Proof.
  apply (export_is_order_independent elements (λ X, reverse (elements X))
           LockSample.load_lock (λ _, inr (reverse LockSample.lock))
           LockSample.load_groups "poetry.lock" "requirements.txt" true
           (Some "pyproject.toml") LockSample.lock (reverse LockSample.lock)
           LockSample.groups).
  - intros X. reflexivity.
  - intros X. apply reverse_Permutation.
  - reflexivity.
  - reflexivity.
  - symmetry. apply reverse_Permutation.
  - intros _. reflexivity.
  - repeat constructor; by eexists.
  - intros p q n v n' v' Hp Hq Hn Hv Hn' Hv'.
    unfold LockSample.lock in Hp, Hq.
    rewrite !elem_of_cons, elem_of_nil in Hp, Hq.
    destruct Hp as [->|[->|[->|[->|[->|[]]]]]];
      destruct Hq as [->|[->|[->|[->|[->|[]]]]]];
      simpl in Hn, Hv, Hn', Hv';
      injection Hn as <-; injection Hv as <-;
      injection Hn' as <-; injection Hv' as <-;
      vm_compute; congruence.
Defined.
